(** * Shape-level verification of the dilated U-Net graph builder

    Source: [src/rvseg/models/dilatedunet.py].

    The three Python functions [downsampling_block], [upsampling_block]
    and [dilated_unet] assemble a Keras graph.  They are embedded here as
    computations in a state-and-exception monad whose state is the graph
    built so far (an append-only list of layer nodes) and whose exceptions
    are the Python exceptions that can abort construction.  Tensors are
    symbolic: a tensor handle is the index of the node that produced it
    together with its static shape (height, width, channels); the batch
    axis, always [None], is elided.  Python integers are [Z], with [//]
    and [%] as [Z.div] and [Z.modulo] (both floor); the two float
    arguments, [temperature] and [dropout], are only stored in a layer or
    compared with 0 while the graph is built, and are rationals here. *)

From Stdlib Require Import ZArith List String Ascii QArith Lia Bool.
Import ListNotations.
Open Scope Z_scope.

(* ================================================================== *)
(** ** Graphs, tensors and exceptions *)
(* ================================================================== *)

(** Static shape of a tensor, as [K.int_shape] reports it without the
    batch axis. *)
Record shape : Type := mkShape {
  height : Z;
  width : Z;
  channels : Z
}.

(** A symbolic tensor: the index of its producing node and its shape. *)
Record tensor : Type := mkTensor {
  tid : nat;
  tshape : shape
}.

(** The function wrapped by the [Lambda] layer of line 120,
    [lambda z: z/temperature]; it is stored, not evaluated, while the
    graph is built. *)
Inductive lambda_fn : Type :=
| DivideBy (temperature : Q).

(** The Keras layers the source instantiates, with the arguments the
    source passes or leaves at their default. *)
Inductive layer : Type :=
| LInput (s : shape)
| LConv2D (filters : Z) (kernel_size : Z * Z) (padding : string)
          (dilation_rate : Z)
| LConv2DTranspose (filters : Z) (kernel_size : Z * Z) (strides : Z * Z)
                   (padding : string)
| LMaxPooling2D (pool_size : Z * Z)
| LCropping2D (cropping : (Z * Z) * (Z * Z))
| LConcatenate
| LBatchNormalization
| LActivation (fn : string)
| LDropout (rate : Q)
| LLambda (f : lambda_fn).

Record node : Type := mkNode {
  nlayer : layer;
  ninputs : list tensor;
  noutput : tensor
}.

Definition graph : Type := list node.

(** The four [assert] statements of the source (lines 13, 14, 38, 39). *)
Inductive assertion : Type :=
| height_even
| width_even
| h_crop_nonneg
| w_crop_nonneg.

(** Reasons for which the Keras layers used here raise [ValueError]. *)
Inductive value_error : Type :=
| invalid_padding
| negative_dimension
| concat_shape_mismatch.

Inductive exn : Type :=
| AssertionError (a : assertion)
| ValueError (v : value_error)
| IndexError.

Inductive result (A : Type) : Type :=
| Ok (a : A)
| Raise (e : exn).
Arguments Ok {A} a.
Arguments Raise {A} e.

(** Graph construction: a computation reads and extends the graph, and
    either returns a value or raises.  The graph reached when an
    exception is raised is kept, so that one can tell what had been
    built at that point. *)
Definition M (A : Type) : Type := graph -> result A * graph.

Definition ret {A} (a : A) : M A := fun g => (Ok a, g).

Definition bind {A B} (m : M A) (k : A -> M B) : M B :=
  fun g => match m g with
           | (Ok a, g') => k a g'
           | (Raise e, g') => (Raise e, g')
           end.

Definition raise {A} (e : exn) : M A := fun g => (Raise e, g).

Declare Scope build_scope.
Delimit Scope build_scope with build.
Notation "x <- m ;; k" := (bind m (fun x => k))
  (at level 100, m at next level, right associativity) : build_scope.
Notation "' p <- m ;; k" := (bind m (fun p => k))
  (at level 100, p pattern, m at next level, right associativity)
  : build_scope.
Notation "m ;;; k" := (bind m (fun _ => k))
  (at level 100, right associativity) : build_scope.
Open Scope build_scope.

(** Python's [assert c]. *)
Definition py_assert (c : bool) (a : assertion) : M unit :=
  if c then ret tt else raise (AssertionError a).

(** Python's [for v in l: s = body(v, s)] over the loop-carried state. *)
Fixpoint for_in {A S} (l : list A) (body : A -> S -> M S) (s : S) : M S :=
  match l with
  | [] => ret s
  | v :: l' => s' <- body v s ;; for_in l' body s'
  end.

(** Python's [range(n)]: empty when [n <= 0]. *)
Definition range (n : Z) : list Z := map Z.of_nat (seq 0 (Z.to_nat n)).

(** Python's [reversed]. *)
Definition reversed {A} (l : list A) : list A := rev l.

(** Python's list indexing [l[i]], negative indices counting from the
    end, [IndexError] out of range. *)
Definition py_getitem {A} (l : list A) (i : Z) : M A :=
  let n := Z.of_nat (List.length l) in
  let j := if i <? 0 then i + n else i in
  if (0 <=? j) && (j <? n) then
    match nth_error l (Z.to_nat j) with
    | Some a => ret a
    | None => raise IndexError
    end
  else raise IndexError.

(** Python's [dropout > 0] on a number. *)
Definition Qpositive (q : Q) : bool := negb (Qle_bool q 0).

(** Appending a node to the graph yields its output tensor. *)
Definition add_node (l : layer) (ins : list tensor) (s : shape) : M tensor :=
  fun g => let t := mkTensor (List.length g) s in
           (Ok t, g ++ [mkNode l ins t]).

(* ================================================================== *)
(** ** The Keras layers: shape inference

    These definitions follow the shape rules of [keras.layers] and
    [keras.utils.conv_utils] (Keras 2.0, TensorFlow backend), which the
    source imports on lines 3-7. *)
(* ================================================================== *)

Module Keras.

Inductive padding_mode : Type := valid | same.

Definition lower_ascii (c : ascii) : ascii :=
  let n := nat_of_ascii c in
  if ((65 <=? n) && (n <=? 90))%nat then ascii_of_nat (n + 32) else c.

Fixpoint lower (s : string) : string :=
  match s with
  | EmptyString => EmptyString
  | String c s' => String (lower_ascii c) (lower s')
  end.

(** [conv_utils.normalize_padding]: the string is lower-cased and must
    name a padding mode a 2D convolution supports. *)
Definition normalize_padding (p : string) : option padding_mode :=
  let p := lower p in
  if String.eqb p "valid" then Some valid
  else if String.eqb p "same" then Some same
  else None.

(** [conv_utils.conv_output_length]. *)
Definition conv_output_length (input_length filter_size : Z)
    (padding : padding_mode) (stride dilation : Z) : Z :=
  let dilated_filter_size := filter_size + (filter_size - 1) * (dilation - 1) in
  let output_length :=
    match padding with
    | same => input_length
    | valid => input_length - dilated_filter_size + 1
    end in
  (output_length + stride - 1) / stride.

(** [conv_utils.deconv_length]. *)
Definition deconv_length (dim_size stride_size kernel_size : Z)
    (padding : padding_mode) : Z :=
  match padding with
  | valid => dim_size * stride_size + Z.max (kernel_size - stride_size) 0
  | same => dim_size * stride_size
  end.

(** The backend refuses a window larger than the (unpadded) input:
    "Negative dimension size caused by subtracting ...". *)
Definition window_fits (input_length filter_size : Z)
    (padding : padding_mode) (dilation : Z) : bool :=
  match padding with
  | same => true
  | valid => filter_size + (filter_size - 1) * (dilation - 1) <=? input_length
  end.

(** [Input(shape=(height, width, channels))]: a placeholder; a negative
    dimension is refused. *)
Definition Input (s : shape) : M tensor :=
  if (0 <=? height s) && (0 <=? width s) && (0 <=? channels s)
  then add_node (LInput s) [] s
  else raise (ValueError negative_dimension).

(** [Conv2D(filters, kernel_size, padding=..., dilation_rate=...)(x)],
    strides left at (1, 1).  The padding string is checked when the
    layer is created.  Applying the layer creates its kernel, of shape
    (kh, kw, channels, filters), which the backend refuses when
    [filters] is negative, and then infers the output shape, which it
    refuses when the window does not fit: both are [ValueError]s about
    a negative dimension. *)
Definition Conv2D (filters : Z) (kernel_size : Z * Z) (padding : string)
    (dilation_rate : Z) (x : tensor) : M tensor :=
  match normalize_padding padding with
  | None => raise (ValueError invalid_padding)
  | Some p =>
      let s := tshape x in
      let '(kh, kw) := kernel_size in
      if (0 <=? filters)
         && window_fits (height s) kh p dilation_rate
         && window_fits (width s) kw p dilation_rate
      then add_node (LConv2D filters kernel_size padding dilation_rate) [x]
             (mkShape (conv_output_length (height s) kh p 1 dilation_rate)
                      (conv_output_length (width s) kw p 1 dilation_rate)
                      filters)
      else raise (ValueError negative_dimension)
  end.

(** [Conv2DTranspose(filters, kernel_size, strides=...)(x)]: its
    kernel, of shape (kh, kw, filters, channels), is refused likewise
    when [filters] is negative. *)
Definition Conv2DTranspose (filters : Z) (kernel_size strides : Z * Z)
    (padding : string) (x : tensor) : M tensor :=
  match normalize_padding padding with
  | None => raise (ValueError invalid_padding)
  | Some p =>
      let s := tshape x in
      let '(kh, kw) := kernel_size in
      let '(sh, sw) := strides in
      if 0 <=? filters
      then add_node (LConv2DTranspose filters kernel_size strides padding) [x]
             (mkShape (deconv_length (height s) sh kh p)
                      (deconv_length (width s) sw kw p)
                      filters)
      else raise (ValueError negative_dimension)
  end.

(** [MaxPooling2D(pool_size=...)(x)]: strides default to the pool size,
    padding to 'valid'. *)
Definition MaxPooling2D (pool_size : Z * Z) (x : tensor) : M tensor :=
  let s := tshape x in
  let '(ph, pw) := pool_size in
  if window_fits (height s) ph valid 1 && window_fits (width s) pw valid 1
  then add_node (LMaxPooling2D pool_size) [x]
         (mkShape (conv_output_length (height s) ph valid ph 1)
                  (conv_output_length (width s) pw valid pw 1)
                  (channels s))
  else raise (ValueError negative_dimension).

(** [Cropping2D(cropping=((top_crop, bottom_crop), (left_crop,
    right_crop)))(x)]. *)
Definition Cropping2D (cropping : (Z * Z) * (Z * Z)) (x : tensor) : M tensor :=
  let s := tshape x in
  let '((top_crop, bottom_crop), (left_crop, right_crop)) := cropping in
  add_node (LCropping2D cropping) [x]
    (mkShape (height s - top_crop - bottom_crop)
             (width s - left_crop - right_crop)
             (channels s)).

(** [Concatenate()([x, y])], along the channel axis: the other axes
    must agree. *)
Definition Concatenate (x y : tensor) : M tensor :=
  let sx := tshape x in
  let sy := tshape y in
  if (height sx =? height sy) && (width sx =? width sy)
  then add_node LConcatenate [x; y]
         (mkShape (height sx) (width sx) (channels sx + channels sy))
  else raise (ValueError concat_shape_mismatch).

(** Shape-preserving layers. *)
Definition BatchNormalization (x : tensor) : M tensor :=
  add_node LBatchNormalization [x] (tshape x).

Definition Activation (fn : string) (x : tensor) : M tensor :=
  add_node (LActivation fn) [x] (tshape x).

(** [Dropout(rate)]: the rate is clipped to [0, 1] by the layer, never
    refused. *)
Definition Dropout (rate : Q) (x : tensor) : M tensor :=
  add_node (LDropout rate) [x] (tshape x).

(** [Lambda(f)(x)] for an element-wise [f]: applied to the symbolic
    tensor, it adds a node and keeps the shape. *)
Definition Lambda (f : lambda_fn) (x : tensor) : M tensor :=
  add_node (LLambda f) [x] (tshape x).

(** [Model(inputs=..., outputs=...)]. *)
Record Model : Type := mkModel {
  inputs : tensor;
  outputs : tensor
}.

(** [K.int_shape], batch axis elided. *)
Definition int_shape (t : tensor) : shape := tshape t.

End Keras.
Import Keras.

(* ================================================================== *)
(** ** The source functions *)
(* ================================================================== *)

(** [downsampling_block], lines 10-27. *)
Definition downsampling_block (input_tensor : tensor) (filters : Z)
    (padding : string) (batchnorm : bool) (dropout : Q)
    : M (tensor * tensor) :=
  let s := int_shape input_tensor in
  py_assert (height s mod 2 =? 0) height_even ;;;
  py_assert (width s mod 2 =? 0) width_even ;;;

  x <- Conv2D filters (3, 3) padding 1 input_tensor ;;
  x <- (if batchnorm then BatchNormalization x else ret x) ;;
  x <- Activation "relu" x ;;
  x <- (if Qpositive dropout then Dropout dropout x else ret x) ;;

  x <- Conv2D filters (3, 3) padding 2 x ;;
  x <- (if batchnorm then BatchNormalization x else ret x) ;;
  x <- Activation "relu" x ;;
  x <- (if Qpositive dropout then Dropout dropout x else ret x) ;;

  pooled <- MaxPooling2D (2, 2) x ;;
  ret (pooled, x).

(** [upsampling_block], lines 29-59.  Line 31 passes no [padding] to
    [Conv2DTranspose], which then takes its default, 'valid'; the
    convolutions of lines 49 and 54 pass no [dilation_rate], which
    defaults to 1. *)
Definition upsampling_block (input_tensor skip_tensor : tensor) (filters : Z)
    (padding : string) (batchnorm : bool) (dropout : Q) : M tensor :=
  x <- Conv2DTranspose filters (2, 2) (2, 2) "valid" input_tensor ;;

  let sx := int_shape x in
  let ss := int_shape skip_tensor in
  let h_crop := height ss - height sx in
  let w_crop := width ss - width sx in
  py_assert (0 <=? h_crop) h_crop_nonneg ;;;
  py_assert (0 <=? w_crop) w_crop_nonneg ;;;
  y <- (if (h_crop =? 0) && (w_crop =? 0)
        then ret skip_tensor
        else
          let cropping := ((h_crop / 2, h_crop - h_crop / 2),
                           (w_crop / 2, w_crop - w_crop / 2)) in
          Cropping2D cropping skip_tensor) ;;

  x <- Concatenate x y ;;

  x <- Conv2D filters (3, 3) padding 1 x ;;
  x <- (if batchnorm then BatchNormalization x else ret x) ;;
  x <- Activation "relu" x ;;
  x <- (if Qpositive dropout then Dropout dropout x else ret x) ;;

  x <- Conv2D filters (3, 3) padding 1 x ;;
  x <- (if batchnorm then BatchNormalization x else ret x) ;;
  x <- Activation "relu" x ;;
  x <- (if Qpositive dropout then Dropout dropout x else ret x) ;;

  ret x.

(** The encoder loop of [dilated_unet], lines 97-102, over the
    loop-carried variables [(x, skips, features)]. *)
Definition encoder (depth : Z) (padding : string) (batchnorm : bool)
    (dropout : Q) : tensor * list tensor * Z -> M (tensor * list tensor * Z) :=
  for_in (range depth)
    (fun _ '(x, skips, features) =>
       '(x, x0) <- downsampling_block x features padding batchnorm dropout ;;
       ret (x, skips ++ [x0], features * 2)).

(** The bottleneck loop, lines 104-111, over [(x, dilation_rate)];
    [features] is read, never assigned. *)
Definition bottleneck (dilation_layers : Z) (features : Z) (padding : string)
    (batchnorm : bool) (dropout : Q) : tensor * Z -> M (tensor * Z) :=
  for_in (range dilation_layers)
    (fun _ '(x, dilation_rate) =>
       x <- Conv2D features (3, 3) padding dilation_rate x ;;
       x <- (if batchnorm then BatchNormalization x else ret x) ;;
       x <- Activation "relu" x ;;
       x <- (if Qpositive dropout then Dropout dropout x else ret x) ;;
       ret (x, dilation_rate * 2)).

(** The decoder loop, lines 113-116, over [(x, features)];
    [features //= 2] is a floor division. *)
Definition decoder (depth : Z) (skips : list tensor) (padding : string)
    (batchnorm : bool) (dropout : Q) : tensor * Z -> M (tensor * Z) :=
  for_in (reversed (range depth))
    (fun i '(x, features) =>
       let features := features / 2 in
       skip <- py_getitem skips i ;;
       x <- upsampling_block x skip features padding batchnorm dropout ;;
       ret (x, features)).

(** [dilated_unet], lines 62-123.  The convolution of line 118 passes
    neither [padding] nor [dilation_rate]: 'valid' and 1. *)
Definition dilated_unet (height width channels classes features depth : Z)
    (temperature : Q) (padding : string) (batchnorm : bool) (dropout : Q)
    (dilation_layers : Z) : M Model :=
  x <- Input (mkShape height width channels) ;;
  let inputs := x in

  '(x, skips, features) <-
     encoder depth padding batchnorm dropout (x, [], features) ;;

  '(x, _) <-
     bottleneck dilation_layers features padding batchnorm dropout (x, 1) ;;

  '(x, _) <- decoder depth skips padding batchnorm dropout (x, features) ;;

  x <- Conv2D classes (1, 1) "valid" 1 x ;;

  logits <- Lambda (DivideBy temperature) x ;;
  probabilities <- Activation "softmax" logits ;;

  ret (mkModel inputs probabilities).

(* ================================================================== *)
(** ** Observations on a graph *)
(* ================================================================== *)

Definition is_conv (l : layer) : bool :=
  match l with LConv2D _ _ _ _ => true | _ => false end.

(** The convolution layers of a graph, in creation order. *)
Definition conv_layers (g : graph) : list layer :=
  filter is_conv (map nlayer g).

(** The tensors fed to max-pooling nodes, in creation order. *)
Definition pool_inputs (g : graph) : list tensor :=
  flat_map (fun nd => match nlayer nd with
                      | LMaxPooling2D _ => ninputs nd
                      | _ => []
                      end) g.

(** The second operand of every concatenation, in creation order. *)
Definition concat_seconds (g : graph) : list tensor :=
  flat_map (fun nd => match nlayer nd, ninputs nd with
                      | LConcatenate, [_; y] => [y]
                      | _, _ => []
                      end) g.

(** The filter counts of the transposed convolutions, in creation order. *)
Definition transpose_filters (g : graph) : list Z :=
  flat_map (fun nd => match nlayer nd with
                      | LConv2DTranspose f _ _ _ => [f]
                      | _ => []
                      end) g.

(** [y] is the skip tensor [s] itself, or [s] cropped by a node of [g]. *)
Definition consumes (g : graph) (y s : tensor) : Prop :=
  y = s \/ exists c, In (mkNode (LCropping2D c) [s] y) g.

(** Height and width of a tensor. *)
Definition spatial (t : tensor) : Z * Z :=
  (height (tshape t), width (tshape t)).

(** The three statements that follow every 3x3 convolution of the source
    (lines 18-20, 23-25, 50-52, 55-57 and 108-110). *)
Definition post (batchnorm : bool) (dropout : Q) (x : tensor) : M tensor :=
  x <- (if batchnorm then BatchNormalization x else ret x) ;;
  x <- Activation "relu" x ;;
  x <- (if Qpositive dropout then Dropout dropout x else ret x) ;;
  ret x.

(** Layers that keep the shape and are none of the observed kinds. *)
Definition is_pointwise (l : layer) : bool :=
  match l with
  | LBatchNormalization | LActivation _ | LDropout _ | LLambda _ => true
  | _ => false
  end.

(** The loops run over [0, 1, ..., n-1]; by induction it is convenient
    to let them start anywhere. *)
Definition range_from (k n : nat) : list Z := map Z.of_nat (seq k n).


(** What a run of pointwise layers contributes to the observations. *)
Record quiet (nodes : list node) : Prop := mkQuiet {
  quiet_conv : conv_layers nodes = [];
  quiet_pool : pool_inputs nodes = [];
  quiet_concat : concat_seconds nodes = [];
  quiet_transpose : transpose_filters nodes = []
}.


(** Size left by the two 3x3 convolutions of a block, which together
    remove [k] rows and columns under 'valid' padding and none under
    'same'. *)
Definition shrink (pm : padding_mode) (k : Z) (n : Z) : Z :=
  match pm with same => n | valid => n - k end.


(** A 3x3 window of dilation [d] fits an axis of length [n]: always
    under 'same' padding, and when one output position is left under
    'valid' padding. *)
Definition fits3 (pm : padding_mode) (d n : Z) : Prop :=
  match pm with same => True | valid => 1 <= n - 2 * d end.


(** An axis of length [n] has [k] rows or columns when that matters:
    under 'valid' padding. *)
Definition room (pm : padding_mode) (k n : Z) : Prop :=
  match pm with same => True | valid => k <= n end.

(** The two convolutions that end [upsampling_block], lines 48-59. *)
Definition upsampling_convs (x : tensor) (filters : Z) (padding : string)
    (batchnorm : bool) (dropout : Q) : M tensor :=
  x <- Conv2D filters (3, 3) padding 1 x ;;
  x <- (if batchnorm then BatchNormalization x else ret x) ;;
  x <- Activation "relu" x ;;
  x <- (if Qpositive dropout then Dropout dropout x else ret x) ;;

  x <- Conv2D filters (3, 3) padding 1 x ;;
  x <- (if batchnorm then BatchNormalization x else ret x) ;;
  x <- Activation "relu" x ;;
  x <- (if Qpositive dropout then Dropout dropout x else ret x) ;;

  ret x.

(** The tensor the transposed convolution of [upsampling_block] returns
    on graph [g]. *)
Definition upsampled (g : graph) (x : tensor) (filters : Z) : tensor :=
  mkTensor (List.length g)
    (mkShape (2 * height (tshape x)) (2 * width (tshape x)) filters).

(** The node of that transposed convolution. *)
Definition upsampling_node (g : graph) (x : tensor) (filters : Z) : node :=
  mkNode (LConv2DTranspose filters (2, 2) (2, 2) "valid") [x]
         (upsampled g x filters).

(** The crop amounts of lines 36-37. *)
Definition h_crop (x skip : tensor) : Z :=
  height (tshape skip) - 2 * height (tshape x).

Definition w_crop (x skip : tensor) : Z :=
  width (tshape skip) - 2 * width (tshape x).

(** The [cropping] argument of line 43. *)
Definition center_cropping (hc wc : Z) : (Z * Z) * (Z * Z) :=
  ((hc / 2, hc - hc / 2), (wc / 2, wc - wc / 2)).

(** The tensor fed to the concatenation next to the upsampled one, and
    the nodes built to obtain it (lines 40-44). *)
Definition skip_operand (g : graph) (x skip : tensor) : tensor :=
  if (h_crop x skip =? 0) && (w_crop x skip =? 0) then skip
  else mkTensor (List.length g)
         (mkShape (2 * height (tshape x)) (2 * width (tshape x))
                  (channels (tshape skip))).

Definition skip_nodes (g : graph) (x skip : tensor) : list node :=
  if (h_crop x skip =? 0) && (w_crop x skip =? 0) then []
  else [mkNode (LCropping2D (center_cropping (h_crop x skip) (w_crop x skip)))
               [skip] (skip_operand g x skip)].

(** The concatenation node of line 46 and its output. *)
Definition concat_output (g : graph) (u y : tensor) : tensor :=
  mkTensor (List.length g)
    (mkShape (height (tshape u)) (width (tshape u))
             (channels (tshape u) + channels (tshape y))).

Definition concat_node (g : graph) (u y : tensor) : node :=
  mkNode LConcatenate [u; y] (concat_output g u y).

(** The encoder seen from its results: starting from [x] with feature
    count [f], the stages return the skip tensors [new], the pooled
    tensor [x'] and the feature count [f']; each stage has checked that
    its input is even and that its windows fit. *)
Inductive enc_chain (p : string) :
    Z -> tensor -> list tensor -> tensor -> Z -> Prop :=
| enc_nil f x : enc_chain p f x [] x f
| enc_cons f x sk pl rest x' f' pm :
    normalize_padding p = Some pm ->
    height (tshape x) mod 2 = 0 ->
    width (tshape x) mod 2 = 0 ->
    tshape sk = mkShape (shrink pm 6 (height (tshape x)))
                        (shrink pm 6 (width (tshape x))) f ->
    2 <= height (tshape sk) ->
    2 <= width (tshape sk) ->
    tshape pl = mkShape (height (tshape sk) / 2) (width (tshape sk) / 2) f ->
    enc_chain p (f * 2) pl rest x' f' ->
    enc_chain p f x (sk :: rest) x' f'.

(** The loop bodies of [encoder], [bottleneck] and [decoder]. *)
Definition encoder_body (padding : string) (batchnorm : bool) (dropout : Q)
    (i : Z) (s : tensor * list tensor * Z) : M (tensor * list tensor * Z) :=
  let '(x, skips, features) := s in
  '(x, x0) <- downsampling_block x features padding batchnorm dropout ;;
  ret (x, skips ++ [x0], features * 2).

Definition bottleneck_body (features : Z) (padding : string)
    (batchnorm : bool) (dropout : Q) (n : Z) (s : tensor * Z)
    : M (tensor * Z) :=
  let '(x, dilation_rate) := s in
  x <- Conv2D features (3, 3) padding dilation_rate x ;;
  x <- (if batchnorm then BatchNormalization x else ret x) ;;
  x <- Activation "relu" x ;;
  x <- (if Qpositive dropout then Dropout dropout x else ret x) ;;
  ret (x, dilation_rate * 2).

Definition decoder_body (skips : list tensor) (padding : string)
    (batchnorm : bool) (dropout : Q) (i : Z) (s : tensor * Z)
    : M (tensor * Z) :=
  let '(x, features) := s in
  let features := features / 2 in
  skip <- py_getitem skips i ;;
  x <- upsampling_block x skip features padding batchnorm dropout ;;
  ret (x, features).

(** The output head of [dilated_unet], lines 118-123. *)
Definition head (inputs x : tensor) (classes : Z) (temperature : Q)
    : M Model :=
  x <- Conv2D classes (1, 1) "valid" 1 x ;;

  logits <- Lambda (DivideBy temperature) x ;;
  probabilities <- Activation "softmax" logits ;;

  ret (mkModel inputs probabilities).

(** The node of the placeholder that [Input] adds to the empty graph. *)
Definition input_tensor (s : shape) : tensor := mkTensor 0 s.

Definition input_node (s : shape) : node :=
  mkNode (LInput s) [] (input_tensor s).

(** Two tensors of the same shape, two computations that end alike:
    both return, with related values, or both raise the same
    exception; and what a caller sees of a build: the shapes of the
    model's input and output, or the exception. *)
Definition same_shape (a b : tensor) : Prop := tshape a = tshape b.

Definition sim {A B} (R : A -> B -> Prop) (m1 : M A) (m2 : M B) : Prop :=
  forall g1 g2,
    match fst (m1 g1), fst (m2 g2) with
    | Ok a, Ok b => R a b
    | Raise e1, Raise e2 => e1 = e2
    | _, _ => False
    end.

Definition outcome (r : result Model) : result (shape * shape) :=
  match r with
  | Ok m => Ok (tshape (inputs m), tshape (outputs m))
  | Raise e => Raise e
  end.

(** The convolutions of an encoder stage and of a decoder stage with
    [f] filters, and those of the whole network as the docstring of
    [dilated_unet] describes it: [depth] encoder stages whose second
    convolution is dilated by 2, with [features * 2^i] filters at stage
    [i]; [dilation_layers] convolutions of [features * 2^depth] filters
    with dilation rates 1, 2, 4, ...; the decoder stages in reverse,
    without dilation; and the 1x1 convolution to [classes] channels. *)
Definition encoder_stage_convs (p : string) (f : Z) : list layer :=
  [LConv2D f (3, 3) p 1; LConv2D f (3, 3) p 2].

Definition decoder_stage_convs (p : string) (f : Z) : list layer :=
  [LConv2D f (3, 3) p 1; LConv2D f (3, 3) p 1].

Definition unet_convolutions (features depth dilation_layers : Z)
    (p : string) (classes : Z) : list layer :=
  flat_map (fun i => encoder_stage_convs p (features * 2 ^ i)) (range depth)
  ++ map (fun j => LConv2D (features * 2 ^ Z.max 0 depth) (3, 3) p (2 ^ j))
         (range dilation_layers)
  ++ flat_map (fun i => decoder_stage_convs p (features * 2 ^ i))
              (rev (range depth))
  ++ [LConv2D classes (1, 1) "valid" 1].

(** A computation adds only nodes that satisfy [Q], whether it returns
    or raises. *)
Definition adds_only (Q : node -> Prop) {A} (m : M A) : Prop :=
  forall g, exists nodes, snd (m g) = g ++ nodes /\ Forall Q nodes.

(** A node respects the flags [batchnorm] and [dropout]: a batch
    normalization only when [batchnorm] is set, a dropout only when
    [dropout > 0] and then with that rate. *)
Definition respects_flags (batchnorm : bool) (dropout : Q) (nd : node)
    : Prop :=
  match nlayer nd with
  | LBatchNormalization => batchnorm = true
  | LDropout rate => Qpositive dropout = true /\ rate = dropout
  | _ => True
  end.

(** A cropping node removes as much at the top as at the bottom and as
    much at the left as at the right, and nothing negative. *)
Definition crops_evenly (nd : node) : Prop :=
  match nlayer nd with
  | LCropping2D ((top_crop, bottom_crop), (left_crop, right_crop)) =>
      top_crop = bottom_crop /\ left_crop = right_crop /\
      0 <= top_crop /\ 0 <= left_crop
  | _ => True
  end.

(** A tensor with even height and width. *)
Definition even_sized (t : tensor) : Prop :=
  height (tshape t) mod 2 = 0 /\ width (tshape t) mod 2 = 0.

(** What the two convolutions of an encoder stage remove from an axis
    before pooling, and what those of a decoder stage remove after
    upsampling. *)
Definition encoder_loss (pm : padding_mode) : Z :=
  match pm with same => 0 | valid => 6 end.

Definition decoder_loss (pm : padding_mode) : Z :=
  match pm with same => 0 | valid => 4 end.

(** What a bottleneck of [k] convolutions starting at dilation rate [d]
    removes from an axis. *)
Definition bottleneck_loss (pm : padding_mode) (d : Z) (k : nat) : Z :=
  match pm with same => 0 | valid => 2 * d * (2 ^ Z.of_nat k - 1) end.

(** The graph is append-only: a computation only adds nodes to it,
    whether it returns or raises. *)
Definition grows {A} (m : M A) : Prop :=
  forall g, exists nodes, snd (m g) = g ++ nodes.

(* ================================================================== *)
(** ** The monad and the loops *)
(* ================================================================== *)

Lemma bind_ok {A B} (m : M A) (k : A -> M B) g a g1 :
  m g = (Ok a, g1) -> bind m k g = k a g1.
Proof. intros H. unfold bind. rewrite H. reflexivity. Qed.

Lemma bind_raise {A B} (m : M A) (k : A -> M B) g e g1 :
  m g = (Raise e, g1) -> bind m k g = (Raise e, g1).
Proof. intros H. unfold bind. rewrite H. reflexivity. Qed.

Lemma bind_ok_inv {A B} (m : M A) (k : A -> M B) g b g' :
  bind m k g = (Ok b, g') ->
  exists a g1, m g = (Ok a, g1) /\ k a g1 = (Ok b, g').
Proof.
  unfold bind. destruct (m g) as [[a|e] g1]; intros H.
  - now exists a, g1.
  - discriminate.
Qed.

Lemma for_in_app {A S} (l1 l2 : list A) (body : A -> S -> M S) s g :
  for_in (l1 ++ l2) body s g = bind (for_in l1 body s) (for_in l2 body) g.
Proof.
  revert s g. induction l1 as [|v l1 IH]; intros s g; simpl.
  - reflexivity.
  - unfold bind in *. destruct (body v s g) as [[s'|e] g1].
    + apply IH.
    + reflexivity.
Qed.

Lemma for_in_cons {A S} v (l : list A) (body : A -> S -> M S) s g :
  for_in (v :: l) body s g = bind (body v s) (for_in l body) g.
Proof. reflexivity. Qed.

Lemma range_nonpos n : n <= 0 -> range n = [].
Proof.
  intros H. unfold range.
  replace (Z.to_nat n) with 0%nat by lia. reflexivity.
Qed.

Lemma range_from_S k n :
  range_from k (S n) = Z.of_nat k :: range_from (S k) n.
Proof. reflexivity. Qed.

(* ================================================================== *)
(** ** Observations distribute over appended nodes *)
(* ================================================================== *)

Lemma conv_layers_app g1 g2 :
  conv_layers (g1 ++ g2) = conv_layers g1 ++ conv_layers g2.
Proof. unfold conv_layers. now rewrite map_app, filter_app. Qed.

Lemma pool_inputs_app g1 g2 :
  pool_inputs (g1 ++ g2) = pool_inputs g1 ++ pool_inputs g2.
Proof. unfold pool_inputs. now rewrite flat_map_app. Qed.

Lemma concat_seconds_app g1 g2 :
  concat_seconds (g1 ++ g2) = concat_seconds g1 ++ concat_seconds g2.
Proof. unfold concat_seconds. now rewrite flat_map_app. Qed.

Lemma transpose_filters_app g1 g2 :
  transpose_filters (g1 ++ g2) = transpose_filters g1 ++ transpose_filters g2.
Proof. unfold transpose_filters. now rewrite flat_map_app. Qed.

Lemma consumes_app g1 g2 y s : consumes g1 y s -> consumes (g1 ++ g2) y s.
Proof.
  intros [H | [c H]]; [now left | right].
  exists c. apply in_or_app. now left.
Qed.

Lemma consumes_app_r g1 g2 y s : consumes g2 y s -> consumes (g1 ++ g2) y s.
Proof.
  intros [H | [c H]]; [now left | right].
  exists c. apply in_or_app. now right.
Qed.

Lemma pointwise_quiet nodes :
  forallb (fun nd => is_pointwise (nlayer nd)) nodes = true -> quiet nodes.
Proof.
  induction nodes as [|nd nodes IH]; simpl; intros H.
  - split; reflexivity.
  - apply andb_prop in H as [Hnd H]. destruct (IH H) as [H1 H2 H3 H4].
    destruct nd as [l ins out]; simpl in Hnd.
    split; unfold conv_layers, pool_inputs, concat_seconds, transpose_filters
      in *; simpl; destruct l; try discriminate; simpl; auto.
Qed.

(** The post-convolution statements never fail, keep the shape, and add
    only pointwise layers. *)
Lemma post_run bn dr x g :
  exists x' nodes,
    post bn dr x g = (Ok x', g ++ nodes) /\
    tshape x' = tshape x /\
    forallb (fun nd => is_pointwise (nlayer nd)) nodes = true.
Proof.
  unfold post, bind, BatchNormalization, Activation, Dropout, add_node, ret.
  destruct bn, (Qpositive dr); simpl; rewrite <- ?app_assoc; simpl;
    do 2 eexists; (split; [reflexivity | split; reflexivity]).
Qed.

Lemma bind_post {B} (bn : bool) (dr : Q) x (k : tensor -> M B) g :
  (x1 <- (if bn then BatchNormalization x else ret x) ;;
   x2 <- Activation "relu" x1 ;;
   x3 <- (if Qpositive dr then Dropout dr x2 else ret x2) ;;
   k x3) g
  = bind (post bn dr x) k g.
Proof.
  unfold post, bind, BatchNormalization, Activation, Dropout, add_node, ret.
  destruct bn, (Qpositive dr); reflexivity.
Qed.

(* ================================================================== *)
(** ** The layers, step by step *)
(* ================================================================== *)

Lemma conv3_length n pm d :
  conv_output_length n 3 pm 1 d = shrink pm (2 * d) n.
Proof.
  unfold conv_output_length, shrink. rewrite Z.div_1_r. destruct pm; lia.
Qed.

Lemma conv1_length n : conv_output_length n 1 valid 1 1 = n.
Proof. unfold conv_output_length. rewrite Z.div_1_r. lia. Qed.

Lemma pool2_length n : conv_output_length n 2 valid 2 1 = n / 2.
Proof.
  unfold conv_output_length.
  replace (n - (2 + (2 - 1) * (1 - 1)) + 1 + 2 - 1) with n by lia.
  reflexivity.
Qed.

Lemma window3_fits n pm d :
  window_fits n 3 pm d = true <-> fits3 pm d n.
Proof.
  unfold window_fits, fits3. destruct pm.
  - rewrite Z.leb_le. lia.
  - tauto.
Qed.

Lemma window2_fits n : window_fits n 2 valid 1 = true <-> 2 <= n.
Proof. unfold window_fits. rewrite Z.leb_le. lia. Qed.

Lemma assert_ok_inv {B} c a (k : unit -> M B) g b g' :
  bind (py_assert c a) k g = (Ok b, g') -> c = true /\ k tt g = (Ok b, g').
Proof. destruct c; simpl; intros H; [now split | discriminate]. Qed.

Lemma assert_true {B} c a (k : unit -> M B) g :
  c = true -> bind (py_assert c a) k g = k tt g.
Proof. intros ->. reflexivity. Qed.

Lemma assert_false {B} c a (k : unit -> M B) g :
  c = false -> bind (py_assert c a) k g = (Raise (AssertionError a), g).
Proof. intros ->. reflexivity. Qed.

(** A 3x3 convolution that succeeds. *)
Lemma Conv2D3_ok_inv {B} f p d x (k : tensor -> M B) g b g' :
  bind (Conv2D f (3, 3) p d x) k g = (Ok b, g') ->
  exists pm t,
    normalize_padding p = Some pm /\
    fits3 pm d (height (tshape x)) /\
    fits3 pm d (width (tshape x)) /\
    tshape t = mkShape (shrink pm (2 * d) (height (tshape x)))
                       (shrink pm (2 * d) (width (tshape x))) f /\
    k t (g ++ [mkNode (LConv2D f (3, 3) p d) [x] t]) = (Ok b, g').
Proof.
  unfold bind, Conv2D. destruct (normalize_padding p) as [pm|];
    [| discriminate].
  destruct (0 <=? f); [| discriminate].
  destruct (window_fits (height (tshape x)) 3 pm d) eqn:Eh;
    [| discriminate].
  destruct (window_fits (width (tshape x)) 3 pm d) eqn:Ew;
    [| discriminate].
  simpl. intros H. apply window3_fits in Eh, Ew.
  eexists pm, _. repeat split; try eassumption.
  simpl. now rewrite !conv3_length.
Qed.

(** A convolution that succeeds has a filter count that is not
    negative. *)
Lemma Conv2D_ok_filters {B} f ks p d x (k : tensor -> M B) g b g' :
  bind (Conv2D f ks p d x) k g = (Ok b, g') -> 0 <= f.
Proof.
  unfold bind, Conv2D. destruct (normalize_padding p) as [pm|];
    [| discriminate].
  destruct ks as [kh kw]. destruct (0 <=? f) eqn:Ef; [| discriminate].
  intros _. now apply Z.leb_le.
Qed.

Lemma Conv2D3_ok {B} f p pm d x (k : tensor -> M B) g :
  normalize_padding p = Some pm ->
  0 <= f ->
  fits3 pm d (height (tshape x)) ->
  fits3 pm d (width (tshape x)) ->
  exists t,
    tshape t = mkShape (shrink pm (2 * d) (height (tshape x)))
                       (shrink pm (2 * d) (width (tshape x))) f /\
    bind (Conv2D f (3, 3) p d x) k g
    = k t (g ++ [mkNode (LConv2D f (3, 3) p d) [x] t]).
Proof.
  intros Hp Hf Hh Hw. apply window3_fits in Hh, Hw. apply Z.leb_le in Hf.
  unfold bind, Conv2D. rewrite Hp, Hf, Hh, Hw. simpl.
  eexists. split; [| reflexivity]. simpl. now rewrite !conv3_length.
Qed.

(** A 3x3 convolution with a negative filter count, or whose window
    does not fit. *)
Lemma Conv2D3_too_small {B} f p pm d x (k : tensor -> M B) g :
  normalize_padding p = Some pm ->
  ~ (0 <= f /\
     fits3 pm d (height (tshape x)) /\ fits3 pm d (width (tshape x))) ->
  bind (Conv2D f (3, 3) p d x) k g
  = (Raise (ValueError negative_dimension), g).
Proof.
  intros Hp Hn. unfold bind, Conv2D. rewrite Hp.
  destruct (0 <=? f) eqn:Ef; [| reflexivity].
  destruct (window_fits (height (tshape x)) 3 pm d) eqn:Eh;
    [destruct (window_fits (width (tshape x)) 3 pm d) eqn:Ew |];
    try reflexivity.
  exfalso. apply Hn. apply Z.leb_le in Ef.
  split; [exact Ef |]. split; now apply window3_fits.
Qed.

Lemma Conv2D_negative_filters {B} f ks p pm d x (k : tensor -> M B) g :
  normalize_padding p = Some pm ->
  f < 0 ->
  bind (Conv2D f ks p d x) k g = (Raise (ValueError negative_dimension), g).
Proof.
  intros Hp Hf. unfold bind, Conv2D. rewrite Hp. destruct ks as [kh kw].
  now rewrite (proj2 (Z.leb_gt _ _) Hf).
Qed.

Lemma Conv2D_bad_padding {B} f ks p d x (k : tensor -> M B) g :
  normalize_padding p = None ->
  bind (Conv2D f ks p d x) k g = (Raise (ValueError invalid_padding), g).
Proof. intros Hp. unfold bind, Conv2D. now rewrite Hp. Qed.

Lemma post_bind {B} bn dr x (k : tensor -> M B) g :
  exists x' nodes,
    tshape x' = tshape x /\ quiet nodes /\
    bind (post bn dr x) k g = k x' (g ++ nodes).
Proof.
  destruct (post_run bn dr x g) as (x' & nodes & E & Hs & Hq).
  exists x', nodes.
  split; [exact Hs | split; [now apply pointwise_quiet | now apply bind_ok]].
Qed.

Lemma MaxPooling2D_ok_inv {B} x (k : tensor -> M B) g b g' :
  bind (MaxPooling2D (2, 2) x) k g = (Ok b, g') ->
  exists t,
    2 <= height (tshape x) /\ 2 <= width (tshape x) /\
    tshape t = mkShape (height (tshape x) / 2) (width (tshape x) / 2)
                       (channels (tshape x)) /\
    k t (g ++ [mkNode (LMaxPooling2D (2, 2)) [x] t]) = (Ok b, g').
Proof.
  unfold bind, MaxPooling2D.
  destruct (window_fits (height (tshape x)) 2 valid 1) eqn:Eh;
    [| discriminate].
  destruct (window_fits (width (tshape x)) 2 valid 1) eqn:Ew;
    [| discriminate].
  simpl. intros H. apply window2_fits in Eh, Ew.
  eexists. repeat split; try eassumption.
  simpl. now rewrite !pool2_length.
Qed.

Lemma MaxPooling2D_ok {B} x (k : tensor -> M B) g :
  2 <= height (tshape x) -> 2 <= width (tshape x) ->
  exists t,
    tshape t = mkShape (height (tshape x) / 2) (width (tshape x) / 2)
                       (channels (tshape x)) /\
    bind (MaxPooling2D (2, 2) x) k g
    = k t (g ++ [mkNode (LMaxPooling2D (2, 2)) [x] t]).
Proof.
  intros Hh Hw. apply window2_fits in Hh, Hw.
  unfold bind, MaxPooling2D. rewrite Hh, Hw. simpl.
  eexists. split; [| reflexivity]. simpl. now rewrite !pool2_length.
Qed.

(** In a hypothesis: run the three post-convolution statements. *)
Ltac step_post H x' nodes Hs Hq :=
  rewrite bind_post in H;
  match type of H with
  | bind (post ?bn ?dr ?x) ?k ?g0 = _ =>
      let E := fresh "E" in
      destruct (post_bind bn dr x k g0) as (x' & nodes & Hs & Hq & E);
      rewrite E in H; clear E
  end.

(** In the goal: the same. *)
Ltac run_post x' nodes Hs Hq :=
  rewrite bind_post;
  match goal with
  | |- context [bind (post ?bn ?dr ?x) ?k ?g0] =>
      let E := fresh "E" in
      destruct (post_bind bn dr x k g0) as (x' & nodes & Hs & Hq & E);
      rewrite E; clear E
  end.

(** A filter count that is not negative, from the context. *)
Ltac nonneg_filters :=
  first
    [ assumption
    | lia
    | apply Z.mul_nonneg_nonneg; [assumption | apply Z.pow_nonneg; lia]
    | apply Z.div_pos; [first [assumption | lia] | lia] ].

(** In the goal: run a 3x3 convolution under padding mode [pm], with a
    filter count the context shows not to be negative; the two side
    goals ask that its window fits. *)
Ltac run_conv3 pm t Ht :=
  match goal with
  | |- context [bind (Conv2D ?f (3, 3) ?p ?d ?x) ?k ?g] =>
      let E := fresh "E" in
      let Hf := fresh "Hfilters" in
      let Hh := fresh "Hfit" in
      let Hw := fresh "Hfit" in
      assert (Hf : 0 <= f) by nonneg_filters;
      assert (Hh : fits3 pm d (height (tshape x)));
      [ | assert (Hw : fits3 pm d (width (tshape x)));
          [ | destruct (Conv2D3_ok f p pm d x k g ltac:(eassumption) Hf Hh Hw)
                as (t & Ht & E);
              rewrite E; clear E Hf Hh Hw ] ]
  end.

(** In the goal: run a 2x2 max-pooling; the two side goals ask that
    the input has at least two rows and columns. *)
Ltac run_pool t Ht :=
  match goal with
  | |- context [bind (MaxPooling2D (2, 2) ?x) ?k ?g] =>
      let E := fresh "E" in
      let Hh := fresh "Hfit" in
      let Hw := fresh "Hfit" in
      assert (Hh : 2 <= height (tshape x));
      [ | assert (Hw : 2 <= width (tshape x));
          [ | destruct (MaxPooling2D_ok x k g Hh Hw) as (t & Ht & E);
              rewrite E; clear E Hh Hw ] ]
  end.

(* ================================================================== *)
(** ** [downsampling_block] *)
(* ================================================================== *)

(** What a successful call of [downsampling_block] has checked, returned
    and built. *)
Lemma downsampling_block_ok_inv x f p bn dr g pl sk g' :
  downsampling_block x f p bn dr g = (Ok (pl, sk), g') ->
  exists pm nodes,
    normalize_padding p = Some pm /\
    height (tshape x) mod 2 = 0 /\ width (tshape x) mod 2 = 0 /\
    tshape sk = mkShape (shrink pm 6 (height (tshape x)))
                        (shrink pm 6 (width (tshape x))) f /\
    2 <= height (tshape sk) /\ 2 <= width (tshape sk) /\
    tshape pl = mkShape (height (tshape sk) / 2) (width (tshape sk) / 2) f /\
    g' = g ++ nodes /\
    conv_layers nodes = [LConv2D f (3, 3) p 1; LConv2D f (3, 3) p 2] /\
    pool_inputs nodes = [sk] /\
    concat_seconds nodes = [] /\
    transpose_filters nodes = [].
Proof.
  unfold downsampling_block, int_shape. intros H.
  apply assert_ok_inv in H as [Eh H]. apply assert_ok_inv in H as [Ew H].
  apply Z.eqb_eq in Eh, Ew.
  apply Conv2D3_ok_inv in H as (pm & c1 & Hp & _ & _ & Hc1 & H).
  step_post H a1 n1 Ha1 Hq1.
  apply Conv2D3_ok_inv in H as (pm' & c2 & Hp' & _ & _ & Hc2 & H).
  rewrite Hp in Hp'. injection Hp' as <-.
  step_post H a2 n2 Ha2 Hq2.
  apply MaxPooling2D_ok_inv in H as (pt & Hh2 & Hw2 & Hpt & H).
  unfold ret in H. injection H as <- <- <-.
  destruct Hq1, Hq2.
  assert (Hsk : tshape a2 = mkShape (shrink pm 6 (height (tshape x)))
                                    (shrink pm 6 (width (tshape x))) f).
  { rewrite Ha2, Hc2, Ha1, Hc1. simpl. unfold shrink. destruct pm; f_equal; lia. }
  exists pm. eexists.
  split; [exact Hp |]. split; [exact Eh |]. split; [exact Ew |].
  split; [exact Hsk |]. split; [exact Hh2 |]. split; [exact Hw2 |].
  split; [rewrite Hpt; now rewrite Hsk |].
  split; [rewrite <- !app_assoc; reflexivity |].
  repeat split.
  - rewrite !conv_layers_app. rewrite quiet_conv0, quiet_conv1. reflexivity.
  - rewrite !pool_inputs_app. rewrite quiet_pool0, quiet_pool1. reflexivity.
  - rewrite !concat_seconds_app. rewrite quiet_concat0, quiet_concat1.
    reflexivity.
  - rewrite !transpose_filters_app.
    rewrite quiet_transpose0, quiet_transpose1. reflexivity.
Qed.

Lemma downsampling_block_ok_filters x f p bn dr g r g' :
  downsampling_block x f p bn dr g = (Ok r, g') -> 0 <= f.
Proof.
  unfold downsampling_block, int_shape. intros H.
  apply assert_ok_inv in H as [_ H]. apply assert_ok_inv in H as [_ H].
  now apply Conv2D_ok_filters in H.
Qed.

Lemma mod2_eqb_false n : n mod 2 <> 0 -> (n mod 2 =? 0) = false.
Proof. intros H. now apply Z.eqb_neq. Qed.

Lemma mod2_eqb_true n : n mod 2 = 0 -> (n mod 2 =? 0) = true.
Proof. intros H. now apply Z.eqb_eq. Qed.

(** The first [assert] fails on an odd height: nothing is built. *)
Lemma downsampling_block_odd_height x f p bn dr g :
  height (tshape x) mod 2 <> 0 ->
  downsampling_block x f p bn dr g = (Raise (AssertionError height_even), g).
Proof.
  intros H. unfold downsampling_block, int_shape.
  now rewrite assert_false by now apply mod2_eqb_false.
Qed.

(** The second [assert] fails on an odd width: nothing is built. *)
Lemma downsampling_block_odd_width x f p bn dr g :
  height (tshape x) mod 2 = 0 ->
  width (tshape x) mod 2 <> 0 ->
  downsampling_block x f p bn dr g = (Raise (AssertionError width_even), g).
Proof.
  intros Hh Hw. unfold downsampling_block, int_shape.
  rewrite assert_true by now apply mod2_eqb_true.
  now rewrite assert_false by now apply mod2_eqb_false.
Qed.

(** With even sizes, an unrecognized padding mode is refused by the
    first convolution: nothing is built. *)
Lemma downsampling_block_bad_padding x f p bn dr g :
  height (tshape x) mod 2 = 0 ->
  width (tshape x) mod 2 = 0 ->
  normalize_padding p = None ->
  downsampling_block x f p bn dr g = (Raise (ValueError invalid_padding), g).
Proof.
  intros Hh Hw Hp. unfold downsampling_block, int_shape.
  rewrite !assert_true by now apply mod2_eqb_true.
  now apply Conv2D_bad_padding.
Qed.

(** With even sizes and a padding mode Keras knows, a negative filter
    count is refused by the first convolution: nothing is built. *)
Lemma downsampling_block_negative_filters x f p pm bn dr g :
  height (tshape x) mod 2 = 0 ->
  width (tshape x) mod 2 = 0 ->
  normalize_padding p = Some pm ->
  f < 0 ->
  downsampling_block x f p bn dr g
  = (Raise (ValueError negative_dimension), g).
Proof.
  intros Hh Hw Hp Hf. unfold downsampling_block, int_shape.
  rewrite !assert_true by now apply mod2_eqb_true.
  now apply Conv2D_negative_filters with (pm := pm).
Qed.

(** With a filter count that is not negative and even sizes large
    enough for the two convolutions and the pooling, the block
    succeeds. *)
Lemma downsampling_block_run x f p pm bn dr g :
  normalize_padding p = Some pm ->
  0 <= f ->
  height (tshape x) mod 2 = 0 ->
  width (tshape x) mod 2 = 0 ->
  2 <= shrink pm 6 (height (tshape x)) ->
  2 <= shrink pm 6 (width (tshape x)) ->
  exists pl sk g', downsampling_block x f p bn dr g = (Ok (pl, sk), g').
Proof.
  intros Hp Hf Eh Ew Hh Hw. unfold downsampling_block, int_shape.
  rewrite !assert_true by now apply mod2_eqb_true.
  run_conv3 pm c1 Hc1;
    [unfold fits3, shrink in *; destruct pm; lia .. |].
  run_post a1 n1 Ha1 Hq1.
  run_conv3 pm c2 Hc2;
    [rewrite Ha1, Hc1; simpl; unfold fits3, shrink in *; destruct pm; lia .. |].
  run_post a2 n2 Ha2 Hq2.
  run_pool pt Hpt;
    [rewrite Ha2, Hc2, Ha1, Hc1; simpl; unfold shrink in *; destruct pm; lia
      .. |].
  unfold ret. now eexists _, _, _.
Qed.

(* ================================================================== *)
(** ** The graph only grows *)
(* ================================================================== *)

Lemma grows_ret {A} (a : A) : grows (ret a).
Proof. intros g. exists []. simpl. now rewrite app_nil_r. Qed.

Lemma grows_raise {A} e : grows (@raise A e).
Proof. intros g. exists []. simpl. now rewrite app_nil_r. Qed.

Lemma grows_bind {A B} (m : M A) (k : A -> M B) :
  grows m -> (forall a, grows (k a)) -> grows (bind m k).
Proof.
  intros Hm Hk g. unfold bind. destruct (Hm g) as [n1 E1].
  destruct (m g) as [[a|e] g1]; simpl in E1; subst g1.
  - destruct (Hk a (g ++ n1)) as [n2 E2]. exists (n1 ++ n2).
    now rewrite E2, app_assoc.
  - now exists n1.
Qed.

Lemma grows_add_node l ins s : grows (add_node l ins s).
Proof. intros g. now eexists. Qed.

Lemma grows_if {A} (c : bool) (m1 m2 : M A) :
  grows m1 -> grows m2 -> grows (if c then m1 else m2).
Proof. now destruct c. Qed.

Lemma grows_assert c a : grows (py_assert c a).
Proof. apply grows_if; [apply grows_ret | apply grows_raise]. Qed.

Lemma grows_Conv2D f ks p d x : grows (Conv2D f ks p d x).
Proof.
  unfold Conv2D. destruct (normalize_padding p); [| apply grows_raise].
  destruct ks. apply grows_if; [apply grows_add_node | apply grows_raise].
Qed.

Lemma grows_Conv2DTranspose f ks st p x : grows (Conv2DTranspose f ks st p x).
Proof.
  unfold Conv2DTranspose. destruct (normalize_padding p); [| apply grows_raise].
  destruct ks, st. apply grows_if; [apply grows_add_node | apply grows_raise].
Qed.

Lemma grows_MaxPooling2D ps x : grows (MaxPooling2D ps x).
Proof.
  unfold MaxPooling2D. destruct ps.
  apply grows_if; [apply grows_add_node | apply grows_raise].
Qed.

Lemma grows_Cropping2D c x : grows (Cropping2D c x).
Proof. unfold Cropping2D. destruct c as [[? ?] [? ?]]. apply grows_add_node. Qed.

Lemma grows_Concatenate x y : grows (Concatenate x y).
Proof.
  unfold Concatenate. apply grows_if; [apply grows_add_node | apply grows_raise].
Qed.

Lemma grows_for_in {A S} (l : list A) (body : A -> S -> M S) s :
  (forall v s, grows (body v s)) -> grows (for_in l body s).
Proof.
  intros Hb. revert s. induction l as [|v l IH]; intros s; simpl.
  - apply grows_ret.
  - apply grows_bind; auto.
Qed.

Lemma grows_py_getitem {A} (l : list A) i : grows (py_getitem l i).
Proof.
  unfold py_getitem. apply grows_if; [| apply grows_raise].
  destruct (nth_error _ _); [apply grows_ret | apply grows_raise].
Qed.

Create HintDb grows.

#[local] Hint Resolve grows_ret grows_raise grows_add_node grows_assert
  grows_Conv2D grows_Conv2DTranspose grows_MaxPooling2D grows_Cropping2D
  grows_Concatenate grows_py_getitem : grows.

(** Decompose a straight-line computation into its statements. *)
Ltac grows_steps :=
  repeat first
    [ apply grows_bind; [| intros ?]
    | apply grows_if
    | match goal with |- grows (let '(_, _) := ?p in _) => destruct p end
    | solve [unfold BatchNormalization, Activation, Dropout, Lambda;
             auto with grows] ].

Lemma grows_upsampling_convs x f p bn dr : grows (upsampling_convs x f p bn dr).
Proof. unfold upsampling_convs. grows_steps. Qed.

Lemma grows_downsampling_block x f p bn dr :
  grows (downsampling_block x f p bn dr).
Proof. unfold downsampling_block. grows_steps. Qed.

Lemma grows_upsampling_block x s f p bn dr :
  grows (upsampling_block x s f p bn dr).
Proof. unfold upsampling_block. grows_steps. Qed.

Lemma grows_encoder d p bn dr s : grows (encoder d p bn dr s).
Proof.
  unfold encoder. apply grows_for_in. intros _ [[x sk] f].
  apply grows_bind; [apply grows_downsampling_block |].
  intros [a b]. apply grows_ret.
Qed.

Lemma grows_bottleneck n f p bn dr s : grows (bottleneck n f p bn dr s).
Proof.
  unfold bottleneck. apply grows_for_in. intros _ [x d]. grows_steps.
Qed.

Lemma grows_decoder d sk p bn dr s : grows (decoder d sk p bn dr s).
Proof.
  unfold decoder. apply grows_for_in. intros i [x f].
  apply grows_bind; [apply grows_py_getitem | intros skip].
  apply grows_bind; [apply grows_upsampling_block | intros y].
  apply grows_ret.
Qed.

Lemma grows_dilated_unet h w c cl f d t p bn dr n :
  grows (dilated_unet h w c cl f d t p bn dr n).
Proof.
  unfold dilated_unet.
  apply grows_bind.
  { unfold Input. apply grows_if; auto with grows. }
  intros x. apply grows_bind; [apply grows_encoder | intros [[x1 sk] f1]].
  apply grows_bind; [apply grows_bottleneck | intros [x2 d2]].
  apply grows_bind; [apply grows_decoder | intros [x3 f3]].
  grows_steps.
Qed.

(* ================================================================== *)
(** ** [upsampling_block] *)
(* ================================================================== *)

Lemma ltb_nonneg f : 0 <= f -> (f <? 0) = false.
Proof. intros H. now apply Z.ltb_ge. Qed.

(** The transposed convolution of line 31: refused on a negative filter
    count, and otherwise a node whose output is twice as high and
    wide. *)
Lemma Conv2DTranspose_run {B} f x (k : tensor -> M B) g :
  bind (Conv2DTranspose f (2, 2) (2, 2) "valid" x) k g
  = if f <? 0 then (Raise (ValueError negative_dimension), g)
    else k (upsampled g x f) (g ++ [upsampling_node g x f]).
Proof.
  unfold bind, Conv2DTranspose, upsampling_node, upsampled, add_node,
    deconv_length.
  change (normalize_padding "valid") with (Some valid). cbv beta iota zeta.
  rewrite Z.leb_antisym. destruct (f <? 0); [reflexivity |].
  cbn [negb]. change (Z.max (2 - 2) 0) with 0.
  replace (height (tshape x) * 2 + 0) with (2 * height (tshape x)) by lia.
  replace (width (tshape x) * 2 + 0) with (2 * width (tshape x)) by lia.
  reflexivity.
Qed.

Lemma Conv2DTranspose_ok_inv f x g u g' :
  Conv2DTranspose f (2, 2) (2, 2) "valid" x g = (Ok u, g') ->
  0 <= f /\ u = upsampled g x f /\ g' = g ++ [upsampling_node g x f].
Proof.
  intros H. pose proof (Conv2DTranspose_run f x (fun t => ret t) g) as R.
  unfold bind in R. rewrite H in R. unfold ret in R.
  destruct (f <? 0) eqn:Ef; [discriminate |].
  apply Z.ltb_ge in Ef. injection R as -> ->. now repeat split.
Qed.

(** The two closing convolutions, when they succeed. *)
Lemma upsampling_convs_ok_inv x f p bn dr g out g' :
  upsampling_convs x f p bn dr g = (Ok out, g') ->
  exists pm nodes,
    normalize_padding p = Some pm /\
    tshape out = mkShape (shrink pm 4 (height (tshape x)))
                         (shrink pm 4 (width (tshape x))) f /\
    g' = g ++ nodes /\
    conv_layers nodes = [LConv2D f (3, 3) p 1; LConv2D f (3, 3) p 1] /\
    pool_inputs nodes = [] /\
    concat_seconds nodes = [] /\
    transpose_filters nodes = [].
Proof.
  unfold upsampling_convs. intros H.
  apply Conv2D3_ok_inv in H as (pm & c1 & Hp & _ & _ & Hc1 & H).
  step_post H a1 n1 Ha1 Hq1.
  apply Conv2D3_ok_inv in H as (pm' & c2 & Hp' & _ & _ & Hc2 & H).
  rewrite Hp in Hp'. injection Hp' as <-.
  step_post H a2 n2 Ha2 Hq2.
  unfold ret in H. injection H as <- <-.
  destruct Hq1, Hq2.
  exists pm. eexists.
  split; [exact Hp |].
  split; [rewrite Ha2, Hc2, Ha1, Hc1; simpl; unfold shrink;
          destruct pm; f_equal; lia |].
  split; [rewrite <- !app_assoc; reflexivity |].
  repeat split.
  - rewrite !conv_layers_app. rewrite quiet_conv0, quiet_conv1. reflexivity.
  - rewrite !pool_inputs_app. rewrite quiet_pool0, quiet_pool1. reflexivity.
  - rewrite !concat_seconds_app. rewrite quiet_concat0, quiet_concat1.
    reflexivity.
  - rewrite !transpose_filters_app.
    rewrite quiet_transpose0, quiet_transpose1. reflexivity.
Qed.

Lemma upsampling_convs_ok_filters x f p bn dr g out g' :
  upsampling_convs x f p bn dr g = (Ok out, g') -> 0 <= f.
Proof. unfold upsampling_convs. apply Conv2D_ok_filters. Qed.

Lemma upsampling_convs_run x f p pm bn dr g :
  normalize_padding p = Some pm ->
  0 <= f ->
  room pm 5 (height (tshape x)) ->
  room pm 5 (width (tshape x)) ->
  exists out g', upsampling_convs x f p bn dr g = (Ok out, g').
Proof.
  intros Hp Hf Hh Hw. unfold upsampling_convs.
  run_conv3 pm c1 Hc1;
    [unfold fits3, room in *; destruct pm; lia .. |].
  run_post a1 n1 Ha1 Hq1.
  run_conv3 pm c2 Hc2;
    [rewrite Ha1, Hc1; simpl; unfold fits3, room, shrink in *;
     destruct pm; lia .. |].
  run_post a2 n2 Ha2 Hq2.
  unfold ret. now eexists _, _.
Qed.

(** [upsampling_block], statement by statement: the transposed
    convolution succeeds unless the filter count is negative; a
    negative crop amount stops the block there; otherwise the skip
    tensor is taken as it is or cropped, concatenated, and the two
    convolutions follow. *)
Lemma upsampling_block_unfold x skip f p bn dr g :
  let u := upsampled g x f in
  let g1 := g ++ [upsampling_node g x f] in
  let y := skip_operand g1 x skip in
  let g2 := g1 ++ skip_nodes g1 x skip in
  upsampling_block x skip f p bn dr g =
    if f <? 0 then (Raise (ValueError negative_dimension), g)
    else if h_crop x skip <? 0 then (Raise (AssertionError h_crop_nonneg), g1)
    else if w_crop x skip <? 0 then (Raise (AssertionError w_crop_nonneg), g1)
    else upsampling_convs (concat_output g2 u y) f p bn dr
           (g2 ++ [concat_node g2 u y]).
Proof.
  intros u g1 y g2. unfold upsampling_block. rewrite Conv2DTranspose_run.
  destruct (f <? 0); [reflexivity |].
  fold u g1. unfold int_shape.
  change (height (tshape skip) - height (tshape u)) with (h_crop x skip).
  change (width (tshape skip) - width (tshape u)) with (w_crop x skip).
  destruct (h_crop x skip <? 0) eqn:Eh.
  { apply Z.ltb_lt in Eh. rewrite assert_false; [reflexivity |].
    apply Z.leb_gt. exact Eh. }
  apply Z.ltb_ge in Eh. rewrite assert_true by now apply Z.leb_le.
  destruct (w_crop x skip <? 0) eqn:Ew.
  { apply Z.ltb_lt in Ew. rewrite assert_false; [reflexivity |].
    apply Z.leb_gt. exact Ew. }
  apply Z.ltb_ge in Ew. rewrite assert_true by now apply Z.leb_le.
  subst y g2. unfold skip_nodes. unfold skip_operand.
  destruct ((h_crop x skip =? 0) && (w_crop x skip =? 0)) eqn:Ez.
  - apply andb_prop in Ez as [Ez1 Ez2]. apply Z.eqb_eq in Ez1, Ez2.
    rewrite app_nil_r. unfold bind at 1. unfold ret at 1.
    unfold bind at 1. unfold Concatenate.
    replace (height (tshape u) =? height (tshape skip)) with true
      by (symmetry; apply Z.eqb_eq; unfold h_crop in Ez1; subst u;
          unfold upsampled; cbn [tshape height width]; lia).
    replace (width (tshape u) =? width (tshape skip)) with true
      by (symmetry; apply Z.eqb_eq; unfold w_crop in Ez2; subst u;
          unfold upsampled; cbn [tshape height width]; lia).
    reflexivity.
  - unfold bind at 1. unfold Cropping2D, center_cropping, add_node.
    unfold bind at 1. unfold Concatenate. cbn [tshape height width].
    replace (height (tshape skip) - h_crop x skip / 2
             - (h_crop x skip - h_crop x skip / 2))
      with (2 * height (tshape x)) by (unfold h_crop; lia).
    replace (width (tshape skip) - w_crop x skip / 2
             - (w_crop x skip - w_crop x skip / 2))
      with (2 * width (tshape x)) by (unfold w_crop; lia).
    change (height (tshape u)) with (2 * height (tshape x)).
    change (width (tshape u)) with (2 * width (tshape x)).
    rewrite !Z.eqb_refl. reflexivity.
Qed.

Lemma encoder_unfold depth p bn dr :
  encoder depth p bn dr = for_in (range depth) (encoder_body p bn dr).
Proof. reflexivity. Qed.

Lemma bottleneck_unfold n f p bn dr :
  bottleneck n f p bn dr = for_in (range n) (bottleneck_body f p bn dr).
Proof. reflexivity. Qed.

Lemma decoder_unfold depth skips p bn dr :
  decoder depth skips p bn dr
  = for_in (rev (range depth)) (decoder_body skips p bn dr).
Proof. reflexivity. Qed.

Lemma skip_nodes_quiet g x skip : quiet (skip_nodes g x skip).
Proof. unfold skip_nodes. destruct (_ && _); split; reflexivity. Qed.

Lemma skip_operand_consumes g x skip :
  consumes (skip_nodes g x skip) (skip_operand g x skip) skip.
Proof.
  unfold consumes, skip_nodes, skip_operand.
  destruct (_ && _); [now left | right].
  eexists. left. reflexivity.
Qed.

(** What a successful call of [upsampling_block] has checked, returned
    and built. *)
Lemma upsampling_block_ok_inv x skip f p bn dr g out g' :
  upsampling_block x skip f p bn dr g = (Ok out, g') ->
  exists pm y nodes,
    normalize_padding p = Some pm /\
    0 <= h_crop x skip /\ 0 <= w_crop x skip /\
    tshape out = mkShape (shrink pm 4 (2 * height (tshape x)))
                         (shrink pm 4 (2 * width (tshape x))) f /\
    g' = g ++ nodes /\
    conv_layers nodes = [LConv2D f (3, 3) p 1; LConv2D f (3, 3) p 1] /\
    pool_inputs nodes = [] /\
    concat_seconds nodes = [y] /\
    consumes nodes y skip /\
    transpose_filters nodes = [f].
Proof.
  rewrite upsampling_block_unfold. cbv zeta.
  destruct (f <? 0); [discriminate |].
  destruct (h_crop x skip <? 0) eqn:Eh; [discriminate |].
  destruct (w_crop x skip <? 0) eqn:Ew; [discriminate |].
  apply Z.ltb_ge in Eh, Ew. intros H.
  apply upsampling_convs_ok_inv in H
    as (pm & nodes & Hp & Hs & -> & Hc & Hpo & Hco & Htr).
  set (g1 := g ++ [upsampling_node g x f]) in *.
  destruct (skip_nodes_quiet g1 x skip) as [Q1 Q2 Q3 Q4].
  exists pm, (skip_operand g1 x skip).
  exists ([upsampling_node g x f] ++ skip_nodes g1 x skip
          ++ [concat_node (g1 ++ skip_nodes g1 x skip) (upsampled g x f)
                (skip_operand g1 x skip)] ++ nodes).
  split; [exact Hp |]. split; [exact Eh |]. split; [exact Ew |].
  split; [exact Hs |].
  split; [subst g1; now rewrite <- !app_assoc |].
  repeat split.
  - rewrite !conv_layers_app, Q1, Hc. reflexivity.
  - rewrite !pool_inputs_app, Q2, Hpo. reflexivity.
  - rewrite !concat_seconds_app, Q3, Hco. reflexivity.
  - apply consumes_app_r, consumes_app, skip_operand_consumes.
  - rewrite !transpose_filters_app, Q4, Htr. reflexivity.
Qed.

Lemma upsampling_block_ok_filters x skip f p bn dr g out g' :
  upsampling_block x skip f p bn dr g = (Ok out, g') -> 0 <= f.
Proof.
  rewrite upsampling_block_unfold. cbv zeta.
  destruct (f <? 0) eqn:Ef; [discriminate |]. intros _.
  now apply Z.ltb_ge.
Qed.

(** With a filter count that is not negative, non-negative crop amounts
    and room for the two convolutions, the block succeeds. *)
Lemma upsampling_block_run x skip f p pm bn dr g :
  normalize_padding p = Some pm ->
  0 <= f ->
  0 <= h_crop x skip -> 0 <= w_crop x skip ->
  room pm 5 (2 * height (tshape x)) ->
  room pm 5 (2 * width (tshape x)) ->
  exists out g', upsampling_block x skip f p bn dr g = (Ok out, g').
Proof.
  intros Hp Hf Hh Hw H1 H2. rewrite upsampling_block_unfold. cbv zeta.
  rewrite (ltb_nonneg _ Hf).
  rewrite (proj2 (Z.ltb_ge _ _) Hh), (proj2 (Z.ltb_ge _ _) Hw).
  now apply upsampling_convs_run with (pm := pm).
Qed.

Lemma py_getitem_nth {A} (l : list A) (k : nat) a :
  nth_error l k = Some a -> py_getitem l (Z.of_nat k) = ret a.
Proof.
  intros H. unfold py_getitem.
  assert (Hk : (k < List.length l)%nat)
    by (apply nth_error_Some; congruence).
  replace (Z.of_nat k <? 0) with false by (symmetry; apply Z.ltb_ge; lia).
  replace (0 <=? Z.of_nat k) with true by (symmetry; apply Z.leb_le; lia).
  replace (Z.of_nat k <? Z.of_nat (List.length l)) with true
    by (symmetry; apply Z.ltb_lt; lia).
  simpl. now rewrite Nat2Z.id, H.
Qed.

(* ================================================================== *)
(** ** The encoder loop *)
(* ================================================================== *)

Lemma ret_ok_inv {A} (a b : A) g g' : ret a g = (Ok b, g') -> a = b /\ g = g'.
Proof. unfold ret. intros H. now injection H. Qed.

(** A successful run of the encoder loop appends one skip tensor per
    iteration; its stages form an [enc_chain]. *)
Lemma encoder_loop_ok_inv p bn dr (l : list Z) :
  forall x skips f g x' skips' f' g',
    for_in l (encoder_body p bn dr) (x, skips, f) g
    = (Ok (x', skips', f'), g') ->
    exists new nodes,
      skips' = skips ++ new /\
      enc_chain p f x new x' f' /\
      List.length new = List.length l /\
      g' = g ++ nodes /\
      pool_inputs nodes = new /\
      concat_seconds nodes = [] /\
      transpose_filters nodes = [] /\
      List.length (conv_layers nodes) = (2 * List.length l)%nat.
Proof.
  induction l as [|v l IH]; intros x skips f g x' skips' f' g' H.
  - apply ret_ok_inv in H as [H ->]. injection H as <- <- <-.
    exists [], []. rewrite !app_nil_r. repeat split. constructor.
  - simpl in H. apply bind_ok_inv in H as ([[x1 skips1] f1] & g1 & Hb & H).
    unfold encoder_body in Hb.
    apply bind_ok_inv in Hb as ([pl sk] & g0 & Hd & Hr).
    apply ret_ok_inv in Hr as [Hr ->]. injection Hr as <- <- <-.
    apply downsampling_block_ok_inv in Hd
      as (pm & n1 & Hp & Eh & Ew & Hsk & Hh2 & Hw2 & Hpl & -> & Hc1 & Hpo1
          & Hco1 & Htr1).
    apply IH in H
      as (new & n2 & -> & Hch & Hlen & -> & Hpo2 & Hco2 & Htr2 & Hc2).
    exists (sk :: new), (n1 ++ n2).
    split; [now rewrite <- app_assoc |].
    split; [econstructor; eassumption |].
    split; [simpl; now rewrite Hlen |].
    split; [now rewrite app_assoc |].
    rewrite pool_inputs_app, concat_seconds_app, transpose_filters_app,
      conv_layers_app, length_app, Hpo1, Hpo2, Hco1, Hco2, Htr1, Htr2, Hc1, Hc2.
    repeat split. simpl. lia.
Qed.

(** Feature counts along the encoder: stage [i] uses [f0 * 2^i]. *)
Lemma enc_chain_channels p f x new x' f' :
  enc_chain p f x new x' f' ->
  forall f0 k, f = f0 * 2 ^ Z.of_nat k ->
    map (fun t => channels (tshape t)) new
    = map (fun i => f0 * 2 ^ i) (range_from k (List.length new)) /\
    f' = f0 * 2 ^ Z.of_nat (k + List.length new).
Proof.
  induction 1 as [f x | f x sk pl rest x' f' pm Hp Eh Ew Hsk Hh2 Hw2 Hpl Hch IH];
    intros f0 k Hf.
  - simpl. split; [reflexivity |]. now rewrite Nat.add_0_r.
  - destruct (IH f0 (S k)) as [IH1 IH2].
    { rewrite Hf, Nat2Z.inj_succ, Z.pow_succ_r by lia. lia. }
    simpl List.length. rewrite range_from_S. simpl map. split.
    + rewrite IH1, Hsk. simpl. now rewrite Hf.
    + rewrite IH2. f_equal. f_equal. lia.
Qed.

(* ================================================================== *)
(** ** The decoder loop *)
(* ================================================================== *)

Lemma nth_error_middle {A} (prefix : list A) a rest :
  nth_error (prefix ++ a :: rest) (List.length prefix) = Some a.
Proof.
  induction prefix as [|b prefix IH]; simpl; [reflexivity | exact IH].
Qed.

Lemma rev_range_from_S k n :
  rev (range_from k (S n)) = rev (range_from (S k) n) ++ [Z.of_nat k].
Proof. rewrite range_from_S. reflexivity. Qed.

Lemma even_double_half n : n mod 2 = 0 -> 2 * (n / 2) = n.
Proof. intros H. pose proof (Z.div_mod n 2). lia. Qed.

(** The decoder undoes the encoder: run over the stages of an
    [enc_chain] in reverse, from the feature count the encoder ended
    with, it consumes the skip tensors last to first, passes to each
    transposed convolution the feature count of the matching encoder
    stage, and ends with the feature count the encoder started from.
    Under 'same' padding it also restores the spatial shape. *)
Lemma decoder_unwinds p bn dr f x new x' f' :
  enc_chain p f x new x' f' ->
  forall prefix suffix y g z fz g',
    for_in (rev (range_from (List.length prefix) (List.length new)))
      (decoder_body (prefix ++ new ++ suffix) p bn dr) (y, f') g
    = (Ok (z, fz), g') ->
    fz = f /\
    exists nodes,
      g' = g ++ nodes /\
      transpose_filters nodes = rev (map (fun t => channels (tshape t)) new) /\
      Forall2 (consumes nodes) (concat_seconds nodes) (rev new) /\
      pool_inputs nodes = [] /\
      (normalize_padding p = Some same ->
       spatial y = spatial x' -> spatial z = spatial x) /\
      (new <> [] ->
       exists pm, normalize_padding p = Some pm /\
         height (tshape z) <= shrink pm 10 (height (tshape x)) /\
         width (tshape z) <= shrink pm 10 (width (tshape x))).
Proof.
  induction 1 as [f x | f x sk pl rest x' f' pm Hp Eh Ew Hsk Hh2 Hw2 Hpl Hch IH];
    intros prefix suffix y g z fz g' H.
  - apply ret_ok_inv in H as [H ->]. injection H as <- <-.
    split; [reflexivity |]. exists []. rewrite app_nil_r.
    repeat split; try constructor; auto. intros []. reflexivity.
  - simpl List.length in H. rewrite rev_range_from_S, for_in_app in H.
    apply bind_ok_inv in H as ([z1 f1] & g1 & H1 & H2).
    replace (prefix ++ (sk :: rest) ++ suffix)
      with ((prefix ++ [sk]) ++ rest ++ suffix) in H1
      by (now rewrite <- app_assoc).
    replace (S (List.length prefix)) with (List.length (prefix ++ [sk])) in H1
      by (rewrite length_app; simpl; lia).
    apply IH in H1 as (-> & n1 & -> & Htr1 & Hco1 & Hpo1 & Hsame1 & _).
    simpl in H2. apply bind_ok_inv in H2 as ([z2 f2] & g2 & Hb & Hr).
    apply ret_ok_inv in Hr as [Hr ->]. injection Hr as -> ->.
    unfold decoder_body in Hb.
    replace (f * 2 / 2) with f in Hb by (symmetry; apply Z.div_mul; lia).
    change ((sk :: rest) ++ suffix) with (sk :: rest ++ suffix) in Hb.
    rewrite (py_getitem_nth _ _ sk) in Hb by apply nth_error_middle.
    apply bind_ok_inv in Hb as (sk' & g0 & Hg & Hb).
    apply ret_ok_inv in Hg as [<- <-].
    apply bind_ok_inv in Hb as (out & g3 & Hu & Hr).
    apply ret_ok_inv in Hr as [Hr ->]. injection Hr as -> ->.
    apply upsampling_block_ok_inv in Hu
      as (pm' & yy & n2 & Hp' & Hhc & Hwc & Hout & -> & _ & Hpo2 & Hco2 & Hcons
          & Htr2).
    rewrite Hp in Hp'. injection Hp' as <-.
    split; [reflexivity |]. exists (n1 ++ n2).
    split; [now rewrite app_assoc |].
    split; [rewrite transpose_filters_app, Htr1, Htr2; simpl;
            now rewrite Hsk |].
    split.
    { rewrite concat_seconds_app, Hco2. simpl rev.
      apply Forall2_app.
      - eapply Forall2_impl; [| exact Hco1].
        intros a b. apply consumes_app.
      - constructor; [| constructor]. now apply consumes_app_r. }
    split; [rewrite pool_inputs_app, Hpo1, Hpo2; reflexivity |].
    split.
    + intros Hs Hy. rewrite Hs in Hp. injection Hp as <-.
      specialize (Hsame1 Hs Hy). unfold spatial in *.
      injection Hsame1 as Hz1 Hz2.
      rewrite Hout. cbn [tshape height width shrink].
      rewrite Hz1, Hz2, Hpl. cbn [height width].
      rewrite Hsk. cbn [height width shrink].
      now rewrite !even_double_half.
    + intros _. exists pm. split; [exact Hp |].
      rewrite Hout. cbn [tshape height width].
      unfold h_crop, w_crop in Hhc, Hwc. rewrite Hsk in Hhc, Hwc.
      cbn [height width] in Hhc, Hwc.
      unfold shrink in *. destruct pm; lia.
Qed.

(* ================================================================== *)
(** ** The bottleneck loop *)
(* ================================================================== *)

(** The three outcomes of a 3x3 convolution. *)
Lemma Conv2D3_cases {B} f p d x (k : tensor -> M B) g :
  (exists v, bind (Conv2D f (3, 3) p d x) k g = (Raise (ValueError v), g)) \/
  (exists pm t,
     normalize_padding p = Some pm /\
     tshape t = mkShape (shrink pm (2 * d) (height (tshape x)))
                        (shrink pm (2 * d) (width (tshape x))) f /\
     bind (Conv2D f (3, 3) p d x) k g
     = k t (g ++ [mkNode (LConv2D f (3, 3) p d) [x] t])).
Proof.
  destruct (normalize_padding p) as [pm|] eqn:Hp.
  - destruct (Z_le_gt_dec 0 f) as [Hf | Hf].
    2:{ left. eexists. apply Conv2D_negative_filters with (pm := pm);
          [exact Hp | lia]. }
    destruct (window_fits (height (tshape x)) 3 pm d) eqn:Eh.
    + destruct (window_fits (width (tshape x)) 3 pm d) eqn:Ew.
      * right. apply window3_fits in Eh, Ew.
        destruct (Conv2D3_ok f p pm d x k g Hp Hf Eh Ew) as (t & Ht & E).
        now exists pm, t.
      * left. eexists. apply Conv2D3_too_small with (pm := pm); [exact Hp |].
        intros (_ & _ & Hw). apply window3_fits in Hw. congruence.
    + left. eexists. apply Conv2D3_too_small with (pm := pm); [exact Hp |].
      intros (_ & Hh & _). apply window3_fits in Hh. congruence.
  - left. eexists. now apply Conv2D_bad_padding.
Qed.

(** One iteration of the bottleneck loop: it raises without building
    anything, or builds one convolution and pointwise layers. *)
Lemma bottleneck_body_cases f p bn dr v x d g :
  (exists e, bottleneck_body f p bn dr v (x, d) g
             = (Raise (ValueError e), g)) \/
  (exists pm t x' nodes,
     normalize_padding p = Some pm /\
     tshape x' = mkShape (shrink pm (2 * d) (height (tshape x)))
                         (shrink pm (2 * d) (width (tshape x))) f /\
     quiet nodes /\
     bottleneck_body f p bn dr v (x, d) g
     = (Ok (x', d * 2),
        g ++ [mkNode (LConv2D f (3, 3) p d) [x] t] ++ nodes)).
Proof.
  unfold bottleneck_body.
  match goal with
  | |- (exists e, bind (Conv2D _ _ _ _ _) ?k0 _ = _) \/ _ =>
      destruct (Conv2D3_cases f p d x k0 g)
        as [[e E] | (pm & t & Hp & Ht & E)]; rewrite E; clear E
  end.
  - left. now exists e.
  - right. run_post a n1 Ha Hq. unfold ret.
    exists pm, t, a, n1. rewrite <- app_assoc.
    split; [exact Hp |]. split; [now rewrite Ha |]. now split.
Qed.

(** Under 'same' padding an iteration returns whenever the filter
    count is not negative. *)
Lemma bottleneck_body_same_run f p bn dr v x d g :
  normalize_padding p = Some same ->
  0 <= f ->
  exists x' g', bottleneck_body f p bn dr v (x, d) g = (Ok (x', d * 2), g').
Proof.
  intros Hp Hf. unfold bottleneck_body.
  run_conv3 same c1 Hc1; [exact I .. |].
  run_post a1 n1 Ha1 Hq1. unfold ret. now eexists _, _.
Qed.

(** Whatever its outcome, the bottleneck loop started at dilation rate
    [d0 * 2^k] has built convolutions of [f] filters whose dilation
    rates are [d0 * 2^k, d0 * 2^(k+1), ...]: as many as iterations when
    it returns, fewer when it raises. *)
Lemma bottleneck_loop_spec f p bn dr (l : list Z) :
  forall x d0 k g r g',
    for_in l (bottleneck_body f p bn dr) (x, d0 * 2 ^ Z.of_nat k) g
    = (r, g') ->
    exists nodes m,
      g' = g ++ nodes /\
      (m <= List.length l)%nat /\
      conv_layers nodes
      = map (fun i => LConv2D f (3, 3) p (d0 * 2 ^ i)) (range_from k m) /\
      pool_inputs nodes = [] /\
      concat_seconds nodes = [] /\
      transpose_filters nodes = [] /\
      (forall x' d', r = Ok (x', d') ->
         m = List.length l /\
         d' = d0 * 2 ^ Z.of_nat (k + List.length l) /\
         (normalize_padding p = Some same -> spatial x' = spatial x)).
Proof.
  induction l as [|v l IH]; intros x d0 k g r g' H.
  - injection H as <- <-. exists [], 0%nat. rewrite app_nil_r.
    repeat split; auto.
    + injection H as <- <-. now rewrite Nat.add_0_r.
    + now injection H as <- <-.
  - rewrite for_in_cons in H. unfold bind at 1 in H.
    destruct (bottleneck_body_cases f p bn dr v x (d0 * 2 ^ Z.of_nat k) g)
      as [[e E] | (pm & t & a & n1 & Hp & Ha & Hq & E)];
      rewrite E in H; clear E.
    + injection H as <- <-. exists [], 0%nat. rewrite app_nil_r.
      repeat split; auto; try lia; discriminate.
    + replace (d0 * 2 ^ Z.of_nat k * 2) with (d0 * 2 ^ Z.of_nat (S k)) in H
        by (rewrite Nat2Z.inj_succ, Z.pow_succ_r by lia; lia).
      apply IH in H as (n2 & m & -> & Hm & Hc & Hpo & Hco & Htr & Hok).
      destruct Hq as [Q1 Q2 Q3 Q4].
      exists (([mkNode (LConv2D f (3, 3) p (d0 * 2 ^ Z.of_nat k)) [x] t]
               ++ n1) ++ n2), (S m).
      split; [now rewrite <- !app_assoc |].
      split; [simpl; lia |].
      rewrite !conv_layers_app, !pool_inputs_app, !concat_seconds_app,
        !transpose_filters_app, Q1, Q2, Q3, Q4, Hc, Hpo, Hco, Htr.
      rewrite range_from_S.
      repeat split.
      * now destruct (Hok _ _ H) as [-> _].
      * destruct (Hok _ _ H) as (_ & -> & _). f_equal. f_equal. simpl. lia.
      * intros Hs. destruct (Hok _ _ H) as (_ & _ & Hsp).
        rewrite (Hsp Hs). unfold spatial. rewrite Ha.
        rewrite Hs in Hp. injection Hp as <-. reflexivity.
Qed.

(** Under 'same' padding the bottleneck loop returns whenever the
    filter count is not negative. *)
Lemma bottleneck_loop_same_run f p bn dr (l : list Z) :
  normalize_padding p = Some same ->
  0 <= f ->
  forall x d g,
    exists x' d' g',
      for_in l (bottleneck_body f p bn dr) (x, d) g = (Ok (x', d'), g').
Proof.
  intros Hp Hf. induction l as [|v l IH]; intros x d g.
  - now eexists _, _, _.
  - rewrite for_in_cons. unfold bind at 1.
    destruct (bottleneck_body_same_run f p bn dr v x d g Hp Hf)
      as (x1 & g1 & E).
    rewrite E. apply IH.
Qed.

(* ================================================================== *)
(** ** The encoder under 'same' padding *)
(* ================================================================== *)

Lemma even_divide n : n mod 2 = 0 <-> (2 | n).
Proof. apply Z.mod_divide. lia. Qed.

Lemma divide_pow2_S n k :
  (2 ^ Z.of_nat (S k) | n) <-> n mod 2 = 0 /\ (2 ^ Z.of_nat k | n / 2).
Proof.
  rewrite Nat2Z.inj_succ, Z.pow_succ_r by lia. split.
  - intros [c Hc]. assert (Hn : n = 2 * (c * 2 ^ Z.of_nat k)) by lia.
    split.
    + apply even_divide. now exists (c * 2 ^ Z.of_nat k); lia.
    + exists c. rewrite Hn, Z.mul_comm, Z.div_mul by lia. reflexivity.
  - intros [He [c Hc]]. exists c.
    rewrite <- (even_double_half n He), Hc. lia.
Qed.

Lemma half_pos n : 0 < n -> n mod 2 = 0 -> 0 < n / 2.
Proof. intros Hn He. pose proof (even_double_half n He). lia. Qed.

(** Under 'same' padding a block succeeds on positive even sizes and
    halves them. *)
Lemma downsampling_block_same_run x f p bn dr g :
  normalize_padding p = Some same ->
  0 <= f ->
  0 < height (tshape x) -> 0 < width (tshape x) ->
  height (tshape x) mod 2 = 0 -> width (tshape x) mod 2 = 0 ->
  exists pl sk nodes,
    downsampling_block x f p bn dr g = (Ok (pl, sk), g ++ nodes) /\
    tshape sk = mkShape (height (tshape x)) (width (tshape x)) f /\
    tshape pl = mkShape (height (tshape x) / 2) (width (tshape x) / 2) f /\
    List.length (conv_layers nodes) = 2%nat.
Proof.
  intros Hp Hf Hh Hw Eh Ew.
  pose proof (even_double_half _ Eh). pose proof (even_double_half _ Ew).
  destruct (downsampling_block_run x f p same bn dr g Hp Hf Eh Ew)
    as (pl & sk & g' & E); [simpl; lia | simpl; lia |].
  pose proof E as E'.
  apply downsampling_block_ok_inv in E'
    as (pm & nodes & Hp' & _ & _ & Hsk & _ & _ & Hpl & -> & Hc & _).
  rewrite Hp in Hp'. injection Hp' as <-.
  exists pl, sk, nodes. split; [exact E |].
  split; [exact Hsk |]. split; [now rewrite Hpl, Hsk |].
  now rewrite Hc.
Qed.

(** Under 'same' padding the encoder loop returns on positive sizes
    divisible by [2^n], [n] the number of iterations. *)
Lemma encoder_loop_same_run p bn dr :
  normalize_padding p = Some same ->
  forall (l : list Z) x skips f g,
    0 <= f ->
    0 < height (tshape x) -> 0 < width (tshape x) ->
    (2 ^ Z.of_nat (List.length l) | height (tshape x)) ->
    (2 ^ Z.of_nat (List.length l) | width (tshape x)) ->
    exists x' skips' f' g',
      for_in l (encoder_body p bn dr) (x, skips, f) g
      = (Ok (x', skips', f'), g') /\
      0 < height (tshape x') /\ 0 < width (tshape x').
Proof.
  intros Hp. induction l as [|v l IH]; intros x skips f g Hf Hh Hw Dh Dw.
  - now eexists _, _, _, _.
  - simpl List.length in Dh, Dw.
    apply divide_pow2_S in Dh as [Eh Dh], Dw as [Ew Dw].
    destruct (downsampling_block_same_run x f p bn dr g Hp Hf Hh Hw Eh Ew)
      as (pl & sk & nodes & E & Hsk & Hpl & _).
    rewrite for_in_cons. unfold bind at 1. unfold encoder_body at 1.
    unfold bind at 1. rewrite E. unfold ret at 1.
    apply IH; [lia | ..]; rewrite Hpl; cbn [height width];
      auto using half_pos.
Qed.

(** Under 'same' padding and with a feature count that is not
    negative, on positive sizes that are not both divisible
    by [2^n], the encoder loop raises [AssertionError] at its stage [k],
    the first whose input has an odd size: the [k] stages before it have
    built their two convolutions each, stage [k] has built nothing. *)
Lemma encoder_loop_same_fail p bn dr :
  normalize_padding p = Some same ->
  forall (l : list Z) x skips f g,
    0 <= f ->
    0 < height (tshape x) -> 0 < width (tshape x) ->
    ~ ((2 ^ Z.of_nat (List.length l) | height (tshape x)) /\
       (2 ^ Z.of_nat (List.length l) | width (tshape x))) ->
    exists a nodes k,
      for_in l (encoder_body p bn dr) (x, skips, f) g
      = (Raise (AssertionError a), g ++ nodes) /\
      (a = height_even \/ a = width_even) /\
      (k < List.length l)%nat /\
      List.length (conv_layers nodes) = (2 * k)%nat /\
      (2 ^ Z.of_nat k | height (tshape x)) /\
      (2 ^ Z.of_nat k | width (tshape x)) /\
      ~ ((2 ^ Z.of_nat (S k) | height (tshape x)) /\
         (2 ^ Z.of_nat (S k) | width (tshape x))).
Proof.
  intros Hp. induction l as [|v l IH]; intros x skips f g Hf Hh Hw Hn.
  - exfalso. apply Hn. simpl. split; apply Z.divide_1_l.
  - rewrite for_in_cons. unfold bind at 1. unfold encoder_body at 1.
    unfold bind at 1.
    destruct (Z.eq_dec (height (tshape x) mod 2) 0) as [Eh | Eh].
    2:{ rewrite downsampling_block_odd_height by exact Eh.
        exists height_even, [], 0%nat. rewrite app_nil_r.
        repeat split; auto; simpl List.length; try lia;
          try apply Z.divide_1_l.
        intros [D _]. apply divide_pow2_S in D as [D _]. contradiction. }
    destruct (Z.eq_dec (width (tshape x) mod 2) 0) as [Ew | Ew].
    2:{ rewrite downsampling_block_odd_width by assumption.
        exists width_even, [], 0%nat. rewrite app_nil_r.
        repeat split; auto; simpl List.length; try lia;
          try apply Z.divide_1_l.
        intros [_ D]. apply divide_pow2_S in D as [D _]. contradiction. }
    destruct (downsampling_block_same_run x f p bn dr g Hp Hf Hh Hw Eh Ew)
      as (pl & sk & n1 & E & Hsk & Hpl & Hc1).
    rewrite E. unfold ret at 1.
    destruct (IH pl (skips ++ [sk]) (f * 2) (g ++ n1))
      as (a & n2 & k & E2 & Ha & Hk & Hc2 & D1 & D2 & D3).
    { lia. }
    { rewrite Hpl. cbn [height]. now apply half_pos. }
    { rewrite Hpl. cbn [width]. now apply half_pos. }
    { rewrite Hpl. cbn [height width]. intros [D1 D2]. apply Hn.
      simpl List.length. split; apply divide_pow2_S; now split. }
    rewrite Hpl in D1, D2, D3. cbn [height width] in D1, D2, D3.
    exists a, (n1 ++ n2), (S k).
    rewrite E2, app_assoc, conv_layers_app, length_app, Hc1, Hc2.
    repeat split; auto; simpl List.length; try lia;
      try (apply divide_pow2_S; now split).
    intros [D4 D5]. apply D3.
    apply divide_pow2_S in D4 as [_ D4], D5 as [_ D5]. now split.
Qed.

(* ================================================================== *)
(** ** The decoder under 'same' padding *)
(* ================================================================== *)

(** Under 'same' padding the decoder loop returns when run over the
    stages of an [enc_chain], entered with a feature count that is not
    negative, from a tensor of the bottleneck's size. *)
Lemma decoder_same_run p bn dr f x new x' f' :
  enc_chain p f x new x' f' ->
  normalize_padding p = Some same ->
  0 <= f ->
  forall prefix suffix y g,
    spatial y = spatial x' ->
    exists z fz g',
      for_in (rev (range_from (List.length prefix) (List.length new)))
        (decoder_body (prefix ++ new ++ suffix) p bn dr) (y, f') g
      = (Ok (z, fz), g').
Proof.
  intros Hch Hs.
  induction Hch
    as [f x | f x sk pl rest x' f' pm Hp Eh Ew Hsk Hh2 Hw2 Hpl Hch IH];
    intros Hf prefix suffix y g Hy.
  - now eexists _, _, _.
  - simpl List.length. rewrite rev_range_from_S.
    destruct (IH ltac:(lia) (prefix ++ [sk]) suffix y g Hy)
      as (z1 & f1 & g1 & E1).
    pose proof E1 as E1'.
    apply (decoder_unwinds _ _ _ _ _ _ _ _ Hch) in E1'
      as (-> & n1 & -> & _ & _ & _ & Hsame & _).
    specialize (Hsame Hs Hy). unfold spatial in Hsame.
    injection Hsame as Hz1 Hz2.
    replace (List.length (prefix ++ [sk])) with (S (List.length prefix)) in E1
      by (rewrite length_app; simpl; lia).
    replace ((prefix ++ [sk]) ++ rest ++ suffix)
      with (prefix ++ (sk :: rest) ++ suffix) in E1
      by (now rewrite <- app_assoc).
    rewrite Hs in Hp. injection Hp as <-.
    assert (Hc : h_crop z1 sk = 0 /\ w_crop z1 sk = 0).
    { unfold h_crop, w_crop. rewrite Hz1, Hz2, Hpl, Hsk.
      cbn [height width shrink]. rewrite !even_double_half by assumption.
      lia. }
    destruct Hc as [Hc1 Hc2].
    destruct (upsampling_block_run z1 sk (f * 2 / 2) p same bn dr (g ++ n1) Hs)
      as (out & g3 & E3); try exact I; try lia.
    { rewrite Z.div_mul by lia. exact Hf. }
    eexists _, _, _. rewrite for_in_app, (bind_ok _ _ _ _ _ E1).
    rewrite for_in_cons. unfold bind at 1. unfold decoder_body at 1.
    change ((sk :: rest) ++ suffix) with (sk :: rest ++ suffix).
    rewrite (py_getitem_nth _ _ sk) by apply nth_error_middle.
    unfold bind at 1. unfold ret at 1. unfold bind at 1.
    rewrite E3. reflexivity.
Qed.

(* ================================================================== *)
(** ** [dilated_unet] as a whole *)
(* ================================================================== *)

Lemma dilated_unet_unfold h w c cl f d t p bn dr n g :
  dilated_unet h w c cl f d t p bn dr n g =
  bind (Input (mkShape h w c))
    (fun x0 =>
       bind (encoder d p bn dr (x0, [], f))
         (fun '(x1, skips, f1) =>
            bind (bottleneck n f1 p bn dr (x1, 1))
              (fun '(x2, _) =>
                 bind (decoder d skips p bn dr (x2, f1))
                   (fun '(x3, _) => head x0 x3 cl t)))) g.
Proof. reflexivity. Qed.

Lemma Input_run s :
  0 <= height s -> 0 <= width s -> 0 <= channels s ->
  Input s [] = (Ok (input_tensor s), [input_node s]).
Proof.
  intros Hh Hw Hc. unfold Input.
  rewrite (proj2 (Z.leb_le _ _) Hh), (proj2 (Z.leb_le _ _) Hw),
    (proj2 (Z.leb_le _ _) Hc).
  reflexivity.
Qed.

Lemma Input_ok_inv s g x g' :
  Input s g = (Ok x, g') ->
  tshape x = s /\ g' = g ++ [mkNode (LInput s) [] x] /\
  x = mkTensor (List.length g) s.
Proof.
  unfold Input. destruct (_ && _); [| discriminate].
  unfold add_node. intros H. injection H as <- <-. now repeat split.
Qed.

(** The head, when it returns. *)
Lemma head_ok_inv x0 x cl t g m g' :
  head x0 x cl t g = (Ok m, g') ->
  inputs m = x0 /\
  tshape (outputs m) = mkShape (height (tshape x)) (width (tshape x)) cl /\
  exists c l,
    g' = g ++ [mkNode (LConv2D cl (1, 1) "valid" 1) [x] c;
               mkNode (LLambda (DivideBy t)) [c] l;
               mkNode (LActivation "softmax") [l] (outputs m)].
Proof.
  unfold head, bind, Conv2D, Lambda, Activation, add_node, ret.
  change (normalize_padding "valid") with (Some valid). cbv beta iota zeta.
  destruct (_ && _); [| discriminate].
  intros H. injection H as <- <-. cbn [inputs outputs tshape].
  rewrite !conv1_length, <- !app_assoc. split; [reflexivity |].
  split; [reflexivity |]. now eexists _, _.
Qed.

(** The head returns on a tensor with at least one row and column,
    for a number of classes that is not negative, whatever the
    temperature. *)
Lemma head_run x0 x cl t g :
  0 <= cl ->
  1 <= height (tshape x) -> 1 <= width (tshape x) ->
  exists m g', head x0 x cl t g = (Ok m, g').
Proof.
  intros Hcl Hh Hw.
  unfold head, bind, Conv2D, Lambda, Activation, add_node, ret.
  change (normalize_padding "valid") with (Some valid). cbv beta iota zeta.
  unfold window_fits.
  replace (1 + (1 - 1) * (1 - 1)) with 1 by lia.
  rewrite (proj2 (Z.leb_le _ _) Hcl), (proj2 (Z.leb_le _ _) Hh),
    (proj2 (Z.leb_le _ _) Hw).
  now eexists _, _.
Qed.

Lemma head_ok_classes x0 x cl t g m g' :
  head x0 x cl t g = (Ok m, g') -> 0 <= cl.
Proof. unfold head. apply Conv2D_ok_filters. Qed.

(** The head never looks at the temperature: what it returns or raises
    does not depend on it. *)
Lemma head_temperature x0 x cl t t' g :
  fst (head x0 x cl t g) = fst (head x0 x cl t' g).
Proof.
  unfold head, bind, Conv2D, Lambda, Activation, add_node, ret.
  change (normalize_padding "valid") with (Some valid). cbv beta iota zeta.
  destruct (_ && _); cbn [fst]; [| reflexivity].
  rewrite !length_app. reflexivity.
Qed.

Lemma head_observations x0 x cl t g m g' :
  head x0 x cl t g = (Ok m, g') ->
  exists nodes,
    g' = g ++ nodes /\
    pool_inputs nodes = [] /\ concat_seconds nodes = [] /\
    transpose_filters nodes = [].
Proof.
  intros H. apply head_ok_inv in H as (_ & _ & c & l & ->).
  eexists. split; [reflexivity |]. now repeat split.
Qed.

(** A successful build, phase by phase. *)
Lemma dilated_unet_ok_inv h w c cl f d t p bn dr n g m g' :
  dilated_unet h w c cl f d t p bn dr n g = (Ok m, g') ->
  exists x0 g0 x1 skips f1 g1 x2 d2 g2 x3 f3 g3,
    Input (mkShape h w c) g = (Ok x0, g0) /\
    encoder d p bn dr (x0, [], f) g0 = (Ok (x1, skips, f1), g1) /\
    bottleneck n f1 p bn dr (x1, 1) g1 = (Ok (x2, d2), g2) /\
    decoder d skips p bn dr (x2, f1) g2 = (Ok (x3, f3), g3) /\
    head x0 x3 cl t g3 = (Ok m, g').
Proof.
  rewrite dilated_unet_unfold. intros H.
  apply bind_ok_inv in H as (x0 & g0 & E0 & H).
  apply bind_ok_inv in H as ([[x1 skips] f1] & g1 & E1 & H).
  apply bind_ok_inv in H as ([x2 d2] & g2 & E2 & H).
  apply bind_ok_inv in H as ([x3 f3] & g3 & E3 & H).
  now exists x0, g0, x1, skips, f1, g1, x2, d2, g2, x3, f3, g3.
Qed.

(** The convolutions that close [upsampling_block] raise nothing but
    [ValueError]. *)
Lemma upsampling_convs_no_assert x f p bn dr g a :
  fst (upsampling_convs x f p bn dr g) <> Raise (AssertionError a).
Proof.
  unfold upsampling_convs.
  match goal with
  | |- fst (bind (Conv2D _ _ _ ?d _) ?k0 _) <> _ =>
      destruct (Conv2D3_cases f p d x k0 g)
        as [[e E] | (pm & t & Hp & Ht & E)]; rewrite E; clear E
  end; [discriminate |].
  run_post a1 n1 Ha1 Hq1.
  match goal with
  | |- fst (bind (Conv2D _ _ _ ?d ?y) ?k0 ?g0) <> _ =>
      destruct (Conv2D3_cases f p d y k0 g0)
        as [[e E] | (pm' & t' & Hp' & Ht' & E)]; rewrite E; clear E
  end; [discriminate |].
  run_post a2 n2 Ha2 Hq2. discriminate.
Qed.

(* ================================================================== *)
(** ** The claims about [upsampling_block] *)
(* ================================================================== *)

(** C10.  In every upsampling stage, whatever the [padding] argument of
    the block, the transposed convolution is built with kernel (2, 2),
    strides (2, 2) and the library's default padding, not the configured
    one; it is the first node the block adds, it cannot fail when the
    filter count is not negative (the one thing Keras asks of it), and
    its output has exactly twice the height and twice the width of the
    block's input tensor. *)
Theorem C10_transposed_convolution_doubles x skip f p bn dr g :
  0 <= f ->
  exists rest,
    snd (upsampling_block x skip f p bn dr g)
    = g ++ mkNode (LConv2DTranspose f (2, 2) (2, 2) "valid") [x]
             (mkTensor (List.length g)
                (mkShape (2 * height (tshape x)) (2 * width (tshape x)) f))
        :: rest.
Proof.
  intros Hf. rewrite upsampling_block_unfold. cbv zeta.
  rewrite (ltb_nonneg _ Hf).
  fold (upsampled g x f). fold (upsampling_node g x f).
  destruct (h_crop x skip <? 0); [now exists [] |].
  destruct (w_crop x skip <? 0); [now exists [] |].
  match goal with
  | |- exists _, snd (upsampling_convs ?c f p bn dr ?g0) = _ =>
      destruct (grows_upsampling_convs c f p bn dr g0) as [rest E]
  end.
  rewrite E. rewrite <- !app_assoc. simpl. now eexists.
Qed.

Lemma C10_transposed_convolution_doubles_witness :
  exists rest,
    snd (upsampling_block (mkTensor 7 (mkShape 5 7 32))
           (mkTensor 3 (mkShape 10 14 16)) 16 "same" false 0 [])
    = [] ++ mkNode (LConv2DTranspose 16 (2, 2) (2, 2) "valid")
              [mkTensor 7 (mkShape 5 7 32)]
              (mkTensor 0 (mkShape (2 * 5) (2 * 7) 16))
         :: rest.
Proof.
  apply (C10_transposed_convolution_doubles (mkTensor 7 (mkShape 5 7 32))
           (mkTensor 3 (mkShape 10 14 16)) 16 "same" false 0 []).
  lia.
Defined.

(** C9.  In an upsampling stage, with [h_crop] and [w_crop] the skip
    tensor's height and width minus the upsampled tensor's: if either is
    negative the block raises [AssertionError] right after the
    transposed convolution (built, as it must be, with a filter count
    that is not negative), the only node it has built; if both are
    non-negative the block raises no [AssertionError]. *)
Theorem C9_crop_amounts_nonnegative x skip f p bn dr g :
  let u := upsampled g x f in
  let hc := height (tshape skip) - height (tshape u) in
  let wc := width (tshape skip) - width (tshape u) in
  (0 <= f -> hc < 0 \/ wc < 0 ->
   exists a,
     upsampling_block x skip f p bn dr g
     = (Raise (AssertionError a), g ++ [upsampling_node g x f]) /\
     (a = h_crop_nonneg \/ a = w_crop_nonneg)) /\
  (0 <= hc /\ 0 <= wc ->
   forall a,
     fst (upsampling_block x skip f p bn dr g) <> Raise (AssertionError a)).
Proof.
  intros u hc wc.
  change hc with (h_crop x skip). change wc with (w_crop x skip).
  rewrite upsampling_block_unfold. cbv zeta. split.
  - intros Hf H. rewrite (ltb_nonneg _ Hf).
    destruct (h_crop x skip <? 0) eqn:Eh.
    + exists h_crop_nonneg. split; [reflexivity | now left].
    + apply Z.ltb_ge in Eh. destruct (w_crop x skip <? 0) eqn:Ew.
      * exists w_crop_nonneg. split; [reflexivity | now right].
      * apply Z.ltb_ge in Ew. lia.
  - intros [Hh Hw] a. destruct (f <? 0); [discriminate |].
    rewrite (proj2 (Z.ltb_ge _ _) Hh), (proj2 (Z.ltb_ge _ _) Hw).
    apply upsampling_convs_no_assert.
Qed.

Lemma C9_crop_amounts_nonnegative_witness :
  exists a,
    upsampling_block (mkTensor 7 (mkShape 6 6 8)) (mkTensor 3 (mkShape 10 12 8))
      8 "valid" false 0 []
    = (Raise (AssertionError a),
       [] ++ [upsampling_node [] (mkTensor 7 (mkShape 6 6 8)) 8]) /\
    (a = h_crop_nonneg \/ a = w_crop_nonneg).
Proof.
  apply (proj1 (C9_crop_amounts_nonnegative
                  (mkTensor 7 (mkShape 6 6 8)) (mkTensor 3 (mkShape 10 12 8))
                  8 "valid" false 0 [])).
  - lia.
  - left. vm_compute. reflexivity.
Defined.

(** C3.  In an upsampling stage (whose filter count is not negative,
    or its transposed convolution would not exist) whose crop amounts
    [h_crop] and [w_crop] are non-negative: if both are zero, no cropping node is built and
    the skip tensor itself is concatenated with the upsampled tensor;
    otherwise one cropping node is built on the skip tensor, removing
    [h_crop / 2] rows at the top, [h_crop - h_crop / 2] at the bottom,
    [w_crop / 2] columns at the left and [w_crop - w_crop / 2] at the
    right (floor division), and its output is concatenated.  In both
    cases the tensor concatenated with the upsampled one has the
    upsampled tensor's height and width. *)
Theorem C3_center_crop x skip f p bn dr g :
  let u := upsampled g x f in
  let hc := height (tshape skip) - height (tshape u) in
  let wc := width (tshape skip) - width (tshape u) in
  0 <= f -> 0 <= hc -> 0 <= wc ->
  exists y c crop_nodes rest,
    snd (upsampling_block x skip f p bn dr g)
    = g ++ [upsampling_node g x f] ++ crop_nodes
        ++ [mkNode LConcatenate [u; y] c] ++ rest /\
    (hc = 0 /\ wc = 0 -> crop_nodes = [] /\ y = skip) /\
    (~ (hc = 0 /\ wc = 0) ->
     crop_nodes
     = [mkNode (LCropping2D ((hc / 2, hc - hc / 2), (wc / 2, wc - wc / 2)))
               [skip] y]) /\
    height (tshape y) = height (tshape u) /\
    width (tshape y) = width (tshape u).
Proof.
  intros u hc wc Hf Hh Hw.
  change hc with (h_crop x skip) in *. change wc with (w_crop x skip) in *.
  rewrite upsampling_block_unfold. cbv zeta.
  rewrite (ltb_nonneg _ Hf).
  rewrite (proj2 (Z.ltb_ge _ _) Hh), (proj2 (Z.ltb_ge _ _) Hw).
  set (g1 := g ++ [upsampling_node g x f]).
  match goal with
  | |- context [upsampling_convs ?c0 f p bn dr ?g0] =>
      destruct (grows_upsampling_convs c0 f p bn dr g0) as [rest E]
  end.
  exists (skip_operand g1 x skip),
         (concat_output (g1 ++ skip_nodes g1 x skip) u (skip_operand g1 x skip)),
         (skip_nodes g1 x skip), rest.
  split; [rewrite E; subst g1; now rewrite <- !app_assoc |].
  unfold skip_nodes, skip_operand, center_cropping.
  destruct (Z.eqb_spec (h_crop x skip) 0) as [E1 | E1];
    destruct (Z.eqb_spec (w_crop x skip) 0) as [E2 | E2]; cbn [andb];
    repeat split; try tauto.
  - unfold h_crop in E1. subst u. unfold upsampled.
    cbn [tshape height width]. lia.
  - unfold w_crop in E2. subst u. unfold upsampled.
    cbn [tshape height width]. lia.
Qed.

Lemma C3_center_crop_witness :
  exists y c crop_nodes rest,
    snd (upsampling_block (mkTensor 7 (mkShape 4 4 8))
           (mkTensor 3 (mkShape 11 9 8)) 8 "same" false 0 [])
    = [] ++ [upsampling_node [] (mkTensor 7 (mkShape 4 4 8)) 8] ++ crop_nodes
        ++ [mkNode LConcatenate
              [upsampled [] (mkTensor 7 (mkShape 4 4 8)) 8; y] c] ++ rest /\
    (3 = 0 /\ 1 = 0 -> crop_nodes = [] /\ y = mkTensor 3 (mkShape 11 9 8)) /\
    (~ (3 = 0 /\ 1 = 0) ->
     crop_nodes
     = [mkNode (LCropping2D ((1, 2), (0, 1)))
               [mkTensor 3 (mkShape 11 9 8)] y]) /\
    height (tshape y) = 8 /\
    width (tshape y) = 8.
Proof.
  apply (C3_center_crop (mkTensor 7 (mkShape 4 4 8))
           (mkTensor 3 (mkShape 11 9 8)) 8 "same" false 0 []);
    vm_compute; discriminate.
Defined.

(* ================================================================== *)
(** ** What a successful build has built *)
(* ================================================================== *)

Lemma range_from_range d : range_from 0 (List.length (range d)) = range d.
Proof. unfold range, range_from. now rewrite length_map, length_seq. Qed.

(** Everything the claims need to know about a build that returns. *)
Lemma dilated_unet_ok_spec h w c cl f d t p bn dr n g m g' :
  dilated_unet h w c cl f d t p bn dr n g = (Ok m, g') ->
  exists x1 skips f1 g1 nodes,
    tshape (inputs m) = mkShape h w c /\
    encoder d p bn dr (inputs m, [], f)
      (g ++ [mkNode (LInput (mkShape h w c)) [] (inputs m)])
    = (Ok (x1, skips, f1), g1) /\
    enc_chain p f (inputs m) skips x1 f1 /\
    List.length skips = Z.to_nat d /\
    g' = g ++ nodes /\
    pool_inputs nodes = skips /\
    Forall2 (consumes nodes) (concat_seconds nodes) (rev skips) /\
    transpose_filters nodes = rev (map (fun s => channels (tshape s)) skips) /\
    channels (tshape (outputs m)) = cl /\
    (normalize_padding p = Some same ->
     height (tshape (outputs m)) = h /\ width (tshape (outputs m)) = w) /\
    (skips <> [] ->
     exists pm, normalize_padding p = Some pm /\
       height (tshape (outputs m)) <= shrink pm 10 h /\
       width (tshape (outputs m)) <= shrink pm 10 w).
Proof.
  intros H. apply dilated_unet_ok_inv in H
    as (x0 & g0 & x1 & skips & f1 & g1 & x2 & d2 & g2 & x3 & f3 & g3
        & E0 & E1 & E2 & E3 & E4).
  apply Input_ok_inv in E0 as (Hx0 & -> & _).
  pose proof E1 as E1'. rewrite encoder_unfold in E1'.
  apply encoder_loop_ok_inv in E1'
    as (new & n1 & Hsk & Hch & Hlen & -> & Hpo1 & Hco1 & Htr1 & _).
  simpl in Hsk. subst skips.
  rewrite bottleneck_unfold in E2.
  apply (bottleneck_loop_spec f1 p bn dr (range n) x1 1 0%nat) in E2
    as (n2 & k & -> & _ & _ & Hpo2 & Hco2 & Htr2 & Hok).
  destruct (Hok _ _ eq_refl) as (_ & _ & Hsame2).
  rewrite decoder_unfold, <- range_from_range, <- Hlen in E3.
  replace new with ([] ++ new ++ []) in E3 at 2 by (now rewrite app_nil_r).
  apply (decoder_unwinds _ _ _ _ _ _ _ _ Hch [] []) in E3
    as (-> & n3 & -> & Htr3 & Hco3 & Hpo3 & Hsame3 & Hshr3).
  pose proof E4 as E4'. apply head_observations in E4'
    as (n4 & -> & Hpo4 & Hco4 & Htr4).
  apply head_ok_inv in E4 as (Hin & Hout & _). subst x0.
  exists x1, new, f1, (((g ++ [mkNode (LInput (mkShape h w c)) [] (inputs m)])
                        ++ n1)).
  exists ([mkNode (LInput (mkShape h w c)) [] (inputs m)]
          ++ n1 ++ n2 ++ n3 ++ n4).
  split; [exact Hx0 |]. split; [exact E1 |]. split; [exact Hch |].
  split; [rewrite Hlen; unfold range; now rewrite length_map, length_seq |].
  split; [now rewrite <- !app_assoc |].
  split.
  { rewrite !pool_inputs_app, Hpo1, Hpo2, Hpo3, Hpo4.
    simpl. now rewrite !app_nil_r. }
  split.
  { match goal with |- Forall2 (consumes ?N) _ _ => set (all := N) end.
    replace (concat_seconds all) with (concat_seconds n3).
    2:{ subst all. rewrite !concat_seconds_app, Hco1, Hco2, Hco4. simpl.
        now rewrite app_nil_r. }
    eapply Forall2_impl; [| exact Hco3]. intros a b Hab. subst all.
    apply consumes_app_r, consumes_app_r, consumes_app_r.
    now apply consumes_app. }
  split.
  { rewrite !transpose_filters_app, Htr1, Htr2, Htr3, Htr4. simpl.
    now rewrite app_nil_r. }
  split; [now rewrite Hout |].
  split.
  - intros Hs. specialize (Hsame2 Hs). specialize (Hsame3 Hs Hsame2).
    unfold spatial in Hsame3. injection Hsame3 as H1 H2.
    rewrite Hout, Hx0 in *. cbn [height width] in *. now split.
  - intros Hne. destruct (Hshr3 Hne) as (pm & Hp & H1 & H2).
    exists pm. rewrite Hout, Hx0 in *. cbn [height width] in *. now split.
Qed.

(* ================================================================== *)
(** ** The claims about the output and the skip connections *)
(* ================================================================== *)

(** C2.  Whenever [dilated_unet] returns a model, the channel count of
    its output tensor is [classes]; and when the padding mode is 'same',
    the output has the height and width of the input.  In particular the
    build with height 256, width 256, 1 channel, 5 classes, 'same'
    padding and depth 3 (other arguments at their defaults) returns a
    model whose output has shape (256, 256, 5). *)
Theorem C2_output_shape :
  (forall h w c cl f d t p bn dr n g m g',
     dilated_unet h w c cl f d t p bn dr n g = (Ok m, g') ->
     channels (tshape (outputs m)) = cl /\
     (normalize_padding p = Some same ->
      height (tshape (outputs m)) = h /\ width (tshape (outputs m)) = w)) /\
  (exists m g',
     dilated_unet 256 256 1 5 64 3 1 "same" false 0 5 [] = (Ok m, g') /\
     tshape (outputs m) = mkShape 256 256 5).
Proof.
  split.
  - intros h w c cl f d t p bn dr n g m g' H.
    apply dilated_unet_ok_spec in H
      as (x1 & skips & f1 & g1 & nodes & _ & _ & _ & _ & _ & _ & _ & _
          & Hc & Hs & _).
    now split.
  - eexists _, _. split; vm_compute; reflexivity.
Qed.

Lemma C2_output_shape_witness :
  channels (tshape (mkTensor 80 (mkShape 64 96 4))) = 4 /\
  (normalize_padding "Same" = Some same ->
   height (tshape (mkTensor 80 (mkShape 64 96 4))) = 64 /\
   width (tshape (mkTensor 80 (mkShape 64 96 4))) = 96).
Proof.
  apply (proj1 C2_output_shape 64 96 3 4 16 3 (1 # 2)%Q "Same"%string true
           (1 # 4)%Q 5 []
           (mkModel (mkTensor 0 (mkShape 64 96 3))
                    (mkTensor 80 (mkShape 64 96 4)))
           (snd (dilated_unet 64 96 3 4 16 3 (1 # 2) "Same" true (1 # 4) 5 []))).
  vm_compute. reflexivity.
Defined.

(** C7.  For every build that returns (with [depth >= 0], a number of
    stages): the skip list the encoder loop returns has length [depth];
    its elements are, in order, the tensors fed to the max-poolings; the
    decoder's concatenations consume them last to first, each one taking
    the skip tensor itself or a crop of it; the feature count given to
    encoder stage [i], which is the channel count of skip tensor [i], is
    [features * 2^i]; and the feature counts given to the transposed
    convolutions of the decoder, which runs over stages
    [depth-1, ..., 0], are the same sequence reversed, so decoder stage
    [i] and encoder stage [i] get the same feature count. *)
Theorem C7_skip_symmetry h w c cl f d t p bn dr n m g :
  0 <= d ->
  dilated_unet h w c cl f d t p bn dr n [] = (Ok m, g) ->
  exists x1 skips f1 g1,
    encoder d p bn dr (inputs m, [], f)
      [mkNode (LInput (mkShape h w c)) [] (inputs m)]
    = (Ok (x1, skips, f1), g1) /\
    Z.of_nat (List.length skips) = d /\
    pool_inputs g = skips /\
    Forall2 (consumes g) (concat_seconds g) (rev skips) /\
    map (fun s => channels (tshape s)) skips
    = map (fun i => f * 2 ^ i) (range d) /\
    transpose_filters g = rev (map (fun i => f * 2 ^ i) (range d)).
Proof.
  intros Hd H. apply dilated_unet_ok_spec in H
    as (x1 & skips & f1 & g1 & nodes & _ & E & Hch & Hlen & Hg & Hpo & Hco
        & Htr & _).
  simpl in Hg, E. subst g.
  destruct (enc_chain_channels _ _ _ _ _ _ Hch f 0%nat) as [Hc _].
  { simpl. lia. }
  rewrite Hlen in Hc. change (range_from 0 (Z.to_nat d)) with (range d) in Hc.
  exists x1, skips, f1, g1.
  split; [exact E |]. split; [lia |]. split; [exact Hpo |].
  split; [exact Hco |]. split; [exact Hc |]. now rewrite Htr, Hc.
Qed.

Lemma C7_skip_symmetry_witness :
  let g := snd (dilated_unet 64 96 3 4 16 3 1 "same" false 0 2 []) in
  let m := mkModel (mkTensor 0 (mkShape 64 96 3))
                   (mkTensor 40 (mkShape 64 96 4)) in
  exists x1 skips f1 g1,
    encoder 3 "same" false 0 (inputs m, [], 16)
      [mkNode (LInput (mkShape 64 96 3)) [] (inputs m)]
    = (Ok (x1, skips, f1), g1) /\
    Z.of_nat (List.length skips) = 3 /\
    pool_inputs g = skips /\
    Forall2 (consumes g) (concat_seconds g) (rev skips) /\
    map (fun s => channels (tshape s)) skips
    = map (fun i => 16 * 2 ^ i) (range 3) /\
    transpose_filters g = rev (map (fun i => 16 * 2 ^ i) (range 3)).
Proof.
  intros g m.
  apply (C7_skip_symmetry 64 96 3 4 16 3 1 "same" false 0 2 m g); [lia |].
  vm_compute. reflexivity.
Defined.

(* ================================================================== *)
(** ** The claims about builds that fail, or were said to *)
(* ================================================================== *)

(** The scenario of C8 does not build: the first downsampling block
    leaves a 139x139 tensor, and the second block's assertion on the
    height fails. *)
Lemma C8_counterexample :
  fst (dilated_unet 284 284 3 2 64 4 1 "valid" false 0 5 [])
  = Raise (AssertionError height_even).
Proof. vm_compute. reflexivity. Qed.

(** C8, amended.  The build with height 284, width 284, 3 channels,
    2 classes, depth 4 and 'valid' padding raises [AssertionError]: the
    first encoder stage builds its two convolutions and pools their
    278x278 output to 139x139, and the second stage refuses that odd
    size.  Every build with 'valid' padding and [depth >= 1] that does
    return has an output strictly smaller than the input in height and
    in width (by at least 10). *)
Theorem C8_valid_padding :
  (exists g,
     dilated_unet 284 284 3 2 64 4 1 "valid" false 0 5 []
     = (Raise (AssertionError height_even), g) /\
     List.length (conv_layers g) = 2%nat /\
     option_map (fun nd => tshape (noutput nd)) (nth_error g 5)
     = Some (mkShape 139 139 64) /\
     List.length g = 6%nat) /\
  (forall h w c cl f d t p bn dr n g m g',
     normalize_padding p = Some valid ->
     1 <= d ->
     dilated_unet h w c cl f d t p bn dr n g = (Ok m, g') ->
     height (tshape (outputs m)) <= h - 10 /\
     width (tshape (outputs m)) <= w - 10 /\
     height (tshape (outputs m)) < h /\
     width (tshape (outputs m)) < w).
Proof.
  split.
  - eexists. split; [vm_compute; reflexivity |]. now repeat split.
  - intros h w c cl f d t p bn dr n g m g' Hp Hd H.
    apply dilated_unet_ok_spec in H
      as (x1 & skips & f1 & g1 & nodes & _ & _ & _ & Hlen & _ & _ & _ & _
          & _ & _ & Hshr).
    destruct Hshr as (pm & Hp' & H1 & H2).
    { intros ->. simpl in Hlen. lia. }
    rewrite Hp in Hp'. injection Hp' as <-. simpl in H1, H2. lia.
Qed.

Lemma C8_valid_padding_witness :
  height (tshape (mkTensor 61 (mkShape 4 4 2))) <= 1146 - 10 /\
  width (tshape (mkTensor 61 (mkShape 4 4 2))) <= 1146 - 10 /\
  height (tshape (mkTensor 61 (mkShape 4 4 2))) < 1146 /\
  width (tshape (mkTensor 61 (mkShape 4 4 2))) < 1146.
Proof.
  apply (proj2 C8_valid_padding 1146 1146 3 2 64 4 1%Q "valid"%string false
           0%Q 5 []
           (mkModel (mkTensor 0 (mkShape 1146 1146 3))
                    (mkTensor 61 (mkShape 4 4 2)))
           (snd (dilated_unet 1146 1146 3 2 64 4 1 "valid" false 0 5 []))).
  - reflexivity.
  - lia.
  - vm_compute. reflexivity.
Defined.

(** The two ways in which C1 fails.  With 'same' padding, height 100
    and depth 3, the build does raise, but only at the third stage: four
    convolutions have been built by then.  With 'valid' padding, height
    and width 282 and depth 2, the build returns although 282 is not
    divisible by 4. *)
Lemma C1_counterexample :
  (1 <= 3 /\ ~ (2 ^ 3 | 100) /\
   exists g,
     dilated_unet 100 128 1 5 64 3 1 "same" false 0 5 []
     = (Raise (AssertionError height_even), g) /\
     List.length (conv_layers g) = 4%nat) /\
  (1 <= 2 /\ ~ (2 ^ 2 | 282) /\
   exists m g,
     dilated_unet 282 282 1 5 64 2 1 "valid" false 0 5 [] = (Ok m, g)).
Proof.
  split; (split; [lia |]); split.
  - intros [c Hc]. change (2 ^ 3) with 8 in Hc. lia.
  - eexists. split; [vm_compute; reflexivity | reflexivity].
  - intros [c Hc]. change (2 ^ 2) with 4 in Hc. lia.
  - eexists _, _. vm_compute. reflexivity.
Qed.

(** The first encoder stage on an input with an odd height or width:
    whatever the padding string and the feature count, its assertion
    fails before anything is built. *)
Lemma encoder_odd_input p bn dr d x skips f g :
  1 <= d ->
  height (tshape x) mod 2 <> 0 \/ width (tshape x) mod 2 <> 0 ->
  encoder d p bn dr (x, skips, f) g
  = (Raise (AssertionError (if height (tshape x) mod 2 =? 0
                            then width_even else height_even)), g).
Proof.
  intros Hd Hodd. rewrite encoder_unfold. unfold range.
  destruct (Z.to_nat d) as [|k] eqn:Ek; [lia |].
  change (map Z.of_nat (seq 0 (S k))) with (range_from 0 (S k)).
  rewrite range_from_S, for_in_cons. apply bind_raise.
  unfold encoder_body. apply bind_raise.
  destruct (Z.eqb_spec (height (tshape x) mod 2) 0) as [Eh | Eh].
  - apply downsampling_block_odd_width; [exact Eh | tauto].
  - now apply downsampling_block_odd_height.
Qed.

(** C1, amended.  For every [depth >= 1], whatever the padding string:
    if the height or the width is odd, [dilated_unet] raises
    [AssertionError] from the first assertion of the first
    [downsampling_block] that fails, when only the input placeholder
    exists; no convolution has been built and no model is returned.
    With 'same' padding, positive height and width and a feature count
    that is not negative: if the height or the width is not divisible
    by [2^depth], [dilated_unet] raises [AssertionError] from one of the
    two assertions of [downsampling_block] and returns no model.  The
    failing stage is stage [k < depth], the first whose input has an
    odd size ([2^k] divides both sizes, [2^(k+1)] does not): that stage
    has built nothing, the [k] stages before it have built their
    [2 * k] convolutions.  So the error comes before any convolution
    exactly when the height or the width itself is odd. *)
Theorem C1_same_padding_divisibility :
  (forall h w c cl f d t p bn dr n,
     1 <= d -> 0 <= h -> 0 <= w -> 0 <= c ->
     h mod 2 <> 0 \/ w mod 2 <> 0 ->
     dilated_unet h w c cl f d t p bn dr n []
     = (Raise (AssertionError (if h mod 2 =? 0
                               then width_even else height_even)),
        [input_node (mkShape h w c)])) /\
  (forall h w c cl f d t p bn dr n,
     normalize_padding p = Some same ->
     1 <= d -> 0 < h -> 0 < w -> 0 <= c -> 0 <= f ->
     ~ ((2 ^ d | h) /\ (2 ^ d | w)) ->
     exists a g k,
       dilated_unet h w c cl f d t p bn dr n []
       = (Raise (AssertionError a), g) /\
       (a = height_even \/ a = width_even) /\
       0 <= k < d /\
       Z.of_nat (List.length (conv_layers g)) = 2 * k /\
       (2 ^ k | h) /\ (2 ^ k | w) /\
       ~ ((2 ^ (k + 1) | h) /\ (2 ^ (k + 1) | w))).
Proof.
  split.
  - intros h w c cl f d t p bn dr n Hd Hh Hw Hc Hodd.
    rewrite dilated_unet_unfold.
    rewrite (bind_ok _ _ _ _ _ (Input_run (mkShape h w c) Hh Hw Hc)).
    apply bind_raise.
    now rewrite encoder_odd_input.
  - intros h w c cl f d t p bn dr n Hp Hd Hh Hw Hc Hf Hn.
    rewrite dilated_unet_unfold.
    rewrite (bind_ok _ _ _ _ _ (Input_run (mkShape h w c) ltac:(simpl; lia)
                                  ltac:(simpl; lia) Hc)).
    rewrite encoder_unfold.
    destruct (encoder_loop_same_fail p bn dr Hp (range d)
                (input_tensor (mkShape h w c)) [] f
                [input_node (mkShape h w c)] Hf)
      as (a & nodes & k & E & Ha & Hk & Hcv & D1 & D2 & D3);
      try (simpl; lia).
    { unfold range. rewrite length_map, length_seq, Z2Nat.id by lia.
      exact Hn. }
    unfold range in Hk. rewrite length_map, length_seq in Hk.
    simpl in D1, D2, D3.
    exists a, ([input_node (mkShape h w c)] ++ nodes), (Z.of_nat k).
    split; [now rewrite (bind_raise _ _ _ _ _ E) |].
    split; [exact Ha |]. split; [lia |].
    split.
    { rewrite conv_layers_app, length_app, Hcv.
      change (conv_layers [input_node (mkShape h w c)]) with (@nil layer).
      cbn [List.length]. lia. }
    split; [exact D1 |]. split; [exact D2 |].
    replace (Z.of_nat k + 1) with (Z.of_nat (S k)) by lia. exact D3.
Qed.

Lemma C1_same_padding_divisibility_witness :
  dilated_unet 15 32 1 2 64 3 1 "valid" false 0 5 []
  = (Raise (AssertionError (if 15 mod 2 =? 0
                            then width_even else height_even)),
     [input_node (mkShape 15 32 1)]) /\
  exists a g k,
    dilated_unet 100 128 1 5 64 3 1 "same" false 0 5 []
    = (Raise (AssertionError a), g) /\
    (a = height_even \/ a = width_even) /\
    0 <= k < 3 /\
    Z.of_nat (List.length (conv_layers g)) = 2 * k /\
    (2 ^ k | 100) /\ (2 ^ k | 128) /\
    ~ ((2 ^ (k + 1) | 100) /\ (2 ^ (k + 1) | 128)).
Proof.
  split.
  - apply (proj1 C1_same_padding_divisibility 15 32 1 2 64 3 1%Q
             "valid"%string false 0%Q 5); try lia.
    left. vm_compute. discriminate.
  - apply (proj2 C1_same_padding_divisibility 100 128 1 5 64 3 1%Q
             "same"%string false 0%Q 5);
      try reflexivity; try lia.
    intros [[q Hq] _]. change (2 ^ 3) with 8 in Hq. lia.
Defined.

Lemma bind_fst_ext {A B} (m : M A) (k k' : A -> M B) g :
  (forall a g1, fst (k a g1) = fst (k' a g1)) ->
  fst (bind m k g) = fst (bind m k' g).
Proof.
  intros H. unfold bind. destruct (m g) as [[a|e] g1]; [apply H | reflexivity].
Qed.

(** With temperature 0 the scenario of C2 builds all the same; the last
    two nodes of the graph are the division by 0 and the softmax. *)
Lemma C4_counterexample :
  exists m g,
    dilated_unet 256 256 1 5 64 3 0 "same" false 0 5 [] = (Ok m, g) /\
    tshape (outputs m) = mkShape 256 256 5 /\
    map nlayer (skipn 45 g) = [LLambda (DivideBy 0); LActivation "softmax"].
Proof. eexists _, _. split; [vm_compute; reflexivity |]. now split. Qed.

(** C4, amended.  [dilated_unet] never inspects [temperature]: whether
    it returns or raises, and what, is the same for every temperature,
    0 included; the temperature is only stored in the [Lambda] node.
    A build with temperature 0 that returns has built that node, which
    divides by 0, and the softmax activation after it, whose output is
    the model's output. *)
Theorem C4_temperature_unchecked :
  (forall h w c cl f d t t' p bn dr n g,
     fst (dilated_unet h w c cl f d t p bn dr n g)
     = fst (dilated_unet h w c cl f d t' p bn dr n g)) /\
  (forall h w c cl f d p bn dr n g m g',
     dilated_unet h w c cl f d 0 p bn dr n g = (Ok m, g') ->
     exists nodes x l,
       g' = nodes ++ [mkNode (LLambda (DivideBy 0)) [x] l;
                      mkNode (LActivation "softmax") [l] (outputs m)]).
Proof.
  split.
  - intros h w c cl f d t t' p bn dr n g. rewrite !dilated_unet_unfold.
    apply bind_fst_ext. intros x0 g0.
    apply bind_fst_ext. intros [[x1 skips] f1] g1.
    apply bind_fst_ext. intros [x2 d2] g2.
    apply bind_fst_ext. intros [x3 f3] g3.
    apply head_temperature.
  - intros h w c cl f d p bn dr n g m g' H.
    apply dilated_unet_ok_inv in H
      as (x0 & g0 & x1 & skips & f1 & g1 & x2 & d2 & g2 & x3 & f3 & g3
          & _ & _ & _ & _ & E).
    apply head_ok_inv in E as (_ & _ & cv & l & ->).
    exists (g3 ++ [mkNode (LConv2D cl (1, 1) "valid" 1) [x3] cv]), cv, l.
    now rewrite <- app_assoc.
Qed.

Lemma C4_temperature_unchecked_witness :
  exists nodes x l,
    snd (dilated_unet 256 256 1 5 64 3 0 "same" false 0 5 [])
    = nodes ++ [mkNode (LLambda (DivideBy 0)) [x] l;
                mkNode (LActivation "softmax") [l]
                       (mkTensor 46 (mkShape 256 256 5))].
Proof.
  apply (proj2 C4_temperature_unchecked 256 256 1 5 64 3 "same"%string false
           0%Q 5 []
           (mkModel (mkTensor 0 (mkShape 256 256 1))
                    (mkTensor 46 (mkShape 256 256 5)))).
  vm_compute. reflexivity.
Defined.

Lemma enc_chain_features p f x new x' f' :
  enc_chain p f x new x' f' -> 0 <= f -> 0 <= f'.
Proof.
  induction 1 as [f x | f x sk pl rest x' f' pm Hp Eh Ew Hsk Hh2 Hw2 Hpl Hch IH];
    intros Hf; [exact Hf | apply IH; lia].
Qed.

(** Under 'same' padding, on positive sizes divisible by
    [2^max(depth, 0)], with counts of channels, classes and features
    that are not negative, the build returns: nothing else about the
    arguments matters. *)
Lemma dilated_unet_same_run h w c cl f d t p bn dr n :
  normalize_padding p = Some same ->
  0 < h -> 0 < w -> 0 <= c -> 0 <= cl -> 0 <= f ->
  (2 ^ Z.max 0 d | h) -> (2 ^ Z.max 0 d | w) ->
  exists m g, dilated_unet h w c cl f d t p bn dr n [] = (Ok m, g).
Proof.
  intros Hp Hh Hw Hc Hcl Hf Dh Dw.
  rewrite dilated_unet_unfold.
  rewrite (bind_ok _ _ _ _ _ (Input_run (mkShape h w c) ltac:(simpl; lia)
                                ltac:(simpl; lia) Hc)).
  assert (Hl : Z.of_nat (List.length (range d)) = Z.max 0 d).
  { unfold range. rewrite length_map, length_seq. lia. }
  destruct (encoder_loop_same_run p bn dr Hp (range d)
              (input_tensor (mkShape h w c)) [] f
              [input_node (mkShape h w c)] Hf)
    as (x1 & skips & f1 & g1 & E1 & Hh1 & Hw1);
    try (simpl; lia); try (rewrite Hl; assumption).
  pose proof E1 as E1'.
  apply encoder_loop_ok_inv in E1'
    as (new & n1 & Hsk & Hch & Hlen & -> & _).
  simpl in Hsk. subst skips.
  rewrite encoder_unfold, (bind_ok _ _ _ _ _ E1).
  rewrite bottleneck_unfold.
  pose proof (enc_chain_features _ _ _ _ _ _ Hch Hf) as Hf1.
  destruct (bottleneck_loop_same_run f1 p bn dr (range n) Hp Hf1 x1 1
              ([input_node (mkShape h w c)] ++ n1))
    as (x2 & d2 & g2 & E2).
  rewrite (bind_ok _ _ _ _ _ E2).
  apply (bottleneck_loop_spec f1 p bn dr (range n) x1 1 0%nat) in E2
    as (n2 & k & -> & _ & _ & _ & _ & _ & Hok).
  destruct (Hok _ _ eq_refl) as (_ & _ & Hsame2). specialize (Hsame2 Hp).
  destruct (decoder_same_run p bn dr _ _ _ _ _ Hch Hp Hf [] [] x2
              (([input_node (mkShape h w c)] ++ n1) ++ n2) Hsame2)
    as (x3 & f3 & g3 & E3).
  pose proof E3 as E3'.
  apply (decoder_unwinds _ _ _ _ _ _ _ _ Hch [] []) in E3'
    as (_ & _ & _ & _ & _ & _ & Hsame3 & _).
  specialize (Hsame3 Hp Hsame2). unfold spatial in Hsame3.
  injection Hsame3 as H1 H2. simpl in H1, H2.
  rewrite app_nil_r in E3. simpl List.length in E3.
  rewrite Hlen, range_from_range in E3.
  rewrite decoder_unfold, (bind_ok _ _ _ _ _ E3).
  apply head_run; lia.
Qed.

(** Builds that return although, by C5, they should not: every argument
    C5 names is invalid in the first (a padding mode nobody knows, with
    both loops empty, is never even read); in the second the padding is
    fine and temperature, dropout and [dilation_layers] are not. *)
Lemma C5_counterexample :
  (normalize_padding "bogus" = None /\
   exists m g,
     dilated_unet 16 16 1 5 64 0 (-1) "bogus" false (-1 # 2) 0 []
     = (Ok m, g)) /\
  (exists m g,
     dilated_unet 16 16 1 5 64 2 (-1) "same" true (-1 # 2) (-4) []
     = (Ok m, g)).
Proof.
  split; [split; [reflexivity |] |]; eexists _, _; vm_compute; reflexivity.
Qed.

(** C5, amended.  [dilated_unet] checks none of its arguments itself.
    An unrecognized padding mode raises [ValueError] from the first
    convolution built with it, when only the input placeholder exists:
    in the first downsampling block, after its assertions, when
    [depth >= 1], and in the bottleneck when [depth <= 0] and
    [dilation_layers >= 1].  No value of [temperature], [dropout],
    [depth] or [dilation_layers] is refused: with 'same' padding,
    positive sizes divisible by [2^max(depth, 0)] and counts of
    channels, classes and features that are not negative, the build
    returns whatever they are ([depth <= 0] and [dilation_layers <= 0]
    give empty loops). *)
Theorem C5_configuration_unchecked :
  (forall h w c cl f d t p bn dr n,
     normalize_padding p = None ->
     0 <= h -> 0 <= w -> 0 <= c ->
     (1 <= d /\ h mod 2 = 0 /\ w mod 2 = 0) \/ (d <= 0 /\ 1 <= n) ->
     dilated_unet h w c cl f d t p bn dr n []
     = (Raise (ValueError invalid_padding), [input_node (mkShape h w c)])) /\
  (forall h w c cl f d t p bn dr n,
     normalize_padding p = Some same ->
     0 < h -> 0 < w -> 0 <= c -> 0 <= cl -> 0 <= f ->
     (2 ^ Z.max 0 d | h) -> (2 ^ Z.max 0 d | w) ->
     exists m g, dilated_unet h w c cl f d t p bn dr n [] = (Ok m, g)).
Proof.
  split; [| exact dilated_unet_same_run].
  intros h w c cl f d t p bn dr n Hp Hh Hw Hc Hcase.
  rewrite dilated_unet_unfold.
  rewrite (bind_ok _ _ _ _ _ (Input_run (mkShape h w c) Hh Hw Hc)).
  destruct Hcase as [(Hd & Eh & Ew) | (Hd & Hn)].
  - rewrite encoder_unfold. unfold range.
    destruct (Z.to_nat d) as [|k] eqn:Ek; [lia |].
    change (map Z.of_nat (seq 0 (S k))) with (range_from 0 (S k)).
    rewrite range_from_S.
    apply bind_raise. rewrite for_in_cons. apply bind_raise.
    unfold encoder_body. apply bind_raise.
    now apply downsampling_block_bad_padding.
  - rewrite encoder_unfold, range_nonpos by exact Hd.
    unfold for_in at 1. unfold bind at 1. unfold ret at 1.
    rewrite bottleneck_unfold. unfold range.
    destruct (Z.to_nat n) as [|k] eqn:Ek; [lia |].
    change (map Z.of_nat (seq 0 (S k))) with (range_from 0 (S k)).
    rewrite range_from_S.
    apply bind_raise. rewrite for_in_cons. apply bind_raise.
    unfold bottleneck_body. now apply Conv2D_bad_padding.
Qed.

Lemma C5_configuration_unchecked_witness :
  exists m g,
    dilated_unet 16 24 1 5 64 (-2) (-1) "same" true (3 # 2) (-1) []
    = (Ok m, g).
Proof.
  apply (proj2 C5_configuration_unchecked 16 24 1 5 64 (-2) (-1)%Q
           "same"%string true (3 # 2)%Q (-1)); try reflexivity; try lia.
  - exists 16. reflexivity.
  - exists 24. reflexivity.
Defined.

(* ================================================================== *)
(** ** The crop assertions never fire inside [dilated_unet] *)
(* ================================================================== *)

Lemma MaxPooling2D_cases {B} x (k : tensor -> M B) g :
  bind (MaxPooling2D (2, 2) x) k g = (Raise (ValueError negative_dimension), g)
  \/ exists t, bind (MaxPooling2D (2, 2) x) k g
               = k t (g ++ [mkNode (LMaxPooling2D (2, 2)) [x] t]).
Proof.
  unfold bind, MaxPooling2D. destruct (_ && _); [right | left]; simpl.
  - now eexists.
  - reflexivity.
Qed.

(** The exceptions [downsampling_block] can raise. *)
Lemma downsampling_block_raises x f p bn dr g e g' :
  downsampling_block x f p bn dr g = (Raise e, g') ->
  e = AssertionError height_even \/ e = AssertionError width_even \/
  exists v, e = ValueError v.
Proof.
  destruct (Z.eq_dec (height (tshape x) mod 2) 0) as [Eh | Eh].
  2:{ rewrite downsampling_block_odd_height by exact Eh.
      intros H. injection H as <- _. now left. }
  destruct (Z.eq_dec (width (tshape x) mod 2) 0) as [Ew | Ew].
  2:{ rewrite downsampling_block_odd_width by assumption.
      intros H. injection H as <- _. right. now left. }
  unfold downsampling_block, int_shape.
  rewrite !assert_true by now apply mod2_eqb_true.
  intros H. right. right.
  match type of H with
  | bind (Conv2D _ _ _ ?d ?y) ?k0 ?g0 = _ =>
      destruct (Conv2D3_cases f p d y k0 g0)
        as [[v E] | (pm & t & Hp & Ht & E)]; rewrite E in H; clear E
  end; [injection H as <- _; now eexists |].
  step_post H a1 n1 Ha1 Hq1.
  match type of H with
  | bind (Conv2D _ _ _ ?d ?y) ?k0 ?g0 = _ =>
      destruct (Conv2D3_cases f p d y k0 g0)
        as [[v E] | (pm' & t' & Hp' & Ht' & E)]; rewrite E in H; clear E
  end; [injection H as <- _; now eexists |].
  step_post H a2 n2 Ha2 Hq2.
  match type of H with
  | bind (MaxPooling2D _ ?y) ?k0 ?g0 = _ =>
      destruct (MaxPooling2D_cases y k0 g0) as [E | [pt E]];
        rewrite E in H; clear E
  end; [injection H as <- _; now eexists | discriminate].
Qed.

Lemma encoder_loop_raises p bn dr (l : list Z) :
  forall s g e g',
    for_in l (encoder_body p bn dr) s g = (Raise e, g') ->
    e = AssertionError height_even \/ e = AssertionError width_even \/
    exists v, e = ValueError v.
Proof.
  induction l as [|v l IH]; intros [[x skips] f] g e g' H.
  - discriminate.
  - rewrite for_in_cons in H. unfold bind at 1 in H.
    unfold encoder_body at 1 in H. unfold bind at 1 in H.
    destruct (downsampling_block x f p bn dr g) as [[[pl sk]|e1] g1] eqn:E.
    + unfold ret at 1 in H. now apply IH in H.
    + injection H as <- _. now apply downsampling_block_raises in E.
Qed.

Lemma bottleneck_loop_raises f p bn dr (l : list Z) :
  forall s g e g',
    for_in l (bottleneck_body f p bn dr) s g = (Raise e, g') ->
    exists v, e = ValueError v.
Proof.
  induction l as [|v l IH]; intros [x d] g e g' H.
  - discriminate.
  - rewrite for_in_cons in H. unfold bind at 1 in H.
    destruct (bottleneck_body_cases f p bn dr v x d g)
      as [[e1 E] | (pm & t & a & n1 & Hp & Ha & Hq & E)];
      rewrite E in H; clear E.
    + injection H as <- _. now eexists.
    + now apply IH in H.
Qed.

(** The bottleneck does not enlarge its input when the dilation rates
    are not negative. *)
Lemma bottleneck_loop_shrinks f p bn dr (l : list Z) :
  forall x d g x' d' g',
    0 <= d ->
    for_in l (bottleneck_body f p bn dr) (x, d) g = (Ok (x', d'), g') ->
    height (tshape x') <= height (tshape x) /\
    width (tshape x') <= width (tshape x).
Proof.
  induction l as [|v l IH]; intros x d g x' d' g' Hd H.
  - apply ret_ok_inv in H as [H _]. injection H as <- _. lia.
  - rewrite for_in_cons in H. unfold bind at 1 in H.
    destruct (bottleneck_body_cases f p bn dr v x d g)
      as [[e1 E] | (pm & t & a & n1 & Hp & Ha & Hq & E)];
      rewrite E in H; clear E; [discriminate |].
    apply IH in H; [| lia]. rewrite Ha in H. cbn [height width] in H.
    unfold shrink in H. destruct pm; lia.
Qed.

Lemma head_raises x0 x cl t g e g' :
  head x0 x cl t g = (Raise e, g') -> exists v, e = ValueError v.
Proof.
  unfold head, bind, Conv2D, Lambda, Activation, add_node, ret, raise.
  change (normalize_padding "valid") with (Some valid). cbv beta iota zeta.
  destruct (_ && _); [discriminate |].
  intros H. injection H as <- _. now eexists.
Qed.

(** Run over the stages of an [enc_chain] from a tensor no larger than
    the encoder's last output, the decoder loop raises no
    [AssertionError], and what it returns is no larger than the
    encoder's input. *)
Lemma decoder_no_assert p bn dr f x new x' f' :
  enc_chain p f x new x' f' ->
  forall prefix suffix y fy g r g',
    height (tshape y) <= height (tshape x') ->
    width (tshape y) <= width (tshape x') ->
    for_in (rev (range_from (List.length prefix) (List.length new)))
      (decoder_body (prefix ++ new ++ suffix) p bn dr) (y, fy) g
    = (r, g') ->
    (forall a, r <> Raise (AssertionError a)) /\
    (forall z fz, r = Ok (z, fz) ->
       height (tshape z) <= height (tshape x) /\
       width (tshape z) <= width (tshape x)).
Proof.
  induction 1 as [f x | f x sk pl rest x' f' pm Hp Eh Ew Hsk Hh2 Hw2 Hpl Hch IH];
    intros prefix suffix y fy g r g' Hyh Hyw H.
  - injection H as <- _. split; [discriminate |].
    intros z fz Hz. injection Hz as <- _. now split.
  - simpl List.length in H. rewrite rev_range_from_S, for_in_app in H.
    unfold bind at 1 in H.
    replace (prefix ++ (sk :: rest) ++ suffix)
      with ((prefix ++ [sk]) ++ rest ++ suffix) in H
      by (now rewrite <- app_assoc).
    replace (S (List.length prefix)) with (List.length (prefix ++ [sk])) in H
      by (rewrite length_app; simpl; lia).
    match type of H with
    | (let (_, _) := ?run in _) = _ => destruct run as [r1 g1] eqn:E1
    end.
    apply IH in E1 as [Hna Hle]; try assumption.
    destruct r1 as [[z1 f1] | e1].
    2:{ injection H as <- _. split; [exact Hna | discriminate]. }
    destruct (Hle _ _ eq_refl) as [Hz1 Hz2].
    rewrite Hpl in Hz1, Hz2. cbn [height width] in Hz1, Hz2.
    rewrite for_in_cons in H. unfold bind at 1 in H.
    unfold decoder_body at 1 in H.
    rewrite <- app_assoc in H.
    change ([sk] ++ rest ++ suffix) with (sk :: rest ++ suffix) in H.
    rewrite (py_getitem_nth _ _ sk) in H by apply nth_error_middle.
    unfold bind at 1 in H. unfold ret at 1 in H. unfold bind at 1 in H.
    rewrite upsampling_block_unfold in H. cbv zeta in H.
    match type of H with
    | context [if ?c <? 0 then (Raise (ValueError negative_dimension), _)
               else _] => destruct (c <? 0) eqn:Ef
    end.
    { cbv iota in H. injection H as <- _. split; discriminate. }
    assert (Hhc : 0 <= h_crop z1 sk).
    { unfold h_crop. pose proof (Z.div_mod (height (tshape sk)) 2).
      pose proof (Z.mod_pos_bound (height (tshape sk)) 2). lia. }
    assert (Hwc : 0 <= w_crop z1 sk).
    { unfold w_crop. pose proof (Z.div_mod (width (tshape sk)) 2).
      pose proof (Z.mod_pos_bound (width (tshape sk)) 2). lia. }
    rewrite (proj2 (Z.ltb_ge _ _) Hhc), (proj2 (Z.ltb_ge _ _) Hwc) in H.
    match type of H with
    | context [upsampling_convs ?c0 ?f0 p bn dr ?g0] =>
        pose proof (upsampling_convs_no_assert c0 f0 p bn dr g0) as Hno;
        destruct (upsampling_convs c0 f0 p bn dr g0) as [[out | e2] g2] eqn:E2
    end.
    + apply upsampling_convs_ok_inv in E2
        as (pm' & n2 & Hp' & Hout & _).
      rewrite Hp in Hp'. injection Hp' as <-.
      cbn [for_in] in H. unfold ret in H. injection H as <- _.
      split; [discriminate |].
      intros z fz Hz. injection Hz as <- _.
      rewrite Hout. cbn [tshape height width concat_output upsampled].
      unfold h_crop, w_crop in Hhc, Hwc. rewrite Hsk in Hhc, Hwc.
      cbn [height width] in Hhc, Hwc.
      unfold shrink in *. destruct pm; lia.
    + injection H as <- _. split; [| discriminate].
      intros a Ha. apply (Hno a). simpl. injection Ha as ->. reflexivity.
Qed.

(** Whatever the arguments, a build never fails on the crop assertions
    of [upsampling_block]: inside [dilated_unet] the upsampled tensor is
    never larger than the skip tensor it meets. *)
Theorem crop_assertions_unreachable h w c cl f d t p bn dr n g :
  fst (dilated_unet h w c cl f d t p bn dr n g)
  <> Raise (AssertionError h_crop_nonneg) /\
  fst (dilated_unet h w c cl f d t p bn dr n g)
  <> Raise (AssertionError w_crop_nonneg).
Proof.
  assert (H : forall a, a = h_crop_nonneg \/ a = w_crop_nonneg ->
                fst (dilated_unet h w c cl f d t p bn dr n g)
                <> Raise (AssertionError a)).
  2:{ split; apply H; auto. }
  intros a Ha. rewrite dilated_unet_unfold. unfold bind at 1.
  destruct (Input (mkShape h w c) g) as [[x0 | e0] g0] eqn:E0.
  2:{ unfold Input in E0. destruct (_ && _); [discriminate |].
      injection E0 as <- _. discriminate. }
  unfold bind at 1.
  destruct (encoder d p bn dr (x0, [], f) g0) as [[[[x1 skips] f1] | e1] g1]
    eqn:E1.
  2:{ rewrite encoder_unfold in E1. apply encoder_loop_raises in E1.
      simpl. intros He. destruct E1 as [-> | [-> | [v ->]]];
        destruct Ha as [-> | ->]; discriminate. }
  rewrite encoder_unfold in E1.
  apply encoder_loop_ok_inv in E1
    as (new & n1 & Hsk & Hch & Hlen & -> & _).
  simpl in Hsk. subst skips.
  unfold bind at 1.
  destruct (bottleneck n f1 p bn dr (x1, 1) (g0 ++ n1))
    as [[[x2 d2] | e2] g2] eqn:E2.
  2:{ rewrite bottleneck_unfold in E2. apply bottleneck_loop_raises in E2
        as [v ->]. discriminate. }
  rewrite bottleneck_unfold in E2.
  apply bottleneck_loop_shrinks in E2 as [Hx2h Hx2w]; [| lia].
  unfold bind at 1.
  destruct (decoder d new p bn dr (x2, f1) g2) as [r3 g3] eqn:E3.
  rewrite decoder_unfold, <- range_from_range, <- Hlen in E3.
  replace new with ([] ++ new ++ []) in E3 at 2 by (now rewrite app_nil_r).
  apply (decoder_no_assert _ _ _ _ _ _ _ _ Hch [] []) in E3
    as [Hna _]; try assumption.
  destruct r3 as [[x3 f3] | e3].
  - destruct (head x0 x3 cl t g3) as [[m | e4] g4] eqn:E4; [discriminate |].
    apply head_raises in E4 as [v ->]. discriminate.
  - simpl. intros He. injection He as ->. now apply (Hna a).
Qed.

(* ================================================================== *)
(** ** The exceptions a build can raise *)
(* ================================================================== *)

(** The convolutions that close [upsampling_block] raise [ValueError]
    only. *)
Lemma upsampling_convs_raises x f p bn dr g e g' :
  upsampling_convs x f p bn dr g = (Raise e, g') -> exists v, e = ValueError v.
Proof.
  unfold upsampling_convs. intros H.
  match type of H with
  | bind (Conv2D _ _ _ ?d ?y) ?k0 ?g0 = _ =>
      destruct (Conv2D3_cases f p d y k0 g0)
        as [[v E] | (pm & t & Hp & Ht & E)]; rewrite E in H; clear E
  end; [injection H as <- _; now eexists |].
  step_post H a1 n1 Ha1 Hq1.
  match type of H with
  | bind (Conv2D _ _ _ ?d ?y) ?k0 ?g0 = _ =>
      destruct (Conv2D3_cases f p d y k0 g0)
        as [[v E] | (pm' & t' & Hp' & Ht' & E)]; rewrite E in H; clear E
  end; [injection H as <- _; now eexists |].
  step_post H a2 n2 Ha2 Hq2. discriminate.
Qed.

(** Run over the stages of an [enc_chain] from a tensor no larger than
    the encoder's last output, the decoder loop finds every skip tensor
    it indexes and passes both crop assertions: it can only fail inside
    a convolution. *)
Lemma decoder_raises p bn dr f x new x' f' :
  enc_chain p f x new x' f' ->
  forall prefix suffix y fy g e g',
    height (tshape y) <= height (tshape x') ->
    width (tshape y) <= width (tshape x') ->
    for_in (rev (range_from (List.length prefix) (List.length new)))
      (decoder_body (prefix ++ new ++ suffix) p bn dr) (y, fy) g
    = (Raise e, g') ->
    exists v, e = ValueError v.
Proof.
  induction 1 as [f x | f x sk pl rest x' f' pm Hp Eh Ew Hsk Hh2 Hw2 Hpl Hch IH];
    intros prefix suffix y fy g e g' Hyh Hyw H.
  - discriminate.
  - simpl List.length in H. rewrite rev_range_from_S, for_in_app in H.
    unfold bind at 1 in H.
    replace (prefix ++ (sk :: rest) ++ suffix)
      with ((prefix ++ [sk]) ++ rest ++ suffix) in H
      by (now rewrite <- app_assoc).
    replace (S (List.length prefix)) with (List.length (prefix ++ [sk])) in H
      by (rewrite length_app; simpl; lia).
    match type of H with
    | (let (_, _) := ?run in _) = _ => destruct run as [r1 g1] eqn:E1
    end.
    destruct r1 as [[z1 f1] | e1].
    2:{ injection H as <- _. eapply IH; eassumption. }
    apply (decoder_no_assert _ _ _ _ _ _ _ _ Hch) in E1 as [_ Hle];
      try assumption.
    destruct (Hle _ _ eq_refl) as [Hz1 Hz2].
    rewrite Hpl in Hz1, Hz2. cbn [height width] in Hz1, Hz2.
    rewrite for_in_cons in H. unfold bind at 1 in H.
    unfold decoder_body at 1 in H.
    rewrite <- app_assoc in H.
    change ([sk] ++ rest ++ suffix) with (sk :: rest ++ suffix) in H.
    rewrite (py_getitem_nth _ _ sk) in H by apply nth_error_middle.
    unfold bind at 1 in H. unfold ret at 1 in H. unfold bind at 1 in H.
    rewrite upsampling_block_unfold in H. cbv zeta in H.
    match type of H with
    | context [if ?c <? 0 then (Raise (ValueError negative_dimension), _)
               else _] => destruct (c <? 0) eqn:Ef
    end.
    { cbv iota in H. injection H as <- _. now eexists. }
    assert (Hhc : 0 <= h_crop z1 sk).
    { unfold h_crop. pose proof (Z.div_mod (height (tshape sk)) 2).
      pose proof (Z.mod_pos_bound (height (tshape sk)) 2). lia. }
    assert (Hwc : 0 <= w_crop z1 sk).
    { unfold w_crop. pose proof (Z.div_mod (width (tshape sk)) 2).
      pose proof (Z.mod_pos_bound (width (tshape sk)) 2). lia. }
    rewrite (proj2 (Z.ltb_ge _ _) Hhc), (proj2 (Z.ltb_ge _ _) Hwc) in H.
    match type of H with
    | context [upsampling_convs ?c0 ?f0 p bn dr ?g0] =>
        destruct (upsampling_convs c0 f0 p bn dr g0) as [[out | e2] g2] eqn:E2
    end.
    + discriminate.
    + injection H as <- _. now apply upsampling_convs_raises in E2.
Qed.

(** Whatever the arguments and the graph it starts from, [dilated_unet]
    raises nothing but the two evenness assertions of
    [downsampling_block] and the [ValueError]s of the layers.  In
    particular [skips[i]] (line 115) is always within bounds: no
    [IndexError]. *)
Theorem build_exceptions h w c cl f d t p bn dr n g e :
  fst (dilated_unet h w c cl f d t p bn dr n g) = Raise e ->
  e = AssertionError height_even \/ e = AssertionError width_even \/
  exists v, e = ValueError v.
Proof.
  rewrite dilated_unet_unfold. unfold bind at 1.
  destruct (Input (mkShape h w c) g) as [[x0 | e0] g0] eqn:E0.
  2:{ unfold Input in E0. destruct (_ && _); [discriminate |].
      injection E0 as <- _. simpl. intros H. injection H as <-.
      right. right. now eexists. }
  unfold bind at 1.
  destruct (encoder d p bn dr (x0, [], f) g0) as [[[[x1 skips] f1] | e1] g1]
    eqn:E1.
  2:{ rewrite encoder_unfold in E1. apply encoder_loop_raises in E1.
      simpl. intros H. injection H as <-. exact E1. }
  rewrite encoder_unfold in E1.
  apply encoder_loop_ok_inv in E1
    as (new & n1 & Hsk & Hch & Hlen & -> & _).
  simpl in Hsk. subst skips.
  unfold bind at 1.
  destruct (bottleneck n f1 p bn dr (x1, 1) (g0 ++ n1))
    as [[[x2 d2] | e2] g2] eqn:E2.
  2:{ rewrite bottleneck_unfold in E2. apply bottleneck_loop_raises in E2.
      simpl. intros H. injection H as <-. now right; right. }
  rewrite bottleneck_unfold in E2.
  apply bottleneck_loop_shrinks in E2 as [Hx2h Hx2w]; [| lia].
  unfold bind at 1.
  destruct (decoder d new p bn dr (x2, f1) g2) as [[[x3 f3] | e3] g3] eqn:E3.
  - destruct (head x0 x3 cl t g3) as [[m | e4] g4] eqn:E4; [discriminate |].
    apply head_raises in E4. simpl. intros H. injection H as <-.
    now right; right.
  - rewrite decoder_unfold, <- range_from_range, <- Hlen in E3.
    replace new with ([] ++ new ++ []) in E3 at 2 by (now rewrite app_nil_r).
    apply (decoder_raises _ _ _ _ _ _ _ _ Hch [] []) in E3; try assumption.
    simpl. intros H. injection H as <-. now right; right.
Qed.

Lemma build_exceptions_witness :
  AssertionError height_even = AssertionError height_even \/
  AssertionError height_even = AssertionError width_even \/
  exists v, AssertionError height_even = ValueError v.
Proof.
  apply (build_exceptions 284 284 3 2 64 4 1 "valid" false 0 5 []).
  vm_compute. reflexivity.
Defined.

(* ================================================================== *)
(** ** Sizes through the three phases *)
(* ================================================================== *)

(** Each encoder stage halves "size plus loss": over the whole chain,
    [size + loss] of the input is [2^stages] times that of the output. *)
Lemma enc_chain_scale p f x new x' f' pm :
  enc_chain p f x new x' f' ->
  normalize_padding p = Some pm ->
  height (tshape x) + encoder_loss pm
  = 2 ^ Z.of_nat (List.length new) * (height (tshape x') + encoder_loss pm) /\
  width (tshape x) + encoder_loss pm
  = 2 ^ Z.of_nat (List.length new) * (width (tshape x') + encoder_loss pm).
Proof.
  induction 1 as [f x | f x sk pl rest x' f' pm' Hp Eh Ew Hsk Hh2 Hw2 Hpl Hch IH];
    intros Hpm.
  - cbn [List.length]. change (2 ^ Z.of_nat 0) with 1. lia.
  - rewrite Hpm in Hp. injection Hp as <-.
    destruct (IH Hpm) as [IH1 IH2].
    simpl List.length. rewrite Nat2Z.inj_succ, Z.pow_succ_r by lia.
    rewrite Hpl in IH1, IH2. cbn [height width] in IH1, IH2.
    rewrite Hsk in IH1, IH2. cbn [height width] in IH1, IH2.
    assert (Hh : 2 * (shrink pm 6 (height (tshape x)) / 2)
                 = shrink pm 6 (height (tshape x))).
    { apply even_double_half. unfold shrink. destruct pm; [| exact Eh].
      replace (height (tshape x) - 6)
        with (height (tshape x) + (-3) * 2) by lia.
      now rewrite Z.mod_add by lia. }
    assert (Hw : 2 * (shrink pm 6 (width (tshape x)) / 2)
                 = shrink pm 6 (width (tshape x))).
    { apply even_double_half. unfold shrink. destruct pm; [| exact Ew].
      replace (width (tshape x) - 6)
        with (width (tshape x) + (-3) * 2) by lia.
      now rewrite Z.mod_add by lia. }
    unfold shrink, encoder_loss in *. destruct pm; lia.
Qed.

(** The bottleneck removes [bottleneck_loss]. *)
Lemma bottleneck_loop_size f p bn dr (l : list Z) pm :
  normalize_padding p = Some pm ->
  forall x d g x' d' g',
    for_in l (bottleneck_body f p bn dr) (x, d) g = (Ok (x', d'), g') ->
    height (tshape x')
    = height (tshape x) - bottleneck_loss pm d (List.length l) /\
    width (tshape x')
    = width (tshape x) - bottleneck_loss pm d (List.length l).
Proof.
  intros Hpm. induction l as [|v l IH]; intros x d g x' d' g' H.
  - apply ret_ok_inv in H as [H _]. injection H as <- _.
    unfold bottleneck_loss. cbn [List.length].
    change (2 ^ Z.of_nat 0) with 1. destruct pm; lia.
  - rewrite for_in_cons in H. unfold bind at 1 in H.
    destruct (bottleneck_body_cases f p bn dr v x d g)
      as [[e1 E] | (pm' & t & a & n1 & Hp & Ha & Hq & E)];
      rewrite E in H; clear E; [discriminate |].
    rewrite Hpm in Hp. injection Hp as <-.
    apply IH in H. rewrite Ha in H. cbn [height width] in H.
    simpl List.length. unfold bottleneck_loss, shrink in *.
    rewrite Nat2Z.inj_succ, Z.pow_succ_r by lia. destruct pm; lia.
Qed.

(** Each decoder stage doubles "size minus loss". *)
Lemma decoder_scale p bn dr f x new x' f' pm :
  enc_chain p f x new x' f' ->
  normalize_padding p = Some pm ->
  forall prefix suffix y fy g z fz g',
    for_in (rev (range_from (List.length prefix) (List.length new)))
      (decoder_body (prefix ++ new ++ suffix) p bn dr) (y, fy) g
    = (Ok (z, fz), g') ->
    height (tshape z) - decoder_loss pm
    = 2 ^ Z.of_nat (List.length new) * (height (tshape y) - decoder_loss pm) /\
    width (tshape z) - decoder_loss pm
    = 2 ^ Z.of_nat (List.length new) * (width (tshape y) - decoder_loss pm).
Proof.
  intros Hch Hpm.
  induction Hch
    as [f x | f x sk pl rest x' f' pm' Hp Eh Ew Hsk Hh2 Hw2 Hpl Hch IH];
    intros prefix suffix y fy g z fz g' H.
  - apply ret_ok_inv in H as [H _]. injection H as <- _.
    cbn [List.length]. change (2 ^ Z.of_nat 0) with 1. lia.
  - simpl List.length in H. rewrite rev_range_from_S, for_in_app in H.
    apply bind_ok_inv in H as ([z1 f1] & g1 & H1 & H2).
    replace (prefix ++ (sk :: rest) ++ suffix)
      with ((prefix ++ [sk]) ++ rest ++ suffix) in H1
      by (now rewrite <- app_assoc).
    replace (S (List.length prefix)) with (List.length (prefix ++ [sk])) in H1
      by (rewrite length_app; simpl; lia).
    apply IH in H1 as [IH1 IH2].
    rewrite for_in_cons in H2.
    apply bind_ok_inv in H2 as ([z2 f2] & g2 & Hb & Hr).
    apply ret_ok_inv in Hr as [Hr _]. injection Hr as -> ->.
    unfold decoder_body in Hb.
    apply bind_ok_inv in Hb as (sk' & g0 & _ & Hb).
    apply bind_ok_inv in Hb as (out & g3 & Hu & Hr).
    apply ret_ok_inv in Hr as [Hr _]. injection Hr as -> _.
    apply upsampling_block_ok_inv in Hu
      as (pm'' & yy & n2 & Hp' & _ & _ & Hout & _).
    rewrite Hpm in Hp'. injection Hp' as <-.
    rewrite Hout. cbn [tshape height width].
    simpl List.length. rewrite Nat2Z.inj_succ, Z.pow_succ_r by lia.
    unfold shrink, decoder_loss in *. destruct pm; lia.
Qed.

Lemma head_ok_fits x0 x cl t g m g' :
  head x0 x cl t g = (Ok m, g') ->
  1 <= height (tshape x) /\ 1 <= width (tshape x).
Proof.
  unfold head, bind, Conv2D, Lambda, Activation, add_node, ret.
  change (normalize_padding "valid") with (Some valid). cbv beta iota zeta.
  unfold window_fits.
  replace (1 + (1 - 1) * (1 - 1)) with 1 by lia.
  destruct (0 <=? cl); [| discriminate].
  destruct (1 <=? height (tshape x)) eqn:E1; [| discriminate].
  destruct (1 <=? width (tshape x)) eqn:E2; [| discriminate].
  intros _. split; now apply Z.leb_le.
Qed.

Lemma range_length_max n : Z.of_nat (List.length (range n)) = Z.max 0 n.
Proof. unfold range. rewrite length_map, length_seq. lia. Qed.

(** The sizes of a build that returns, for either padding mode: with
    [D = 2^max(depth, 0)], [D] divides "input size plus encoder loss",
    and the output size is given by the three losses. *)
Lemma dilated_unet_sizes h w c cl f d t p bn dr n g m g' pm :
  normalize_padding p = Some pm ->
  dilated_unet h w c cl f d t p bn dr n g = (Ok m, g') ->
  exists bh bw,
    h + encoder_loss pm = 2 ^ Z.max 0 d * (bh + encoder_loss pm) /\
    w + encoder_loss pm = 2 ^ Z.max 0 d * (bw + encoder_loss pm) /\
    height (tshape (outputs m)) - decoder_loss pm
    = 2 ^ Z.max 0 d
      * (bh - bottleneck_loss pm 1 (Z.to_nat n) - decoder_loss pm) /\
    width (tshape (outputs m)) - decoder_loss pm
    = 2 ^ Z.max 0 d
      * (bw - bottleneck_loss pm 1 (Z.to_nat n) - decoder_loss pm) /\
    1 <= height (tshape (outputs m)) /\
    1 <= width (tshape (outputs m)).
Proof.
  intros Hpm H. apply dilated_unet_ok_inv in H
    as (x0 & g0 & x1 & skips & f1 & g1 & x2 & d2 & g2 & x3 & f3 & g3
        & E0 & E1 & E2 & E3 & E4).
  apply Input_ok_inv in E0 as (Hx0 & -> & _).
  rewrite encoder_unfold in E1.
  apply encoder_loop_ok_inv in E1
    as (new & n1 & Hsk & Hch & Hlen & -> & _).
  simpl in Hsk. subst skips.
  destruct (enc_chain_scale _ _ _ _ _ _ _ Hch Hpm) as [S1 S2].
  rewrite bottleneck_unfold in E2.
  apply (bottleneck_loop_size _ _ _ _ _ _ Hpm) in E2 as [B1 B2].
  rewrite decoder_unfold, <- range_from_range, <- Hlen in E3.
  replace new with ([] ++ new ++ []) in E3 at 2 by (now rewrite app_nil_r).
  apply (decoder_scale _ _ _ _ _ _ _ _ _ Hch Hpm [] []) in E3 as [D1 D2].
  destruct (head_ok_fits _ _ _ _ _ _ _ E4) as [F1 F2].
  apply head_ok_inv in E4 as (_ & Hout & _).
  rewrite Hlen, range_length_max in *.
  rewrite Hx0 in S1, S2. cbn [height width] in S1, S2.
  replace (List.length (range n)) with (Z.to_nat n) in B1, B2
    by (unfold range; now rewrite length_map, length_seq).
  exists (height (tshape x1)), (width (tshape x1)).
  rewrite Hout. cbn [height width].
  rewrite <- B1, <- B2. repeat split; assumption.
Qed.

(* ================================================================== *)
(** ** When a build returns *)
(* ================================================================== *)

Lemma even_of_double n k : n = 2 * k -> n mod 2 = 0.
Proof. intros ->. rewrite Z.mul_comm. apply Z.mod_mul. lia. Qed.

Lemma pow2_pos k : 0 < 2 ^ Z.of_nat k.
Proof. apply Z.pow_pos_nonneg; lia. Qed.

(** The encoder loop, entered with a feature count that is not
    negative, returns when "size plus loss" of its input is
    [2^iterations] times that of a size of at least 1, which is then
    the size it returns. *)
Lemma encoder_loop_run p pm bn dr :
  normalize_padding p = Some pm ->
  forall (l : list Z) x skips f g bh bw,
    0 <= f ->
    height (tshape x) + encoder_loss pm
    = 2 ^ Z.of_nat (List.length l) * (bh + encoder_loss pm) ->
    width (tshape x) + encoder_loss pm
    = 2 ^ Z.of_nat (List.length l) * (bw + encoder_loss pm) ->
    1 <= bh -> 1 <= bw ->
    exists x' skips' f' g',
      for_in l (encoder_body p bn dr) (x, skips, f) g
      = (Ok (x', skips', f'), g') /\
      height (tshape x') = bh /\ width (tshape x') = bw.
Proof.
  intros Hp. induction l as [|v l IH];
    intros x skips f g bh bw Hf Sh Sw Hh Hw.
  - cbn [List.length] in Sh, Sw. change (2 ^ Z.of_nat 0) with 1 in Sh, Sw.
    eexists _, _, _, _. split; [reflexivity |]. lia.
  - simpl List.length in Sh, Sw.
    rewrite Nat2Z.inj_succ, Z.pow_succ_r in Sh, Sw by lia.
    pose proof (pow2_pos (List.length l)) as Hpos.
    set (P := 2 ^ Z.of_nat (List.length l)) in *.
    assert (Kh : 1 + encoder_loss pm <= P * (bh + encoder_loss pm))
      by (unfold encoder_loss; destruct pm; nia).
    assert (Kw : 1 + encoder_loss pm <= P * (bw + encoder_loss pm))
      by (unfold encoder_loss; destruct pm; nia).
    assert (Eh : height (tshape x) mod 2 = 0).
    { apply (even_of_double _ (P * (bh + encoder_loss pm)
                               - encoder_loss pm / 2)).
      unfold encoder_loss in *.
      destruct pm; [change (6 / 2) with 3 | change (0 / 2) with 0]; lia. }
    assert (Ew : width (tshape x) mod 2 = 0).
    { apply (even_of_double _ (P * (bw + encoder_loss pm)
                               - encoder_loss pm / 2)).
      unfold encoder_loss in *.
      destruct pm; [change (6 / 2) with 3 | change (0 / 2) with 0]; lia. }
    destruct (downsampling_block_run x f p pm bn dr g Hp Hf Eh Ew)
      as (pl & sk & g1 & E);
      try (unfold shrink, encoder_loss in *; destruct pm; lia).
    pose proof E as E'.
    apply downsampling_block_ok_inv in E'
      as (pm' & nodes & Hp' & _ & _ & Hsk & _ & _ & Hpl & _).
    rewrite Hp in Hp'. injection Hp' as <-.
    rewrite for_in_cons. unfold bind at 1. unfold encoder_body at 1.
    unfold bind at 1. rewrite E. unfold ret at 1.
    apply IH; try assumption; [lia | ..]; rewrite Hpl, Hsk;
      cbn [height width].
    + pose proof (even_double_half _ Eh).
      assert (2 * (shrink pm 6 (height (tshape x)) / 2)
              = shrink pm 6 (height (tshape x))).
      { apply even_double_half. unfold shrink. destruct pm; [| exact Eh].
        replace (height (tshape x) - 6)
          with (height (tshape x) + (-3) * 2) by lia.
        now rewrite Z.mod_add by lia. }
      unfold shrink, encoder_loss in *. destruct pm; lia.
    + assert (2 * (shrink pm 6 (width (tshape x)) / 2)
              = shrink pm 6 (width (tshape x))).
      { apply even_double_half. unfold shrink. destruct pm; [| exact Ew].
        replace (width (tshape x) - 6)
          with (width (tshape x) + (-3) * 2) by lia.
        now rewrite Z.mod_add by lia. }
      unfold shrink, encoder_loss in *. destruct pm; lia.
Qed.

(** The bottleneck loop, with a feature count that is not negative,
    returns when what it removes leaves a size of at least 1. *)
Lemma bottleneck_loop_run f p pm bn dr :
  normalize_padding p = Some pm ->
  0 <= f ->
  forall (l : list Z) x d g,
    0 < d ->
    1 <= height (tshape x) - bottleneck_loss pm d (List.length l) ->
    1 <= width (tshape x) - bottleneck_loss pm d (List.length l) ->
    exists x' d' g',
      for_in l (bottleneck_body f p bn dr) (x, d) g = (Ok (x', d'), g').
Proof.
  intros Hp Hf. induction l as [|v l IH]; intros x d g Hd Hh Hw.
  - now eexists _, _, _.
  - simpl List.length in Hh, Hw. unfold bottleneck_loss in Hh, Hw.
    rewrite Nat2Z.inj_succ, Z.pow_succ_r in Hh, Hw by lia.
    pose proof (pow2_pos (List.length l)) as Hpos.
    rewrite for_in_cons. unfold bind at 1. unfold bottleneck_body at 1.
    run_conv3 pm c1 Hc1;
      [unfold fits3; destruct pm; [nia | exact I] .. |].
    run_post a1 n1 Ha1 Hq1. unfold ret at 1.
    apply IH; [lia | |]; rewrite Ha1, Hc1; cbn [height width];
      unfold bottleneck_loss, shrink; destruct pm; nia.
Qed.

(** The feature count stays non-negative through the decoder loop. *)
Lemma decoder_loop_features skips p bn dr (l : list Z) :
  forall y fy g z fz g',
    for_in l (decoder_body skips p bn dr) (y, fy) g = (Ok (z, fz), g') ->
    0 <= fy -> 0 <= fz.
Proof.
  induction l as [|v l IH]; intros y fy g z fz g' H Hfy.
  - apply ret_ok_inv in H as [H _]. now injection H as _ <-.
  - rewrite for_in_cons in H.
    apply bind_ok_inv in H as ([y1 f1] & g1 & Hb & H).
    unfold decoder_body in Hb.
    apply bind_ok_inv in Hb as (sk & g0 & _ & Hb).
    apply bind_ok_inv in Hb as (out & g3 & _ & Hr).
    apply ret_ok_inv in Hr as [Hr _]. injection Hr as _ <-.
    apply IH in H; [exact H |]. apply Z.div_pos; lia.
Qed.

(** The decoder loop returns when run, over the stages of an
    [enc_chain] and with a feature count that is not negative, from a
    tensor no larger than the encoder's last output and large enough
    for the size it will return to be at least 1. *)
Lemma decoder_run p bn dr f x new x' f' pm :
  enc_chain p f x new x' f' ->
  normalize_padding p = Some pm ->
  forall prefix suffix y fy g,
    0 <= fy ->
    height (tshape y) <= height (tshape x') ->
    width (tshape y) <= width (tshape x') ->
    1 <= 2 ^ Z.of_nat (List.length new) * (height (tshape y) - decoder_loss pm)
         + decoder_loss pm ->
    1 <= 2 ^ Z.of_nat (List.length new) * (width (tshape y) - decoder_loss pm)
         + decoder_loss pm ->
    exists z fz g',
      for_in (rev (range_from (List.length prefix) (List.length new)))
        (decoder_body (prefix ++ new ++ suffix) p bn dr) (y, fy) g
      = (Ok (z, fz), g').
Proof.
  intros Hch Hpm.
  induction Hch
    as [f x | f x sk pl rest x' f' pm' Hp Eh Ew Hsk Hh2 Hw2 Hpl Hch IH];
    intros prefix suffix y fy g Hfy Hyh Hyw Oh Ow.
  - now eexists _, _, _.
  - simpl List.length in Oh, Ow |- *.
    rewrite Nat2Z.inj_succ, Z.pow_succ_r in Oh, Ow by lia.
    rewrite <- Z.mul_assoc in Oh, Ow.
    rewrite rev_range_from_S.
    set (Ah := 2 ^ Z.of_nat (List.length rest)
               * (height (tshape y) - decoder_loss pm)) in *.
    set (Aw := 2 ^ Z.of_nat (List.length rest)
               * (width (tshape y) - decoder_loss pm)) in *.
    destruct (IH (prefix ++ [sk]) suffix y fy g Hfy Hyh Hyw)
      as (z1 & f1 & g1 & E1);
      try (unfold decoder_loss in *; destruct pm; lia).
    pose proof E1 as E1'. pose proof E1 as E1''.
    pose proof (decoder_loop_features _ _ _ _ _ _ _ _ _ _ _ E1 Hfy) as Hf1.
    apply (decoder_scale _ _ _ _ _ _ _ _ _ Hch Hpm) in E1' as [S1 S2].
    fold Ah in S1. fold Aw in S2.
    apply (decoder_no_assert _ _ _ _ _ _ _ _ Hch) in E1'' as [_ Hle];
      try assumption.
    destruct (Hle _ _ eq_refl) as [Hz1 Hz2].
    rewrite Hpl in Hz1, Hz2. cbn [height width] in Hz1, Hz2.
    replace (List.length (prefix ++ [sk])) with (S (List.length prefix)) in E1
      by (rewrite length_app; simpl; lia).
    replace ((prefix ++ [sk]) ++ rest ++ suffix)
      with (prefix ++ (sk :: rest) ++ suffix) in E1
      by (now rewrite <- app_assoc).
    rewrite Hpm in Hp. injection Hp as <-.
    destruct (upsampling_block_run z1 sk (f1 / 2) p pm bn dr g1 Hpm)
      as (out & g3 & E3).
    { apply Z.div_pos; lia. }
    { unfold h_crop. pose proof (Z.div_mod (height (tshape sk)) 2).
      pose proof (Z.mod_pos_bound (height (tshape sk)) 2). lia. }
    { unfold w_crop. pose proof (Z.div_mod (width (tshape sk)) 2).
      pose proof (Z.mod_pos_bound (width (tshape sk)) 2). lia. }
    { unfold room, decoder_loss in *. destruct pm; [lia | exact I]. }
    { unfold room, decoder_loss in *. destruct pm; [lia | exact I]. }
    eexists _, _, _. rewrite for_in_app, (bind_ok _ _ _ _ _ E1).
    rewrite for_in_cons. unfold bind at 1. unfold decoder_body at 1.
    change ((sk :: rest) ++ suffix) with (sk :: rest ++ suffix).
    rewrite (py_getitem_nth _ _ sk) by apply nth_error_middle.
    unfold bind at 1. unfold ret at 1. unfold bind at 1.
    rewrite E3. reflexivity.
Qed.

(** A build returns when the counts of channels, classes and features
    are not negative, the input sizes have the right form and the
    output sizes they lead to are at least 1. *)
Lemma dilated_unet_run h w c cl f d t p bn dr n pm bh bw :
  normalize_padding p = Some pm ->
  0 <= c -> 0 <= cl -> 0 <= f ->
  h + encoder_loss pm = 2 ^ Z.max 0 d * (bh + encoder_loss pm) ->
  w + encoder_loss pm = 2 ^ Z.max 0 d * (bw + encoder_loss pm) ->
  1 <= 2 ^ Z.max 0 d
       * (bh - bottleneck_loss pm 1 (Z.to_nat n) - decoder_loss pm)
       + decoder_loss pm ->
  1 <= 2 ^ Z.max 0 d
       * (bw - bottleneck_loss pm 1 (Z.to_nat n) - decoder_loss pm)
       + decoder_loss pm ->
  exists m g, dilated_unet h w c cl f d t p bn dr n [] = (Ok m, g).
Proof.
  intros Hp Hc Hcl Hf Sh Sw Oh Ow.
  rewrite <- range_length_max in Sh, Sw, Oh, Ow.
  pose proof (pow2_pos (List.length (range d))) as HD.
  pose proof (pow2_pos (Z.to_nat n)) as HN.
  set (D := 2 ^ Z.of_nat (List.length (range d))) in *.
  set (BL := bottleneck_loss pm 1 (Z.to_nat n)) in *.
  assert (HBL : 0 <= BL)
    by (subst BL; unfold bottleneck_loss; destruct pm; lia).
  assert (Bh : 1 <= bh - BL) by (unfold decoder_loss in *; destruct pm; nia).
  assert (Bw : 1 <= bw - BL) by (unfold decoder_loss in *; destruct pm; nia).
  assert (Hh : 0 <= h) by (unfold encoder_loss in *; destruct pm; nia).
  assert (Hw : 0 <= w) by (unfold encoder_loss in *; destruct pm; nia).
  rewrite dilated_unet_unfold.
  rewrite (bind_ok _ _ _ _ _ (Input_run (mkShape h w c) Hh Hw Hc)).
  destruct (encoder_loop_run p pm bn dr Hp (range d)
              (input_tensor (mkShape h w c)) [] f
              [input_node (mkShape h w c)] bh bw Hf Sh Sw)
    as (x1 & skips & f1 & g1 & E1 & X1h & X1w); try lia.
  pose proof E1 as E1'.
  apply encoder_loop_ok_inv in E1'
    as (new & n1 & Hsk & Hch & Hlen & -> & _).
  simpl in Hsk. subst skips.
  rewrite encoder_unfold, (bind_ok _ _ _ _ _ E1).
  rewrite bottleneck_unfold.
  assert (Hrn : List.length (range n) = Z.to_nat n)
    by (unfold range; now rewrite length_map, length_seq).
  pose proof (enc_chain_features _ _ _ _ _ _ Hch Hf) as Hf1.
  destruct (bottleneck_loop_run f1 p pm bn dr Hp Hf1 (range n) x1 1
              ([input_node (mkShape h w c)] ++ n1))
    as (x2 & d2 & g2 & E2); try (rewrite Hrn; fold BL; lia); try lia.
  rewrite (bind_ok _ _ _ _ _ E2).
  apply (bottleneck_loop_size _ _ _ _ _ _ Hp) in E2 as [B1 B2].
  rewrite Hrn in B1, B2. fold BL in B1, B2.
  destruct (decoder_run p bn dr _ _ _ _ _ pm Hch Hp [] [] x2 f1 g2 Hf1)
    as (x3 & f3 & g3 & E3); try lia;
    try (rewrite Hlen; fold D; rewrite ?B1, ?B2, ?X1h, ?X1w; lia).
  pose proof E3 as E3'.
  apply (decoder_scale _ _ _ _ _ _ _ _ _ Hch Hp [] []) in E3' as [D1 D2].
  rewrite Hlen in D1, D2. fold D in D1, D2.
  rewrite app_nil_r in E3. simpl List.length in E3.
  rewrite Hlen, range_from_range in E3.
  rewrite decoder_unfold, (bind_ok _ _ _ _ _ E3).
  apply head_run; rewrite ?B1, ?B2, ?X1h, ?X1w in *; lia.
Qed.

Lemma range_pos n : 1 <= n -> exists l, range n = 0 :: l.
Proof.
  intros H. unfold range. destruct (Z.to_nat n) as [|k] eqn:E; [lia |].
  now eexists.
Qed.

Lemma Input_ok_nonneg s g x g' :
  Input s g = (Ok x, g') ->
  0 <= height s /\ 0 <= width s /\ 0 <= channels s.
Proof.
  unfold Input.
  destruct (0 <=? height s) eqn:E1; [| discriminate].
  destruct (0 <=? width s) eqn:E2; [| discriminate].
  destruct (0 <=? channels s) eqn:E3; [| discriminate].
  intros _. repeat split; now apply Z.leb_le.
Qed.

(** What a build that returns says of the three counts: channels and
    classes are not negative, and neither is the feature count unless
    both loops are empty. *)
Lemma dilated_unet_ok_counts h w c cl f d t p bn dr n g m g' :
  dilated_unet h w c cl f d t p bn dr n g = (Ok m, g') ->
  0 <= c /\ 0 <= cl /\ (0 <= f \/ (d <= 0 /\ n <= 0)).
Proof.
  intros H. apply dilated_unet_ok_inv in H
    as (x0 & g0 & x1 & skips & f1 & g1 & x2 & d2 & g2 & x3 & f3 & g3
        & E0 & E1 & E2 & E3 & E4).
  apply Input_ok_nonneg in E0 as (_ & _ & Hc). cbn [channels] in Hc.
  apply head_ok_classes in E4.
  split; [exact Hc |]. split; [exact E4 |].
  destruct (Z_le_gt_dec d 0) as [Hd | Hd].
  - rewrite encoder_unfold, range_nonpos in E1 by exact Hd.
    apply ret_ok_inv in E1 as [E1 _]. injection E1 as _ _ <-.
    destruct (Z_le_gt_dec n 0) as [Hn | Hn]; [now right | left].
    rewrite bottleneck_unfold in E2.
    destruct (range_pos n ltac:(lia)) as [l El]. rewrite El in E2.
    rewrite for_in_cons in E2. unfold bottleneck_body at 1 in E2.
    apply bind_ok_inv in E2 as (s1 & g4 & E2 & _).
    now apply Conv2D_ok_filters in E2.
  - left. rewrite encoder_unfold in E1.
    destruct (range_pos d ltac:(lia)) as [l El]. rewrite El in E1.
    rewrite for_in_cons in E1. unfold encoder_body at 1 in E1.
    apply bind_ok_inv in E1 as (s1 & g4 & E1 & _).
    apply bind_ok_inv in E1 as (r & g5 & E1 & _).
    now apply downsampling_block_ok_filters in E1.
Qed.

(** With both loops empty the feature count is never used. *)
Lemma dilated_unet_features_unused h w c cl f f' d t p bn dr n g :
  d <= 0 -> n <= 0 ->
  dilated_unet h w c cl f d t p bn dr n g
  = dilated_unet h w c cl f' d t p bn dr n g.
Proof.
  intros Hd Hn. rewrite !dilated_unet_unfold.
  unfold encoder, bottleneck, decoder, reversed.
  rewrite !range_nonpos by assumption. reflexivity.
Qed.

(** Under 'same' padding a build from the empty graph returns exactly
    when height and width are at least 1 and divisible by
    [2^max(depth, 0)], the counts of channels and classes are not
    negative, and neither is the feature count, unless both loops are
    empty ([depth <= 0] and [dilation_layers <= 0]) and it is never
    used.  The other arguments, [temperature], [batchnorm] and
    [dropout], do not matter. *)
Theorem same_padding_builds_iff h w c cl f d t p bn dr n :
  normalize_padding p = Some same ->
  (exists m g, dilated_unet h w c cl f d t p bn dr n [] = (Ok m, g)) <->
  1 <= h /\ 1 <= w /\ (2 ^ Z.max 0 d | h) /\ (2 ^ Z.max 0 d | w) /\
  0 <= c /\ 0 <= cl /\ (0 <= f \/ (d <= 0 /\ n <= 0)).
Proof.
  intros Hp. split.
  - intros (m & g & H).
    pose proof (dilated_unet_ok_counts _ _ _ _ _ _ _ _ _ _ _ _ _ _ H)
      as (Hc & Hcl & Hf).
    apply (dilated_unet_sizes _ _ _ _ _ _ _ _ _ _ _ _ _ _ same Hp) in H
      as (bh & bw & Sh & Sw & Oh & Ow & Fh & Fw).
    unfold encoder_loss, decoder_loss, bottleneck_loss in *.
    rewrite !Z.add_0_r in Sh, Sw. rewrite !Z.sub_0_r in Oh, Ow.
    split; [lia |]. split; [lia |].
    split; [exists bh; lia |]. split; [exists bw; lia |].
    now repeat split.
  - intros (Hh & Hw & [bh Dh] & [bw Dw] & Hc & Hcl & Hf).
    assert (R : forall f0, 0 <= f0 ->
              exists m g,
                dilated_unet h w c cl f0 d t p bn dr n [] = (Ok m, g)).
    { intros f0 Hf0.
      apply (dilated_unet_run h w c cl f0 d t p bn dr n same bh bw Hp Hc
               Hcl Hf0);
        unfold encoder_loss, decoder_loss, bottleneck_loss; lia. }
    destruct Hf as [Hf | [Hd Hn]]; [now apply R |].
    rewrite (dilated_unet_features_unused h w c cl f 0) by assumption.
    apply R. lia.
Qed.

Lemma same_padding_builds_iff_witness :
  (exists m g,
     dilated_unet 96 64 3 2 8 4 1 "SAME" true (1 # 2) 3 [] = (Ok m, g)) <->
  1 <= 96 /\ 1 <= 64 /\ (2 ^ Z.max 0 4 | 96) /\ (2 ^ Z.max 0 4 | 64) /\
  0 <= 3 /\ 0 <= 2 /\ (0 <= 8 \/ (4 <= 0 /\ 3 <= 0)).
Proof.
  apply (same_padding_builds_iff 96 64 3 2 8 4 1 "SAME" true (1 # 2) 3).
  reflexivity.
Defined.

(** Under 'valid' padding, with [D = 2^max(depth, 0)] and
    [N = 2^max(dilation_layers, 0)], a build that returns has
    [D | height + 6], [D | width + 6], and its output has height
    [height + 10 - D * (2 * N + 8)] and width
    [width + 10 - D * (2 * N + 8)]. *)
Theorem valid_padding_output_size h w c cl f d t p bn dr n g m g' :
  normalize_padding p = Some valid ->
  dilated_unet h w c cl f d t p bn dr n g = (Ok m, g') ->
  (2 ^ Z.max 0 d | h + 6) /\ (2 ^ Z.max 0 d | w + 6) /\
  height (tshape (outputs m))
  = h + 10 - 2 ^ Z.max 0 d * (2 * 2 ^ Z.max 0 n + 8) /\
  width (tshape (outputs m))
  = w + 10 - 2 ^ Z.max 0 d * (2 * 2 ^ Z.max 0 n + 8).
Proof.
  intros Hp H.
  apply (dilated_unet_sizes _ _ _ _ _ _ _ _ _ _ _ _ _ _ valid Hp) in H
    as (bh & bw & Sh & Sw & Oh & Ow & _ & _).
  unfold encoder_loss, decoder_loss, bottleneck_loss in *.
  replace (Z.of_nat (Z.to_nat n)) with (Z.max 0 n) in Oh, Ow by lia.
  set (D := 2 ^ Z.max 0 d) in *. set (N := 2 ^ Z.max 0 n) in *.
  split; [exists (bh + 6); lia |]. split; [exists (bw + 6); lia |].
  split; lia.
Qed.

Lemma valid_padding_output_size_witness :
  (2 ^ Z.max 0 4 | 1146 + 6) /\ (2 ^ Z.max 0 4 | 1162 + 6) /\
  height (tshape (mkTensor 61 (mkShape 4 20 2)))
  = 1146 + 10 - 2 ^ Z.max 0 4 * (2 * 2 ^ Z.max 0 5 + 8) /\
  width (tshape (mkTensor 61 (mkShape 4 20 2)))
  = 1162 + 10 - 2 ^ Z.max 0 4 * (2 * 2 ^ Z.max 0 5 + 8).
Proof.
  apply (valid_padding_output_size 1146 1162 3 2 64 4 1 "valid" false 0 5 []
           (mkModel (mkTensor 0 (mkShape 1146 1162 3))
                    (mkTensor 61 (mkShape 4 20 2)))
           (snd (dilated_unet 1146 1162 3 2 64 4 1 "valid" false 0 5 []))).
  - reflexivity.
  - vm_compute. reflexivity.
Defined.

(** Under 'valid' padding a build from the empty graph returns exactly
    when [D] divides [height + 6] and [width + 6], the output sizes
    [height + 10 - D * (2 * N + 8)] and [width + 10 - D * (2 * N + 8)]
    are at least 1 ([D] and [N] as above), the counts of channels and
    classes are not negative, and neither is the feature count, unless
    both loops are empty and it is never used. *)
Theorem valid_padding_builds_iff h w c cl f d t p bn dr n :
  normalize_padding p = Some valid ->
  (exists m g, dilated_unet h w c cl f d t p bn dr n [] = (Ok m, g)) <->
  (2 ^ Z.max 0 d | h + 6) /\ (2 ^ Z.max 0 d | w + 6) /\
  1 <= h + 10 - 2 ^ Z.max 0 d * (2 * 2 ^ Z.max 0 n + 8) /\
  1 <= w + 10 - 2 ^ Z.max 0 d * (2 * 2 ^ Z.max 0 n + 8) /\
  0 <= c /\ 0 <= cl /\ (0 <= f \/ (d <= 0 /\ n <= 0)).
Proof.
  intros Hp. split.
  - intros (m & g & H).
    pose proof (dilated_unet_ok_counts _ _ _ _ _ _ _ _ _ _ _ _ _ _ H)
      as (Hc & Hcl & Hf).
    apply (dilated_unet_sizes _ _ _ _ _ _ _ _ _ _ _ _ _ _ valid Hp) in H
      as (bh & bw & Sh & Sw & Oh & Ow & Fh & Fw).
    unfold encoder_loss, decoder_loss, bottleneck_loss in *.
    replace (Z.of_nat (Z.to_nat n)) with (Z.max 0 n) in Oh, Ow by lia.
    set (D := 2 ^ Z.max 0 d) in *. set (N := 2 ^ Z.max 0 n) in *.
    split; [exists (bh + 6); lia |]. split; [exists (bw + 6); lia |].
    split; [lia |]. split; [lia |]. now repeat split.
  - intros ([qh Dh] & [qw Dw] & Oh & Ow & Hc & Hcl & Hf).
    assert (R : forall f0, 0 <= f0 ->
              exists m g,
                dilated_unet h w c cl f0 d t p bn dr n [] = (Ok m, g)).
    { intros f0 Hf0.
      apply (dilated_unet_run h w c cl f0 d t p bn dr n valid (qh - 6)
               (qw - 6) Hp Hc Hcl Hf0);
        unfold encoder_loss, decoder_loss, bottleneck_loss;
        replace (Z.of_nat (Z.to_nat n)) with (Z.max 0 n) by lia;
        set (D := 2 ^ Z.max 0 d) in *; set (N := 2 ^ Z.max 0 n) in *; lia. }
    destruct Hf as [Hf | [Hd Hn]]; [now apply R |].
    rewrite (dilated_unet_features_unused h w c cl f 0) by assumption.
    apply R. lia.
Qed.

Lemma valid_padding_builds_iff_witness :
  (exists m g,
     dilated_unet 1146 1162 3 2 64 4 1 "valid" false 0 5 [] = (Ok m, g)) <->
  (2 ^ Z.max 0 4 | 1146 + 6) /\ (2 ^ Z.max 0 4 | 1162 + 6) /\
  1 <= 1146 + 10 - 2 ^ Z.max 0 4 * (2 * 2 ^ Z.max 0 5 + 8) /\
  1 <= 1162 + 10 - 2 ^ Z.max 0 4 * (2 * 2 ^ Z.max 0 5 + 8) /\
  0 <= 3 /\ 0 <= 2 /\ (0 <= 64 \/ (4 <= 0 /\ 5 <= 0)).
Proof.
  apply (valid_padding_builds_iff 1146 1162 3 2 64 4 1 "valid" false 0 5).
  reflexivity.
Defined.

(* ================================================================== *)
(** ** What kind of nodes a build adds *)
(* ================================================================== *)

Section AddsOnly.

Variable Q : node -> Prop.

Lemma adds_only_ret {A} (a : A) : adds_only Q (ret a).
Proof. intros g. exists []. simpl. now rewrite app_nil_r. Qed.

Lemma adds_only_raise {A} e : adds_only Q (@raise A e).
Proof. intros g. exists []. simpl. now rewrite app_nil_r. Qed.

(** The continuation may use what the first computation returned and
    how it ran. *)
Lemma adds_only_bind {A B} (m : M A) (k : A -> M B) :
  adds_only Q m ->
  (forall a g g', m g = (Ok a, g') -> adds_only Q (k a)) ->
  adds_only Q (bind m k).
Proof.
  intros Hm Hk g. unfold bind. destruct (Hm g) as (n1 & E1 & F1).
  destruct (m g) as [[a|e] g1] eqn:E; simpl in E1; subst g1.
  - destruct (Hk a g (g ++ n1) E (g ++ n1)) as (n2 & E2 & F2).
    exists (n1 ++ n2). rewrite E2, app_assoc. split; [reflexivity |].
    now apply Forall_app.
  - now exists n1.
Qed.

Lemma adds_only_add_node l ins s :
  (forall t, Q (mkNode l ins t)) -> adds_only Q (add_node l ins s).
Proof.
  intros H g. eexists. split; [reflexivity |]. constructor; [apply H | constructor].
Qed.

Lemma adds_only_if {A} (c : bool) (m1 m2 : M A) :
  (c = true -> adds_only Q m1) -> (c = false -> adds_only Q m2) ->
  adds_only Q (if c then m1 else m2).
Proof. destruct c; auto. Qed.

Lemma adds_only_assert c a : adds_only Q (py_assert c a).
Proof.
  apply adds_only_if; intros _; [apply adds_only_ret | apply adds_only_raise].
Qed.

Lemma adds_only_for_in {A S} (l : list A) (body : A -> S -> M S)
    (I : S -> Prop) s :
  I s ->
  (forall v s, I s -> adds_only Q (body v s)) ->
  (forall v s g s' g', I s -> body v s g = (Ok s', g') -> I s') ->
  adds_only Q (for_in l body s).
Proof.
  intros Hs Hb Hi. revert s Hs. induction l as [|v l IH]; intros s Hs; simpl.
  - apply adds_only_ret.
  - apply adds_only_bind; [now apply Hb |].
    intros s' g g' E. apply IH. eapply Hi; eassumption.
Qed.

Lemma adds_only_py_getitem {A} (l : list A) i : adds_only Q (py_getitem l i).
Proof.
  unfold py_getitem. apply adds_only_if; intros _; [| apply adds_only_raise].
  destruct (nth_error _ _); [apply adds_only_ret | apply adds_only_raise].
Qed.

Lemma adds_only_Conv2D f ks p d x :
  (forall t, Q (mkNode (LConv2D f ks p d) [x] t)) ->
  adds_only Q (Conv2D f ks p d x).
Proof.
  intros H. unfold Conv2D.
  destruct (normalize_padding p); [| apply adds_only_raise].
  destruct ks. apply adds_only_if; intros _;
    [now apply adds_only_add_node | apply adds_only_raise].
Qed.

Lemma adds_only_Conv2DTranspose f ks st p x :
  (forall t, Q (mkNode (LConv2DTranspose f ks st p) [x] t)) ->
  adds_only Q (Conv2DTranspose f ks st p x).
Proof.
  intros H. unfold Conv2DTranspose.
  destruct (normalize_padding p); [| apply adds_only_raise].
  destruct ks, st. apply adds_only_if; intros _;
    [now apply adds_only_add_node | apply adds_only_raise].
Qed.

Lemma adds_only_MaxPooling2D ps x :
  (forall t, Q (mkNode (LMaxPooling2D ps) [x] t)) ->
  adds_only Q (MaxPooling2D ps x).
Proof.
  intros H. unfold MaxPooling2D. destruct ps.
  apply adds_only_if; intros _;
    [now apply adds_only_add_node | apply adds_only_raise].
Qed.

Lemma adds_only_Concatenate x y :
  (forall t, Q (mkNode LConcatenate [x; y] t)) ->
  adds_only Q (Concatenate x y).
Proof.
  intros H. unfold Concatenate.
  apply adds_only_if; intros _;
    [now apply adds_only_add_node | apply adds_only_raise].
Qed.

Lemma adds_only_Input s :
  (forall t, Q (mkNode (LInput s) [] t)) -> adds_only Q (Input s).
Proof.
  intros H. unfold Input.
  apply adds_only_if; intros _;
    [now apply adds_only_add_node | apply adds_only_raise].
Qed.

End AddsOnly.

Lemma py_getitem_ok_inv {A} (l : list A) i g a g' :
  py_getitem l i g = (Ok a, g') -> In a l.
Proof.
  unfold py_getitem. destruct (_ && _); [| discriminate].
  destruct (nth_error l _) eqn:E; [| discriminate].
  intros H. injection H as <- _. eapply nth_error_In. exact E.
Qed.

Lemma assert_ok_true c a g u g' : py_assert c a g = (Ok u, g') -> c = true.
Proof. destruct c; [reflexivity | discriminate]. Qed.

(** Straight-line code whose layers satisfy the predicate by
    computation. *)
Ltac adds_only_steps :=
  repeat first
    [ apply adds_only_bind; [| intros ? ? ? ?]
    | apply adds_only_ret
    | apply adds_only_raise
    | apply adds_only_assert
    | apply adds_only_py_getitem
    | apply adds_only_Conv2D; intros ?; exact I
    | apply adds_only_Conv2DTranspose; intros ?; exact I
    | apply adds_only_MaxPooling2D; intros ?; exact I
    | apply adds_only_Concatenate; intros ?; exact I
    | apply adds_only_Input; intros ?; exact I
    | apply adds_only_add_node; intros ?; exact I ].

(* ------------------------------------------------------------------ *)
(** *** Batch normalization and dropout only when asked for *)

Lemma respects_flags_batchnorm bn dr (x : tensor) :
  adds_only (respects_flags bn dr)
    (if bn then BatchNormalization x else ret x).
Proof.
  apply adds_only_if; intros E; [| apply adds_only_ret].
  apply adds_only_add_node. intros t. exact E.
Qed.

Lemma respects_flags_dropout bn dr (x : tensor) :
  adds_only (respects_flags bn dr)
    (if Qpositive dr then Dropout dr x else ret x).
Proof.
  apply adds_only_if; intros E; [| apply adds_only_ret].
  apply adds_only_add_node. intros t. now split.
Qed.

Ltac respects_flags_steps :=
  repeat first
    [ apply respects_flags_batchnorm
    | apply respects_flags_dropout
    | unfold Activation, Lambda; progress adds_only_steps ].

Lemma respects_flags_downsampling_block x f p bn dr :
  adds_only (respects_flags bn dr) (downsampling_block x f p bn dr).
Proof. unfold downsampling_block. respects_flags_steps. Qed.

Lemma respects_flags_upsampling_block x skip f p bn dr :
  adds_only (respects_flags bn dr) (upsampling_block x skip f p bn dr).
Proof.
  unfold upsampling_block. respects_flags_steps.
  apply adds_only_if; intros _; [apply adds_only_ret |].
  unfold Cropping2D. apply adds_only_add_node. intros ?. exact I.
Qed.

(** Whatever the arguments and the outcome, the graph built from the
    empty graph holds a batch normalization only if [batchnorm] is
    set, and a dropout only if [dropout > 0], always with rate
    [dropout]. *)
Theorem optional_layers_follow_flags h w c cl f d t p bn dr n :
  Forall (respects_flags bn dr)
    (snd (dilated_unet h w c cl f d t p bn dr n [])).
Proof.
  assert (H : adds_only (respects_flags bn dr)
                (dilated_unet h w c cl f d t p bn dr n)).
  { unfold dilated_unet.
    apply adds_only_bind; [adds_only_steps | intros x0 g0 g0' _].
    apply adds_only_bind.
    { unfold encoder. apply adds_only_for_in with (I := fun _ => True);
        [exact I | | auto].
      intros _ [[x sk] f0] _.
      apply adds_only_bind; [apply respects_flags_downsampling_block |].
      intros [a b] ? ? _. apply adds_only_ret. }
    intros [[x1 skips] f1] g1 g1' _.
    apply adds_only_bind.
    { unfold bottleneck. apply adds_only_for_in with (I := fun _ => True);
        [exact I | | auto].
      intros _ [x d0] _. respects_flags_steps. }
    intros [x2 d2] g2 g2' _.
    apply adds_only_bind.
    { unfold decoder. apply adds_only_for_in with (I := fun _ => True);
        [exact I | | auto].
      intros i [x f0] _.
      apply adds_only_bind; [apply adds_only_py_getitem | intros sk ? ? _].
      apply adds_only_bind;
        [apply respects_flags_upsampling_block | intros y ? ? _].
      apply adds_only_ret. }
    intros [x3 f3] g3 g3' _. respects_flags_steps. }
  destruct (H []) as (nodes & E & F). now rewrite E.
Qed.

(* ------------------------------------------------------------------ *)
(** *** Crops are symmetric *)

Ltac crops_evenly_steps :=
  repeat first
    [ apply adds_only_if; intros _
    | unfold BatchNormalization, Activation, Dropout, Lambda;
      progress adds_only_steps ].

Lemma crops_evenly_downsampling_block x f p bn dr :
  adds_only crops_evenly (downsampling_block x f p bn dr).
Proof. unfold downsampling_block. crops_evenly_steps. Qed.

Lemma half_of_even n : n mod 2 = 0 -> n / 2 = n - n / 2.
Proof. intros H. pose proof (even_double_half n H). lia. Qed.

(** On a skip tensor of even height and width, the crop amounts are
    even, so the cropping is symmetric. *)
Lemma crops_evenly_upsampling_block x skip f p bn dr :
  even_sized skip ->
  adds_only crops_evenly (upsampling_block x skip f p bn dr).
Proof.
  intros [Eh Ew]. unfold upsampling_block.
  apply adds_only_bind; [adds_only_steps | intros u g0 g1 Eu].
  assert (Hu : height (tshape u) = 2 * height (tshape x) /\
               width (tshape u) = 2 * width (tshape x)).
  { apply Conv2DTranspose_ok_inv in Eu as (_ & -> & _). now split. }
  destruct Hu as [Hu1 Hu2]. unfold int_shape.
  apply adds_only_bind; [adds_only_steps | intros ? ? ? Ah].
  apply adds_only_bind; [adds_only_steps | intros ? ? ? Aw].
  apply assert_ok_true, Z.leb_le in Ah. apply assert_ok_true, Z.leb_le in Aw.
  apply adds_only_bind.
  { apply adds_only_if; intros _; [apply adds_only_ret |].
    unfold Cropping2D. apply adds_only_add_node. intros t.
    unfold crops_evenly. cbn [nlayer].
    rewrite Hu1, Hu2 in *.
    assert (Mh : (height (tshape skip) - 2 * height (tshape x)) mod 2 = 0).
    { replace (height (tshape skip) - 2 * height (tshape x))
        with (height (tshape skip) + (- height (tshape x)) * 2) by lia.
      now rewrite Z.mod_add by lia. }
    assert (Mw : (width (tshape skip) - 2 * width (tshape x)) mod 2 = 0).
    { replace (width (tshape skip) - 2 * width (tshape x))
        with (width (tshape skip) + (- width (tshape x)) * 2) by lia.
      now rewrite Z.mod_add by lia. }
    repeat split; try (now apply half_of_even);
      apply Z.div_pos; lia. }
  intros y ? ? _. crops_evenly_steps.
Qed.

(** The skip tensors of an [enc_chain] have even height and width. *)
Lemma enc_chain_even p f x new x' f' :
  enc_chain p f x new x' f' -> Forall even_sized new.
Proof.
  induction 1 as [f x | f x sk pl rest x' f' pm Hp Eh Ew Hsk Hh2 Hw2 Hpl Hch IH];
    constructor; [| exact IH].
  unfold even_sized. rewrite Hsk. cbn [height width]. unfold shrink.
  destruct pm; [| now split].
  split.
  - replace (height (tshape x) - 6) with (height (tshape x) + (-3) * 2) by lia.
    now rewrite Z.mod_add by lia.
  - replace (width (tshape x) - 6) with (width (tshape x) + (-3) * 2) by lia.
    now rewrite Z.mod_add by lia.
Qed.

(** Whatever the arguments and the outcome, every cropping node of the
    graph built from the empty graph removes the same amount at the top
    and at the bottom, and at the left and at the right: the skip
    tensors have even sizes and the upsampled ones too, so the odd case
    of line 43, where the bottom or right side would lose one more,
    does not occur. *)
Theorem croppings_are_symmetric h w c cl f d t p bn dr n :
  Forall crops_evenly (snd (dilated_unet h w c cl f d t p bn dr n [])).
Proof.
  assert (H : adds_only crops_evenly (dilated_unet h w c cl f d t p bn dr n)).
  { unfold dilated_unet.
    apply adds_only_bind; [adds_only_steps | intros x0 g0 g0' _].
    apply adds_only_bind.
    { unfold encoder. apply adds_only_for_in with (I := fun _ => True);
        [exact I | | auto].
      intros _ [[x sk] f0] _.
      apply adds_only_bind; [apply crops_evenly_downsampling_block |].
      intros [a b] ? ? _. apply adds_only_ret. }
    intros [[x1 skips] f1] g1 g1' E1.
    rewrite encoder_unfold in E1.
    apply encoder_loop_ok_inv in E1 as (new & n1 & Hsk & Hch & _).
    simpl in Hsk. subst skips. apply enc_chain_even in Hch.
    apply adds_only_bind.
    { unfold bottleneck. apply adds_only_for_in with (I := fun _ => True);
        [exact I | | auto].
      intros _ [x d0] _. crops_evenly_steps. }
    intros [x2 d2] g2 g2' _.
    apply adds_only_bind.
    { unfold decoder. apply adds_only_for_in with (I := fun _ => True);
        [exact I | | auto].
      intros i [x f0] _.
      apply adds_only_bind; [apply adds_only_py_getitem | intros sk ? ? Eg].
      apply py_getitem_ok_inv in Eg.
      apply adds_only_bind; [| intros y ? ? _; apply adds_only_ret].
      apply crops_evenly_upsampling_block.
      rewrite Forall_forall in Hch. now apply Hch. }
    intros [x3 f3] g3 g3' _. crops_evenly_steps. }
  destruct (H []) as (nodes & E & F). now rewrite E.
Qed.

(* ================================================================== *)
(** ** The convolutions of a build *)
(* ================================================================== *)

(** The convolutions the encoder loop builds when it returns, entered
    with [f0 * 2^k] features. *)
Lemma encoder_loop_convs p bn dr f0 (l : list Z) :
  forall k x skips g x' skips' f' g',
    for_in l (encoder_body p bn dr) (x, skips, f0 * 2 ^ Z.of_nat k) g
    = (Ok (x', skips', f'), g') ->
    f' = f0 * 2 ^ Z.of_nat (k + List.length l) /\
    exists nodes,
      g' = g ++ nodes /\
      conv_layers nodes
      = flat_map (fun i => encoder_stage_convs p (f0 * 2 ^ i))
                 (range_from k (List.length l)).
Proof.
  induction l as [|v l IH]; intros k x skips g x' skips' f' g' H.
  - apply ret_ok_inv in H as [H ->]. injection H as <- <- <-.
    rewrite Nat.add_0_r. split; [reflexivity |].
    exists []. now rewrite app_nil_r.
  - rewrite for_in_cons in H.
    apply bind_ok_inv in H as ([[x1 skips1] f1] & g1 & Hb & H).
    unfold encoder_body in Hb.
    apply bind_ok_inv in Hb as ([pl sk] & g0 & Hd & Hr).
    apply ret_ok_inv in Hr as [Hr ->]. injection Hr as <- <- <-.
    apply downsampling_block_ok_inv in Hd
      as (pm & n1 & _ & _ & _ & _ & _ & _ & _ & -> & Hc1 & _).
    replace (f0 * 2 ^ Z.of_nat k * 2) with (f0 * 2 ^ Z.of_nat (S k)) in H
      by (rewrite Nat2Z.inj_succ, Z.pow_succ_r by lia; lia).
    apply IH in H as (-> & n2 & -> & Hc2).
    split; [f_equal; f_equal; simpl; lia |].
    exists (n1 ++ n2). split; [now rewrite app_assoc |].
    rewrite conv_layers_app, Hc1, Hc2. simpl List.length.
    rewrite range_from_S. reflexivity.
Qed.

(** The convolutions the decoder loop builds when it returns, entered
    with [f0 * 2^(k + n)] features over the stages [k + n - 1, ..., k]:
    it leaves with [f0 * 2^k] features. *)
Lemma decoder_loop_convs skips p bn dr f0 (n : nat) :
  forall k y g z fz g',
    for_in (rev (range_from k n)) (decoder_body skips p bn dr)
      (y, f0 * 2 ^ Z.of_nat (k + n)) g
    = (Ok (z, fz), g') ->
    fz = f0 * 2 ^ Z.of_nat k /\
    exists nodes,
      g' = g ++ nodes /\
      conv_layers nodes
      = flat_map (fun i => decoder_stage_convs p (f0 * 2 ^ i))
                 (rev (range_from k n)).
Proof.
  induction n as [|n IH]; intros k y g z fz g' H.
  - apply ret_ok_inv in H as [H ->]. injection H as <- <-.
    rewrite Nat.add_0_r. split; [reflexivity |].
    exists []. now rewrite app_nil_r.
  - rewrite rev_range_from_S, for_in_app in H.
    apply bind_ok_inv in H as ([z1 f1] & g1 & H1 & H2).
    replace (k + S n)%nat with (S k + n)%nat in H1 by lia.
    apply IH in H1 as (-> & n1 & -> & Hc1).
    rewrite for_in_cons in H2.
    apply bind_ok_inv in H2 as ([z2 f2] & g2 & Hb & Hr).
    apply ret_ok_inv in Hr as [Hr ->]. injection Hr as -> ->.
    unfold decoder_body in Hb.
    replace (f0 * 2 ^ Z.of_nat (S k) / 2) with (f0 * 2 ^ Z.of_nat k) in Hb
      by (rewrite Nat2Z.inj_succ, Z.pow_succ_r by lia;
          replace (f0 * (2 * 2 ^ Z.of_nat k)) with (f0 * 2 ^ Z.of_nat k * 2)
            by lia;
          now rewrite Z.div_mul by lia).
    apply bind_ok_inv in Hb as (sk & g0 & Hg & Hb).
    assert (g0 = g ++ n1).
    { unfold py_getitem in Hg. destruct (_ && _); [| discriminate].
      destruct (nth_error _ _); [| discriminate]. now injection Hg. }
    subst g0.
    apply bind_ok_inv in Hb as (out & g3 & Hu & Hr).
    apply ret_ok_inv in Hr as [Hr ->]. injection Hr as -> ->.
    apply upsampling_block_ok_inv in Hu
      as (pm & yy & n2 & _ & _ & _ & _ & -> & Hc2 & _).
    split; [reflexivity |]. exists (n1 ++ n2).
    split; [now rewrite app_assoc |].
    rewrite conv_layers_app, Hc1, Hc2, rev_range_from_S, flat_map_app.
    reflexivity.
Qed.

Lemma conv_layers_input s ins t : conv_layers [mkNode (LInput s) ins t] = [].
Proof. reflexivity. Qed.

(** The nodes of a build that returns, phase by phase, and the
    convolutions among them: none for the placeholder; those of the
    encoder stages; those of the bottleneck, all with
    [features * 2^max(depth, 0)] filters and dilation rates 1, 2, 4,
    ...; those of the decoder stages; the 1x1 convolution of the
    head. *)
Lemma dilated_unet_phase_convs h w c cl f d t p bn dr n g m g' :
  dilated_unet h w c cl f d t p bn dr n g = (Ok m, g') ->
  exists n0 n1 n2 n3 n4,
    g' = g ++ n0 ++ n1 ++ n2 ++ n3 ++ n4 /\
    conv_layers n0 = [] /\
    conv_layers n1
    = flat_map (fun i => encoder_stage_convs p (f * 2 ^ i)) (range d) /\
    conv_layers n2
    = map (fun j => LConv2D (f * 2 ^ Z.max 0 d) (3, 3) p (2 ^ j))
          (range n) /\
    conv_layers n3
    = flat_map (fun i => decoder_stage_convs p (f * 2 ^ i))
               (rev (range d)) /\
    conv_layers n4 = [LConv2D cl (1, 1) "valid" 1].
Proof.
  intros H. apply dilated_unet_ok_inv in H
    as (x0 & g0 & x1 & skips & f1 & g1 & x2 & d2 & g2 & x3 & f3 & g3
        & E0 & E1 & E2 & E3 & E4).
  apply Input_ok_inv in E0 as (_ & -> & _).
  rewrite encoder_unfold in E1.
  replace f with (f * 2 ^ Z.of_nat 0) in E1 at 1 by (simpl; lia).
  apply encoder_loop_convs in E1 as (-> & n1 & -> & Hc1).
  rewrite bottleneck_unfold in E2.
  apply (bottleneck_loop_spec _ p bn dr (range n) x1 1 0%nat) in E2
    as (n2 & k & -> & _ & Hc2 & _ & _ & _ & Hok).
  destruct (Hok _ _ eq_refl) as (-> & _ & _).
  rewrite decoder_unfold in E3. rewrite <- (range_from_range d) in E3 at 1.
  apply decoder_loop_convs in E3 as (_ & n3 & -> & Hc3).
  apply head_ok_inv in E4 as (_ & _ & cv & l & ->).
  eexists [_], n1, n2, n3, [_; _; _].
  split; [rewrite <- !app_assoc; reflexivity |].
  split; [reflexivity |].
  split; [now rewrite Hc1, range_from_range |].
  split.
  { rewrite Hc2, range_from_range. simpl Nat.add. rewrite range_length_max.
    apply map_ext. intros j. now rewrite Z.mul_1_l. }
  split; [now rewrite Hc3, range_from_range | reflexivity].
Qed.

(** The convolutions of a build that returns are those the docstring
    announces, in that order. *)
Theorem convolutions_of_a_build h w c cl f d t p bn dr n m g :
  dilated_unet h w c cl f d t p bn dr n [] = (Ok m, g) ->
  conv_layers g = unet_convolutions f d n p cl.
Proof.
  intros H. apply dilated_unet_phase_convs in H
    as (n0 & n1 & n2 & n3 & n4 & Hg & H0 & H1 & H2 & H3 & H4).
  simpl in Hg. subst g.
  rewrite !conv_layers_app, H0, H1, H2, H3, H4.
  reflexivity.
Qed.

Lemma convolutions_of_a_build_witness :
  conv_layers (snd (dilated_unet 32 32 1 3 8 2 1 "same" true (1 # 2) 3 []))
  = unet_convolutions 8 2 3 "same" 3.
Proof.
  apply (convolutions_of_a_build 32 32 1 3 8 2 1 "same" true (1 # 2) 3
           (mkModel (mkTensor 0 (mkShape 32 32 1))
                    (mkTensor 53 (mkShape 32 32 3)))).
  vm_compute. reflexivity.
Defined.

(* ================================================================== *)
(** ** The claim about the bottleneck *)
(* ================================================================== *)

Lemma flat_map_length_const {A B} (f : A -> list B) (k : nat) (l : list A) :
  (forall a, List.length (f a) = k) ->
  List.length (flat_map f l) = (k * List.length l)%nat.
Proof.
  intros H. induction l as [|a l IH]; simpl; [lia |].
  rewrite length_app, H, IH. lia.
Qed.

Lemma range_length n : List.length (range n) = Z.to_nat n.
Proof. unfold range. now rewrite length_map, length_seq. Qed.

(** C6.  In every build that returns, the nodes of the graph fall into
    those built before the bottleneck (the placeholder and the encoder
    stages, with two convolutions per stage), those of the bottleneck,
    and those built after it (the decoder stages, two convolutions
    each, and the head, one).  The convolutions of the bottleneck are,
    in order, [dilation_layers] 3x3 convolutions with the configured
    padding, all with the same number of filters, the
    [features * 2^depth] the encoder has arrived at, and with dilation
    rates 1, 2, 4, ...: the one built by iteration [i] (counting from
    0) has rate [2^i].  Such builds exist for every
    [dilation_layers >= 1]: under 'same' padding, on positive sizes
    divisible by [2^depth] and with counts of channels, classes and
    features that are not negative, the build returns.  As for the
    loop itself, entered at rate 1: whatever its outcome, the
    convolutions it has built are the first of that sequence, all of
    them when it returns, and it then leaves the rate at
    [2^dilation_layers]. *)
Theorem C6_bottleneck_dilation_rates :
  (forall h w c cl f d t p bn dr n g m g',
     dilated_unet h w c cl f d t p bn dr n g = (Ok m, g') ->
     exists before bott after,
       g' = g ++ before ++ bott ++ after /\
       List.length (conv_layers before) = (2 * Z.to_nat d)%nat /\
       conv_layers bott
       = map (fun i => LConv2D (f * 2 ^ Z.max 0 d) (3, 3) p (2 ^ i))
             (range n) /\
       List.length (conv_layers bott) = Z.to_nat n /\
       List.length (conv_layers after) = (2 * Z.to_nat d + 1)%nat) /\
  (forall h w c cl f d t p bn dr n,
     1 <= n ->
     normalize_padding p = Some same ->
     0 < h -> 0 < w -> 0 <= c -> 0 <= cl -> 0 <= f ->
     (2 ^ Z.max 0 d | h) -> (2 ^ Z.max 0 d | w) ->
     exists m g before bott after,
       dilated_unet h w c cl f d t p bn dr n [] = (Ok m, g) /\
       g = before ++ bott ++ after /\
       conv_layers bott
       = map (fun i => LConv2D (f * 2 ^ Z.max 0 d) (3, 3) p (2 ^ i))
             (range n)) /\
  (forall n f p bn dr x g r g',
     1 <= n ->
     bottleneck n f p bn dr (x, 1) g = (r, g') ->
     exists nodes m,
       g' = g ++ nodes /\
       0 <= m <= n /\
       conv_layers nodes
       = map (fun i => LConv2D f (3, 3) p (2 ^ i)) (range m) /\
       (forall x' d', r = Ok (x', d') -> m = n /\ d' = 2 ^ n)).
Proof.
  split; [| split].
  - intros h w c cl f d t p bn dr n g m g' H.
    apply dilated_unet_phase_convs in H
      as (n0 & n1 & n2 & n3 & n4 & -> & H0 & H1 & H2 & H3 & H4).
    exists (n0 ++ n1), n2, (n3 ++ n4).
    split; [now rewrite <- !app_assoc |].
    split.
    { rewrite conv_layers_app, H0, H1. cbn [app].
      rewrite (flat_map_length_const _ 2) by reflexivity.
      now rewrite range_length. }
    split; [exact H2 |].
    split; [now rewrite H2, length_map, range_length |].
    rewrite conv_layers_app, length_app, H3, H4.
    rewrite (flat_map_length_const _ 2) by reflexivity.
    rewrite length_rev, range_length. reflexivity.
  - intros h w c cl f d t p bn dr n Hn Hp Hh Hw Hc Hcl Hf Dh Dw.
    destruct (dilated_unet_same_run h w c cl f d t p bn dr n Hp Hh Hw Hc
                Hcl Hf Dh Dw) as (m & g & H).
    pose proof H as H'.
    apply dilated_unet_phase_convs in H'
      as (n0 & n1 & n2 & n3 & n4 & Hg & _ & _ & H2 & _).
    exists m, g, (n0 ++ n1), n2, (n3 ++ n4).
    split; [exact H |]. split; [| exact H2].
    rewrite Hg. cbn [app]. now rewrite <- !app_assoc.
  - intros n f p bn dr x g r g' Hn H. rewrite bottleneck_unfold in H.
    apply (bottleneck_loop_spec f p bn dr (range n) x 1 0%nat) in H
      as (nodes & m & -> & Hm & Hc & _ & _ & _ & Hok).
    rewrite range_length in Hm.
    exists nodes, (Z.of_nat m).
    split; [reflexivity |]. split; [lia |]. split.
    + rewrite Hc. unfold range, range_from. rewrite Nat2Z.id.
      apply map_ext. intros i. now rewrite Z.mul_1_l.
    + intros x' d' Hr. destruct (Hok _ _ Hr) as (-> & -> & _).
      rewrite range_length.
      rewrite Z2Nat.id, Z.mul_1_l by lia. split; [reflexivity |].
      f_equal. simpl. lia.
Qed.

Lemma C6_bottleneck_dilation_rates_witness :
  exists before bott after,
    snd (dilated_unet 32 32 1 3 8 2 1 "same" false 0 5 [])
    = [] ++ before ++ bott ++ after /\
    List.length (conv_layers before) = (2 * Z.to_nat 2)%nat /\
    conv_layers bott
    = map (fun i => LConv2D (8 * 2 ^ Z.max 0 2) (3, 3) "same" (2 ^ i))
          (range 5) /\
    List.length (conv_layers bott) = Z.to_nat 5 /\
    List.length (conv_layers after) = (2 * Z.to_nat 2 + 1)%nat.
Proof.
  apply (proj1 C6_bottleneck_dilation_rates 32 32 1 3 8 2 1%Q "same"%string
           false 0%Q 5 []
           (mkModel (mkTensor 0 (mkShape 32 32 1))
                    (mkTensor 35 (mkShape 32 32 3)))).
  vm_compute. reflexivity.
Defined.

(* ================================================================== *)
(** ** The contracts of the blocks *)
(* ================================================================== *)



(** The two closing convolutions of [upsampling_block], when they
    return, had room: under 'valid' padding at least 5 rows and
    columns. *)
Lemma upsampling_convs_ok_room x f p bn dr g out g' pm :
  upsampling_convs x f p bn dr g = (Ok out, g') ->
  normalize_padding p = Some pm ->
  room pm 5 (height (tshape x)) /\ room pm 5 (width (tshape x)).
Proof.
  unfold upsampling_convs. intros H Hpm.
  apply Conv2D3_ok_inv in H as (pm1 & c1 & Hp & F1 & F2 & Hc1 & H).
  rewrite Hpm in Hp. injection Hp as <-.
  step_post H a1 n1 Ha1 Hq1.
  apply Conv2D3_ok_inv in H as (pm' & c2 & Hp' & F3 & F4 & Hc2 & H).
  rewrite Hpm in Hp'. injection Hp' as <-.
  rewrite Ha1, Hc1 in F3, F4. cbn [height width] in F3, F4.
  unfold room, fits3, shrink in *. destruct pm; [lia | now split].
Qed.

(** [upsampling_block] returns exactly when the padding mode is
    recognized, the filter count is not negative, the upsampled tensor
    (twice the input) is no larger than the skip tensor, and, under
    'valid' padding, it has at least 5 rows and columns for the two
    convolutions.  What it returns has
    [filters] channels and twice the input's size less what the
    convolutions remove: its shape does not depend on the skip
    tensor. *)
Theorem upsampling_block_contract x skip f p bn dr g :
  ((exists out g', upsampling_block x skip f p bn dr g = (Ok out, g')) <->
   exists pm,
     normalize_padding p = Some pm /\
     0 <= f /\
     2 * height (tshape x) <= height (tshape skip) /\
     2 * width (tshape x) <= width (tshape skip) /\
     room pm 5 (2 * height (tshape x)) /\
     room pm 5 (2 * width (tshape x))) /\
  (forall out g' pm,
     upsampling_block x skip f p bn dr g = (Ok out, g') ->
     normalize_padding p = Some pm ->
     tshape out = mkShape (shrink pm 4 (2 * height (tshape x)))
                          (shrink pm 4 (2 * width (tshape x))) f).
Proof.
  split; [split |].
  - intros (out & g' & H). pose proof H as H'.
    pose proof (upsampling_block_ok_filters _ _ _ _ _ _ _ _ _ H) as Hf.
    apply upsampling_block_ok_inv in H
      as (pm & y & nodes & Hp & Hh & Hw & _).
    rewrite upsampling_block_unfold in H'. cbv zeta in H'.
    rewrite (ltb_nonneg _ Hf) in H'.
    rewrite (proj2 (Z.ltb_ge _ _) Hh), (proj2 (Z.ltb_ge _ _) Hw) in H'.
    apply (upsampling_convs_ok_room _ _ _ _ _ _ _ _ pm) in H' as [R1 R2];
      [| exact Hp].
    exists pm. unfold h_crop, w_crop in Hh, Hw.
    cbn [concat_output tshape height width upsampled] in R1, R2.
    repeat split; try assumption; lia.
  - intros (pm & Hp & Hf & Hh & Hw & R1 & R2).
    apply upsampling_block_run with (pm := pm); try assumption;
      unfold h_crop, w_crop; lia.
  - intros out g' pm H Hpm.
    apply upsampling_block_ok_inv in H as (pm' & y & nodes & Hp & _ & _ & Hs & _).
    rewrite Hpm in Hp. injection Hp as <-. exact Hs.
Qed.

Lemma upsampling_block_contract_witness :
  tshape (mkTensor 8 (mkShape 4 8 16))
  = mkShape (shrink valid 4 (2 * 4)) (shrink valid 4 (2 * 6)) 16.
Proof.
  apply (proj2 (upsampling_block_contract (mkTensor 0 (mkShape 4 6 32))
                  (mkTensor 1 (mkShape 11 12 16)) 16 "valid" false 0
                  [mkNode (LInput (mkShape 4 6 32)) []
                          (mkTensor 0 (mkShape 4 6 32));
                   mkNode (LInput (mkShape 11 12 16)) []
                          (mkTensor 1 (mkShape 11 12 16))])
           (mkTensor 8 (mkShape 4 8 16))
           (snd (upsampling_block (mkTensor 0 (mkShape 4 6 32))
                   (mkTensor 1 (mkShape 11 12 16)) 16 "valid" false 0
                   [mkNode (LInput (mkShape 4 6 32)) []
                           (mkTensor 0 (mkShape 4 6 32));
                    mkNode (LInput (mkShape 11 12 16)) []
                           (mkTensor 1 (mkShape 11 12 16))]))
           valid).
  - vm_compute. reflexivity.
  - reflexivity.
Defined.

(** An iteration of the bottleneck loop that returns leaves at least
    one row and column under 'valid' padding. *)
Lemma bottleneck_body_ok_inv f p bn dr v x d g x' d' g' :
  normalize_padding p = Some valid ->
  bottleneck_body f p bn dr v (x, d) g = (Ok (x', d'), g') ->
  d' = d * 2 /\
  height (tshape x') = height (tshape x) - 2 * d /\
  width (tshape x') = width (tshape x) - 2 * d /\
  1 <= height (tshape x') /\ 1 <= width (tshape x').
Proof.
  intros Hpm H. unfold bottleneck_body in H.
  apply Conv2D3_ok_inv in H as (pm & c1 & Hp & F1 & F2 & Hc1 & H).
  rewrite Hpm in Hp. injection Hp as <-.
  step_post H a1 n1 Ha1 Hq1.
  apply ret_ok_inv in H as [H _]. injection H as <- <-.
  rewrite Ha1, Hc1. cbn [height width shrink]. unfold fits3 in *.
  repeat split; lia.
Qed.

Lemma bottleneck_loop_positive f p bn dr (l : list Z) :
  normalize_padding p = Some valid ->
  l <> [] ->
  forall x d g x' d' g',
    for_in l (bottleneck_body f p bn dr) (x, d) g = (Ok (x', d'), g') ->
    1 <= height (tshape x') /\ 1 <= width (tshape x').
Proof.
  intros Hpm. induction l as [|v l IH]; intros Hne x d g x' d' g' H;
    [contradiction |].
  rewrite for_in_cons in H.
  apply bind_ok_inv in H as ([x1 d1] & g1 & Hb & H).
  apply (bottleneck_body_ok_inv _ _ _ _ _ _ _ _ _ _ _ Hpm) in Hb
    as (_ & _ & _ & P1 & P2).
  destruct l as [|v' l'].
  - apply ret_ok_inv in H as [H _]. injection H as <- _. now split.
  - eapply IH; [discriminate | exact H].
Qed.

(** A bottleneck loop of at least one iteration that returns has a
    filter count that is not negative. *)
Lemma bottleneck_ok_filters n f p bn dr s g s' g' :
  1 <= n ->
  bottleneck n f p bn dr s g = (Ok s', g') -> 0 <= f.
Proof.
  intros Hn H. rewrite bottleneck_unfold in H.
  destruct (range_pos n Hn) as [l El]. rewrite El in H.
  rewrite for_in_cons in H. apply bind_ok_inv in H as (s1 & g1 & H & _).
  destruct s as [x d]. unfold bottleneck_body in H.
  now apply Conv2D_ok_filters in H.
Qed.

(** A build that returns, phase by phase, with what the loops carry:
    the encoder leaves [features * 2^max(depth, 0)], which the
    bottleneck and the decoder are entered with, and the bottleneck,
    entered at dilation rate 1, leaves [2^max(dilation_layers, 0)]. *)
Lemma dilated_unet_phases h w c cl f d t p bn dr n g m g' :
  dilated_unet h w c cl f d t p bn dr n g = (Ok m, g') ->
  exists x0 g0 x1 skips g1 x2 g2 x3 f3 g3,
    Input (mkShape h w c) g = (Ok x0, g0) /\
    encoder d p bn dr (x0, [], f) g0
    = (Ok (x1, skips, f * 2 ^ Z.max 0 d), g1) /\
    bottleneck n (f * 2 ^ Z.max 0 d) p bn dr (x1, 1) g1
    = (Ok (x2, 2 ^ Z.max 0 n), g2) /\
    decoder d skips p bn dr (x2, f * 2 ^ Z.max 0 d) g2
    = (Ok (x3, f3), g3) /\
    head x0 x3 cl t g3 = (Ok m, g').
Proof.
  intros H. apply dilated_unet_ok_inv in H
    as (x0 & g0 & x1 & skips & f1 & g1 & x2 & d2 & g2 & x3 & f3 & g3
        & E0 & E1 & E2 & E3 & E4).
  assert (Hf1 : f1 = f * 2 ^ Z.max 0 d).
  { pose proof E1 as E1'. rewrite encoder_unfold in E1'.
    replace f with (f * 2 ^ Z.of_nat 0) in E1' at 1 by (simpl; lia).
    apply encoder_loop_convs in E1' as (-> & _).
    simpl Nat.add. now rewrite range_length_max. }
  subst f1.
  assert (Hd2 : d2 = 2 ^ Z.max 0 n).
  { pose proof E2 as E2'. rewrite bottleneck_unfold in E2'.
    apply (bottleneck_loop_spec _ p bn dr (range n) x1 1 0%nat) in E2'
      as (n2 & k & _ & _ & _ & _ & _ & _ & Hok).
    destruct (Hok _ _ eq_refl) as (_ & -> & _).
    simpl Nat.add. rewrite range_length_max. lia. }
  subst d2.
  now exists x0, g0, x1, skips, g1, x2, g2, x3, f3, g3.
Qed.

(** The bottleneck loop of lines 104-111.  Inside a build that returns
    it is entered on the encoder's output at dilation rate 1 with
    [features * 2^max(depth, 0)] filters and left at rate
    [2^max(dilation_layers, 0)].  Under 'valid' padding, entered at
    rate 1 for [dilation_layers >= 1] convolutions, it returns exactly
    when the filter count is not negative and its input has at least
    [2^(dilation_layers + 1) - 1] rows and columns (63 for the default
    of 5 layers), and what it returns has
    [2^(dilation_layers + 1) - 2] fewer. *)
Theorem bottleneck_contract :
  (forall h w c cl f d t p bn dr n g m g',
     dilated_unet h w c cl f d t p bn dr n g = (Ok m, g') ->
     exists x0 g0 x1 skips g1 x2 g2 x3 f3 g3,
       Input (mkShape h w c) g = (Ok x0, g0) /\
       encoder d p bn dr (x0, [], f) g0
       = (Ok (x1, skips, f * 2 ^ Z.max 0 d), g1) /\
       bottleneck n (f * 2 ^ Z.max 0 d) p bn dr (x1, 1) g1
       = (Ok (x2, 2 ^ Z.max 0 n), g2) /\
       decoder d skips p bn dr (x2, f * 2 ^ Z.max 0 d) g2
       = (Ok (x3, f3), g3) /\
       head x0 x3 cl t g3 = (Ok m, g')) /\
  (forall n f p bn dr x g,
     normalize_padding p = Some valid ->
     1 <= n ->
     ((exists x' d' g',
         bottleneck n f p bn dr (x, 1) g = (Ok (x', d'), g')) <->
      0 <= f /\
      2 ^ (n + 1) - 1 <= height (tshape x) /\
      2 ^ (n + 1) - 1 <= width (tshape x)) /\
     (forall x' d' g',
        bottleneck n f p bn dr (x, 1) g = (Ok (x', d'), g') ->
        height (tshape x') = height (tshape x) - (2 ^ (n + 1) - 2) /\
        width (tshape x') = width (tshape x) - (2 ^ (n + 1) - 2))).
Proof.
  split; [exact dilated_unet_phases |].
  intros n f p bn dr x g Hp Hn.
  assert (Hl : List.length (range n) = Z.to_nat n)
    by (unfold range; now rewrite length_map, length_seq).
  assert (Hloss : bottleneck_loss valid 1 (List.length (range n))
                  = 2 ^ (n + 1) - 2).
  { unfold bottleneck_loss. rewrite Hl, Z2Nat.id, Z.pow_add_r by lia.
    change (2 ^ 1) with 2. lia. }
  assert (Hne : range n <> []).
  { intros E. rewrite E in Hl. simpl in Hl. lia. }
  split; [split |].
  - intros (x' & d' & g' & H).
    pose proof (bottleneck_ok_filters _ _ _ _ _ _ _ _ _ Hn H) as Hf.
    rewrite bottleneck_unfold in H. pose proof H as H'.
    apply (bottleneck_loop_size _ _ _ _ _ _ Hp) in H as [S1 S2].
    apply (bottleneck_loop_positive _ _ _ _ _ Hp Hne) in H' as [P1 P2].
    rewrite Hloss in S1, S2. lia.
  - intros (Hf & Hh & Hw). rewrite bottleneck_unfold.
    apply (bottleneck_loop_run f p valid bn dr Hp Hf); rewrite ?Hloss; lia.
  - intros x' d' g' H. rewrite bottleneck_unfold in H.
    apply (bottleneck_loop_size _ _ _ _ _ _ Hp) in H as [S1 S2].
    now rewrite Hloss in S1, S2.
Qed.

Lemma bottleneck_contract_witness :
  (exists x' d' g',
     bottleneck 5 512 "valid" false 0 (mkTensor 0 (mkShape 63 70 512), 1) []
     = (Ok (x', d'), g')) <->
  0 <= 512 /\ 2 ^ (5 + 1) - 1 <= 63 /\ 2 ^ (5 + 1) - 1 <= 70.
Proof.
  refine (proj1 (proj2 bottleneck_contract 5 512 "valid"%string false 0%Q
                   (mkTensor 0 (mkShape 63 70 512)) [] _ _));
    [reflexivity | lia].
Defined.

(* ================================================================== *)
(** ** What the optional layers and the temperature do not change *)
(* ================================================================== *)

Lemma sim_ret {A B} (R : A -> B -> Prop) a b : R a b -> sim R (ret a) (ret b).
Proof. intros H g1 g2. exact H. Qed.

Lemma sim_raise {A B} (R : A -> B -> Prop) e : sim R (raise e) (raise e).
Proof. intros g1 g2. reflexivity. Qed.

Lemma sim_bind {A B A' B'} (R : A -> B -> Prop) (R' : A' -> B' -> Prop)
    (m1 : M A) (m2 : M B) (k1 : A -> M A') (k2 : B -> M B') :
  sim R m1 m2 ->
  (forall a b, R a b -> sim R' (k1 a) (k2 b)) ->
  sim R' (bind m1 k1) (bind m2 k2).
Proof.
  intros Hm Hk g1 g2. specialize (Hm g1 g2). unfold bind.
  destruct (m1 g1) as [[a|e1] g1'], (m2 g2) as [[b|e2] g2']; simpl in Hm;
    try contradiction.
  - now apply Hk.
  - exact Hm.
Qed.

Lemma sim_add_node l1 l2 ins1 ins2 s :
  sim same_shape (add_node l1 ins1 s) (add_node l2 ins2 s).
Proof. intros g1 g2. reflexivity. Qed.

Lemma sim_if {A B} (R : A -> B -> Prop) (c : bool) (m1 m1' : M A)
    (m2 m2' : M B) :
  sim R m1 m2 -> sim R m1' m2' ->
  sim R (if c then m1 else m1') (if c then m2 else m2').
Proof. now destruct c. Qed.

Lemma sim_assert c a : sim (fun _ _ => True) (py_assert c a) (py_assert c a).
Proof. destruct c; intros g1 g2; reflexivity. Qed.

Lemma sim_for_in {A S1 S2} (R : S1 -> S2 -> Prop) (l : list A)
    (body1 : A -> S1 -> M S1) (body2 : A -> S2 -> M S2) :
  (forall v s1 s2, R s1 s2 -> sim R (body1 v s1) (body2 v s2)) ->
  forall s1 s2, R s1 s2 -> sim R (for_in l body1 s1) (for_in l body2 s2).
Proof.
  intros Hb. induction l as [|v l IH]; intros s1 s2 Hs; simpl.
  - now apply sim_ret.
  - eapply sim_bind; [now apply Hb | exact IH].
Qed.

Lemma sim_Conv2D f ks p d x1 x2 :
  same_shape x1 x2 ->
  sim same_shape (Conv2D f ks p d x1) (Conv2D f ks p d x2).
Proof.
  unfold same_shape, Conv2D. intros ->.
  destruct (normalize_padding p); [| apply sim_raise].
  destruct ks. apply sim_if; [apply sim_add_node | apply sim_raise].
Qed.

Lemma sim_Conv2DTranspose f ks st p x1 x2 :
  same_shape x1 x2 ->
  sim same_shape (Conv2DTranspose f ks st p x1) (Conv2DTranspose f ks st p x2).
Proof.
  unfold same_shape, Conv2DTranspose. intros ->.
  destruct (normalize_padding p); [| apply sim_raise].
  destruct ks, st. apply sim_if; [apply sim_add_node | apply sim_raise].
Qed.

Lemma sim_MaxPooling2D ps x1 x2 :
  same_shape x1 x2 ->
  sim same_shape (MaxPooling2D ps x1) (MaxPooling2D ps x2).
Proof.
  unfold same_shape, MaxPooling2D. intros ->. destruct ps.
  apply sim_if; [apply sim_add_node | apply sim_raise].
Qed.

Lemma sim_Cropping2D cr x1 x2 :
  same_shape x1 x2 ->
  sim same_shape (Cropping2D cr x1) (Cropping2D cr x2).
Proof.
  unfold same_shape, Cropping2D. intros ->. destruct cr as [[? ?] [? ?]].
  apply sim_add_node.
Qed.

Lemma sim_Concatenate x1 x2 y1 y2 :
  same_shape x1 x2 -> same_shape y1 y2 ->
  sim same_shape (Concatenate x1 y1) (Concatenate x2 y2).
Proof.
  unfold same_shape, Concatenate. intros -> ->.
  apply sim_if; [apply sim_add_node | apply sim_raise].
Qed.

Lemma sim_Activation fn x1 x2 :
  same_shape x1 x2 -> sim same_shape (Activation fn x1) (Activation fn x2).
Proof. unfold same_shape, Activation. intros ->. apply sim_add_node. Qed.

(** The optional layers keep the shape whether they are there or not. *)
Lemma sim_batchnorm (bn1 bn2 : bool) x1 x2 :
  same_shape x1 x2 ->
  sim same_shape (if bn1 then BatchNormalization x1 else ret x1)
                 (if bn2 then BatchNormalization x2 else ret x2).
Proof.
  unfold same_shape. intros H g1 g2. destruct bn1, bn2; exact H.
Qed.

Lemma sim_dropout (dr1 dr2 : Q) x1 x2 :
  same_shape x1 x2 ->
  sim same_shape (if Qpositive dr1 then Dropout dr1 x1 else ret x1)
                 (if Qpositive dr2 then Dropout dr2 x2 else ret x2).
Proof.
  unfold same_shape. intros H g1 g2.
  destruct (Qpositive dr1), (Qpositive dr2); exact H.
Qed.

Lemma sim_Lambda f1 f2 x1 x2 :
  same_shape x1 x2 -> sim same_shape (Lambda f1 x1) (Lambda f2 x2).
Proof. unfold same_shape, Lambda. intros ->. apply sim_add_node. Qed.

Ltac sim_steps :=
  repeat first
    [ eapply sim_bind; [| intros ? ? ?]
    | apply sim_assert
    | apply sim_Conv2D; assumption
    | apply sim_Conv2DTranspose; assumption
    | apply sim_MaxPooling2D; assumption
    | apply sim_Concatenate; assumption
    | apply sim_Activation; assumption
    | apply sim_Lambda; assumption
    | apply sim_batchnorm; assumption
    | apply sim_dropout; assumption ].

Lemma sim_downsampling_block x1 x2 f p bn1 bn2 dr1 dr2 :
  same_shape x1 x2 ->
  sim (fun a b => same_shape (fst a) (fst b) /\ same_shape (snd a) (snd b))
      (downsampling_block x1 f p bn1 dr1) (downsampling_block x2 f p bn2 dr2).
Proof.
  intros Hx. unfold downsampling_block, int_shape.
  rewrite <- Hx. sim_steps. apply sim_ret. now split.
Qed.

Lemma sim_upsampling_block x1 x2 s1 s2 f p bn1 bn2 dr1 dr2 :
  same_shape x1 x2 -> same_shape s1 s2 ->
  sim same_shape (upsampling_block x1 s1 f p bn1 dr1)
                 (upsampling_block x2 s2 f p bn2 dr2).
Proof.
  intros Hx Hs. unfold upsampling_block, int_shape.
  eapply sim_bind; [now apply sim_Conv2DTranspose | intros u1 u2 Hu].
  rewrite <- Hs, <- Hu.
  eapply sim_bind; [apply sim_assert | intros _ _ _].
  eapply sim_bind; [apply sim_assert | intros _ _ _].
  apply (sim_bind same_shape).
  { apply sim_if; [apply sim_ret; exact Hs | apply sim_Cropping2D; exact Hs]. }
  intros y1 y2 Hy. sim_steps. now apply sim_ret.
Qed.

Lemma sim_py_getitem (l1 l2 : list tensor) i :
  Forall2 same_shape l1 l2 ->
  sim same_shape (py_getitem l1 i) (py_getitem l2 i).
Proof.
  intros H. unfold py_getitem. rewrite (Forall2_length H).
  apply sim_if; [| apply sim_raise].
  generalize (Z.to_nat (if i <? 0 then i + Z.of_nat (List.length l2) else i)).
  induction H as [|a b l1 l2 Hab H IH]; intros [|k]; simpl;
    try apply sim_raise; [now apply sim_ret | apply IH].
Qed.

(** Batch normalization, dropout, the temperature and the graph a build
    starts from change nothing of what a caller sees of it: with the
    other arguments equal, two builds raise the same exception or
    return models with the same input and output shapes. *)
Theorem outcome_independent_of_options
    h w c cl f d p n t1 t2 bn1 bn2 dr1 dr2 g1 g2 :
  outcome (fst (dilated_unet h w c cl f d t1 p bn1 dr1 n g1))
  = outcome (fst (dilated_unet h w c cl f d t2 p bn2 dr2 n g2)).
Proof.
  assert (H : sim (fun m1 m2 => tshape (inputs m1) = tshape (inputs m2) /\
                                tshape (outputs m1) = tshape (outputs m2))
                (dilated_unet h w c cl f d t1 p bn1 dr1 n)
                (dilated_unet h w c cl f d t2 p bn2 dr2 n)).
  { unfold dilated_unet.
    eapply sim_bind.
    { unfold Input. apply sim_if; [apply sim_add_node | apply sim_raise]. }
    intros x0 y0 H0.
    eapply sim_bind.
    { unfold encoder.
      apply (sim_for_in (fun s1 s2 =>
               same_shape (fst (fst s1)) (fst (fst s2)) /\
               Forall2 same_shape (snd (fst s1)) (snd (fst s2)) /\
               snd s1 = snd s2)); [| now repeat split; try constructor].
      intros _ [[x1 sk1] f1] [[x2 sk2] f2] (Hx & Hsk & Hf).
      simpl in Hx, Hsk, Hf. subst f2.
      eapply sim_bind; [now apply sim_downsampling_block |].
      intros [a1 b1] [a2 b2] [Ha Hb]. apply sim_ret. simpl.
      repeat split; try assumption.
      apply Forall2_app; [assumption | now constructor]. }
    intros [[x1 sk1] f1] [[x2 sk2] f2] (Hx & Hsk & Hf).
    simpl in Hx, Hsk, Hf. subst f2.
    eapply sim_bind.
    { unfold bottleneck.
      apply (sim_for_in (fun s1 s2 =>
               same_shape (fst s1) (fst s2) /\ snd s1 = snd s2));
        [| now split].
      intros _ [a1 d1] [a2 d2] [Ha Hd]. simpl in Ha, Hd. subst d2.
      sim_steps. apply sim_ret. now split. }
    intros [a1 d1] [a2 d2] [Ha _]. simpl in Ha.
    eapply sim_bind.
    { unfold decoder.
      apply (sim_for_in (fun s1 s2 =>
               same_shape (fst s1) (fst s2) /\ snd s1 = snd s2));
        [| now split].
      intros i [z1 e1] [z2 e2] [Hz He]. simpl in Hz, He. subst e2.
      eapply sim_bind; [now apply sim_py_getitem | intros k1 k2 Hk].
      eapply sim_bind; [now apply sim_upsampling_block | intros o1 o2 Ho].
      apply sim_ret. now split. }
    intros [z1 e1] [z2 e2] [Hz _]. simpl in Hz.
    sim_steps. apply sim_ret. now split. }
  specialize (H g1 g2). unfold outcome.
  destruct (fst (dilated_unet h w c cl f d t1 p bn1 dr1 n g1)) as [m1 | e1],
           (fst (dilated_unet h w c cl f d t2 p bn2 dr2 n g2)) as [m2 | e2];
    try contradiction.
  - destruct H as [-> ->]. reflexivity.
  - now subst.
Qed.
